(** * ai-job-change-tracker: the crawl-and-diff pipeline

    A shallow embedding of the scraping and change-detection code of
    [scraper.py], [run_scraper.py], [app.py] and [.github/workflows/app.py],
    and the properties of it that the specification states; then the
    company functions of the dashboard, the routes of
    [.github/workflows/backend/main.py] and [install_dependencies.py].

    The Python code talks to a browser (Selenium) and to a relational
    store (SQLAlchemy).  Both are modelled explicitly:
    - what the browser and the store answer is read from an environment
      [env] (the web site, the outcome of launching, logging in and
      quitting, the faults of the store, the clock);
    - what the program changes is kept in a [world] (the committed rows of
      the [job_changes] table, the driver attribute of the scraper object,
      and the trace of browser commands issued so far);
    - Python exceptions are the left summand of the result of a
      computation, [try/except] and [try/finally] are combinators. *)

From Stdlib Require Import ZArith Lia.
From stdpp Require Import base option list strings gmap.

(** ** Exceptions, events, and the monad of effects *)

(** The subclasses of Python's [Exception] that the code can meet. *)
Inductive exn : Type :=
| NoSuchElementException
| TimeoutException
| StaleElementReferenceException
| WebDriverException
| ValueError
| KeyError (key : string)
| NameError (name : string)
| LoginFailed
| SQLAlchemyError.

#[global] Instance exn_eq_dec : EqDecision exn.
Proof. solve_decision. Defined.

(** Browser commands, recorded in the order they are issued. *)
Inductive event : Type :=
| EvLaunch                 (* webdriver.Chrome(...) *)
| EvLogin                  (* the login form is driven *)
| EvGet (url : string)     (* driver.get(url) *)
| EvPeopleTab              (* wait for the People tab and click it *)
| EvScroll                 (* window.scrollTo(0, document.body.scrollHeight) *)
| EvQuit                   (* driver.quit() *)
| EvSummary (total : nat). (* the closing summary line of the batch script *)

#[global] Instance event_eq_dec : EqDecision event.
Proof. solve_decision. Defined.

(** One result card of the People page.  Each field is what the lookup
    of the corresponding sub-element gives: its text (for the anchor, its
    [href] attribute, which Selenium reports as [None] when the anchor
    has none), or the exception the lookup raises. *)
Record card : Type := Card {
  title_text : exn + string;          (* .entity-result__title-text *)
  primary_subtitle : exn + string;    (* .entity-result__primary-subtitle *)
  app_aware_link : exn + option string (* a.app-aware-link, href *)
}.

(** A company page: the outcome of navigating to it, of opening the
    People tab, and, for the k-th scroll (k = 0, 1, ...), either the
    exception the scroll or the card query raises or the cards that
    [find_elements] returns afterwards. *)
Record page : Type := Page {
  nav : option exn;
  people_tab : option exn;
  rendered : nat -> exn + list card
}.

(** The rows of the [job_changes] table (class [JobChange] of [app.py]
    and of [.github/workflows/app.py]).  Every column
    but the flag is nullable.  The server-generated columns [id],
    [created_at] and [updated_at] are never read by the pipeline and are
    left out. *)
Module JobChange.
Record t : Type := mk {
  name : option string;
  company : option string;
  old_position : option string;
  new_position : option string;
  change_date : option Z;
  profile_url : option string;
  is_new : bool
}.
End JobChange.

(** The dictionaries built by [scrape_company]; the key [scraped_at] is
    only present in those of [scraper.py]. *)
Module Employee.
Record t : Type := mk {
  name : string;
  company : string;
  position : string;
  profile_url : option string;
  scraped_at : option Z
}.
Definition fields (e : t) : string * string * option string :=
  (name e, position e, profile_url e).
End Employee.

(** The dictionaries built by [process_changes]. *)
Module Change.
Record t : Type := mk {
  name : string;
  company : string;
  old_position : option string;
  new_position : string;
  change_date : Z;
  profile_url : option string
}.
End Change.

Record env : Type := Env {
  launch_outcome : option exn;       (* webdriver.Chrome(...) *)
  login_outcome : option exn;        (* the whole login dialogue *)
  quit_outcome : option exn;         (* driver.quit() *)
  site : string -> page;             (* the page behind a company url *)
  db_fault : nat -> option exn;      (* the fault, if any, of the n-th store round trip *)
  clock : nat -> Z                   (* the n-th reading of datetime.now *)
}.

Record world : Type := World {
  rows : list JobChange.t;   (* committed rows, in the order the store scans them *)
  db_ops : nat;              (* store round trips made so far *)
  ticks : nat;               (* clock readings made so far *)
  driver : bool;             (* self.driver is set *)
  trace : list event         (* browser commands issued so far *)
}.

Definition set_rows (w : world) (r : list JobChange.t) : world :=
  World r (db_ops w) (ticks w) (driver w) (trace w).
Definition set_db_ops (w : world) (n : nat) : world :=
  World (rows w) n (ticks w) (driver w) (trace w).
Definition set_ticks (w : world) (n : nat) : world :=
  World (rows w) (db_ops w) n (driver w) (trace w).
Definition set_driver (w : world) (b : bool) : world :=
  World (rows w) (db_ops w) (ticks w) b (trace w).
Definition set_trace (w : world) (t : list event) : world :=
  World (rows w) (db_ops w) (ticks w) (driver w) t.

Definition M (A : Type) : Type := world -> (exn + A) * world.

Definition ret {A} (a : A) : M A := fun w => (inr a, w).

Definition raise {A} (e : exn) : M A := fun w => (inl e, w).

Definition bind {A B} (m : M A) (k : A -> M B) : M B :=
  fun w =>
    let '(r, w') := m w in
    match r with
    | inl e => (inl e, w')
    | inr a => k a w'
    end.

Notation "x <- m ;; k" := (bind m (fun x => k))
  (at level 100, m at next level, right associativity).
Notation "m ;;; k" := (bind m (fun _ => k))
  (at level 100, right associativity).

(** [try: m except Exception as e: h e] *)
Definition try_except {A} (m : M A) (h : exn -> M A) : M A :=
  fun w =>
    let '(r, w') := m w in
    match r with
    | inl e => h e w'
    | inr a => (inr a, w')
    end.

(** [try: m finally: f]: [f] always runs; an exception of [f] replaces
    the outcome of [m]. *)
Definition try_finally {A} (m : M A) (f : M unit) : M A :=
  fun w =>
    let '(r, w') := m w in
    let '(rf, w'') := f w' in
    match rf with
    | inl e => (inl e, w'')
    | inr _ => (r, w'')
    end.

Definition lift {A} (r : exn + A) : M A :=
  match r with
  | inl e => raise e
  | inr a => ret a
  end.

Definition outcome (o : option exn) : M unit :=
  match o with
  | Some e => raise e
  | None => ret tt
  end.

Definition emit (ev : event) : M unit :=
  fun w => (inr tt, set_trace w (trace w ++ [ev])).

(** [d[key]] on a configuration dictionary. *)
Definition getitem (d : gmap string string) (key : string) : M string :=
  match d !! key with
  | Some v => ret v
  | None => raise (KeyError key)
  end.

(** [l[:n]], Python's slice: a negative [n] counts from the end. *)
Definition slice_to {A} (l : list A) (n : Z) : list A :=
  if (0 <=? n)%Z then take (Z.to_nat n) l
  else take (Z.to_nat (Z.of_nat (length l) + n)) l.

(** Observations on a trace. *)
Definition count_event (ev : event) (t : list event) : nat :=
  length (filter (fun x => x = ev) t).

Definition got_url (ev : event) : option string :=
  match ev with
  | EvGet url => Some url
  | _ => None
  end.

Definition gets (t : list event) : list string := omap got_url t.

(** What a card contributes when all its fields are found. *)
Definition card_fields (c : card) : option (string * string * option string) :=
  match title_text c, primary_subtitle c, app_aware_link c with
  | inr n, inr p, inr u => Some (n, p, u)
  | _, _, _ => None
  end.

Definition well_formed (c : card) : Prop := is_Some (card_fields c).

Definition absent {A} (f : exn + A) : Prop := f = inl NoSuchElementException.

Definition found_or_absent {A} (f : exn + A) : Prop :=
  (exists a, f = inr a) \/ absent f.

(** A card that misses a required sub-element: every lookup either finds
    its element or raises [NoSuchElementException], and one of them does
    raise it. *)
Definition missing_field (c : card) : Prop :=
  (found_or_absent (title_text c) /\ found_or_absent (primary_subtitle c)
   /\ found_or_absent (app_aware_link c))
  /\ (absent (title_text c) \/ absent (primary_subtitle c)
      \/ absent (app_aware_link c)).

(** ** The record store: [SessionLocal], queries, commit

    The sessions are made with [autoflush=False]: a query is answered from
    the committed rows alone, objects added to the session reach the table
    only at [commit].  The pending objects of a session are threaded
    through the loops below as a list. *)
Section Store.
Variable E : env.

Definition now : M Z :=
  fun w => (inr (clock E (ticks w)), set_ticks w (S (ticks w))).

(** The filter of both lookups:
    [JobChange.name == n, JobChange.company == c, JobChange.profile_url == p].
    A NULL column equals no string; [== None] is rendered [IS NULL]. *)
Definition identity_filter (n c : string) (p : option string)
    (r : JobChange.t) : bool :=
  bool_decide (JobChange.name r = Some n)
  && bool_decide (JobChange.company r = Some c)
  && bool_decide (JobChange.profile_url r = p).

(** [db.query(JobChange).filter(...).first()]: no ordering is asked
    for, the first matching row in the store's scan order is returned. *)
Definition query_first (n c : string) (p : option string)
    : M (option JobChange.t) :=
  fun w =>
    let w' := set_db_ops w (S (db_ops w)) in
    match db_fault E (db_ops w) with
    | Some e => (inl e, w')
    | None => (inr (find (identity_filter n c p) (rows w)), w')
    end.

(** [db.commit()]: the pending rows are inserted in one transaction,
    or none is. *)
Definition commit (pending : list JobChange.t) : M unit :=
  fun w =>
    let w' := set_db_ops w (S (db_ops w)) in
    match db_fault E (db_ops w) with
    | Some e => (inl e, w')
    | None => (inr tt, set_rows w' (rows w ++ pending))
    end.

(** [db.rollback()] drops the pending objects, which live in the loop's
    accumulator only; [db.close()] returns the connection. *)
Definition rollback : M unit := ret tt.
Definition db_close : M unit := ret tt.

(** [JobChange(name=..., company=..., old_position=..., new_position=...,
    change_date=..., profile_url=...)]: [is_new] is not passed and takes
    the column default [True]. *)
Definition new_JobChange (change : Change.t) : JobChange.t :=
  JobChange.mk (Some (Change.name change)) (Some (Change.company change))
    (Change.old_position change) (Some (Change.new_position change))
    (Some (Change.change_date change)) (Change.profile_url change) true.

(** The [for change in changes] loop of [save_job_changes]. *)
Fixpoint save_loop (changes : list Change.t) (pending : list JobChange.t)
    : M (list JobChange.t) :=
  match changes with
  | [] => ret pending
  | change :: rest =>
      existing <- query_first (Change.name change) (Change.company change)
                    (Change.profile_url change) ;;
      match existing with
      | None => save_loop rest (pending ++ [new_JobChange change])
      | Some _ => save_loop rest pending
      end
  end.

(** [save_job_changes] of [app.py] and [.github/workflows/app.py] (the
    two texts are the same).  [run_scraper.py] has the same text, but not
    the class it names: its copy is [RunScraper.save_job_changes]. *)
Definition save_job_changes (changes : list Change.t) : M unit :=
  try_finally
    (try_except
       (pending <- save_loop changes [] ;; commit pending)
       (fun e => rollback ;;; raise e))
    db_close.

(** The [for employee in employees] loop of [process_changes]. *)
Fixpoint process_loop (employees : list Employee.t) (changes : list Change.t)
    : M (list Change.t) :=
  match employees with
  | [] => ret changes
  | employee :: rest =>
      existing <- query_first (Employee.name employee)
                    (Employee.company employee)
                    (Employee.profile_url employee) ;;
      match existing with
      | Some ex =>
          if bool_decide (JobChange.new_position ex
                          <> Some (Employee.position employee))
          then
            t <- now ;;
            process_loop rest
              (changes ++ [Change.mk (Employee.name employee)
                             (Employee.company employee)
                             (JobChange.new_position ex)
                             (Employee.position employee) t
                             (Employee.profile_url employee)])
          else process_loop rest changes
      | None =>
          t <- now ;;
          process_loop rest
            (changes ++ [Change.mk (Employee.name employee)
                           (Employee.company employee)
                           None
                           (Employee.position employee) t
                           (Employee.profile_url employee)])
      end
  end.

(** [process_changes] of [.github/workflows/app.py].  [run_scraper.py]
    has the same text, but not the class it names: its copy is
    [RunScraper.process_changes]. *)
Definition process_changes (employees : list Employee.t)
    : M (list Change.t) :=
  try_finally (process_loop employees []) db_close.
End Store.

(** ** [scraper.py]: class [LinkedInScraper] with its own limits *)
Module Scraper.
(** The attributes of the object that the crawl reads.  ([username],
    [password], [headless] and [scraping_delay] only reach the login
    form, the launch flags and [time.sleep].) *)
Record config : Type := Config {
  max_results : Z;
  max_scrolls : Z
}.

Section Scraper.
Variable E : env.
Variable cfg : config.

Definition setup_driver : M unit :=
  try_except
    (emit EvLaunch ;;;
     outcome (launch_outcome E) ;;;
     (fun w => (inr tt, set_driver w true)))
    (fun e => raise e).

Definition login : M unit :=
  try_except
    (emit EvLogin ;;; outcome (login_outcome E))
    (fun e => raise e).

(** The body of the [try] around one card. *)
Definition read_card (company_name : string) (c : card) : M Employee.t :=
  name <- lift (title_text c) ;;
  position <- lift (primary_subtitle c) ;;
  profile_url <- lift (app_aware_link c) ;;
  t <- now E ;;
  ret (Employee.mk name company_name position profile_url (Some t)).

(** [for card in employee_cards]: a card whose lookup raises
    [NoSuchElementException] is skipped, any other exception leaves
    the loop. *)
Fixpoint extract_cards (company_name : string) (employee_cards : list card)
    (employees : list Employee.t) : M (list Employee.t) :=
  match employee_cards with
  | [] => ret employees
  | c :: rest =>
      employees' <-
        try_except
          (e <- read_card company_name c ;; ret (employees ++ [e]))
          (fun ex =>
             match ex with
             | NoSuchElementException => ret employees
             | _ => raise ex
             end) ;;
      extract_cards company_name rest employees'
  end.

(** [while scroll_count < self.max_scrolls], with [remaining] the
    number of iterations the counter still allows; the loop is left
    early once [len(employees) >= self.max_results]. *)
Fixpoint scroll_loop (pg : page) (company_name : string) (remaining : nat)
    (scroll_count : nat) (employees : list Employee.t)
    : M (list Employee.t) :=
  match remaining with
  | 0 => ret employees
  | S remaining' =>
      emit EvScroll ;;;
      employee_cards <- lift (rendered pg scroll_count) ;;
      employees' <- extract_cards company_name employee_cards employees ;;
      if (max_results cfg <=? Z.of_nat (length employees'))%Z
      then ret employees'
      else scroll_loop pg company_name remaining' (S scroll_count) employees'
  end.

(** The [try] block of [scrape_company]. *)
Definition scrape_company_body (company_name company_url : string)
    : M (list Employee.t) :=
  let pg := site E company_url in
  emit (EvGet company_url) ;;;
  outcome (nav pg) ;;;
  emit EvPeopleTab ;;;
  outcome (people_tab pg) ;;;
  employees <- scroll_loop pg company_name (Z.to_nat (max_scrolls cfg)) 0 [] ;;
  ret (slice_to employees (max_results cfg)).

Definition scrape_company (company_name company_url : string)
    : M (list Employee.t) :=
  try_except (scrape_company_body company_name company_url)
    (fun _ => ret []).

(** [if self.driver: self.driver.quit()] *)
Definition close : M unit :=
  fun w =>
    if driver w then (emit EvQuit ;;; outcome (quit_outcome E)) w
    else (inr tt, w).

(** [for company in companies] of [scrape_multiple_companies].  The
    list [all_employees] is extended in place, so what was gathered
    before an exception is still there for the handler: the loop
    returns it together with the exception, if any. *)
Fixpoint companies_loop (companies : list (gmap string string))
    (all_employees : list Employee.t)
    : world -> (list Employee.t * option exn) * world :=
  match companies with
  | [] => fun w => ((all_employees, None), w)
  | company :: rest =>
      fun w =>
        let '(r, w') :=
          (company_name <- getitem company "name"%string ;;
           company_url <- getitem company "url"%string ;;
           scrape_company company_name company_url) w in
        match r with
        | inl e => ((all_employees, Some e), w')
        | inr employees =>
            companies_loop rest (all_employees ++ employees) w'
        end
  end.

(** Both the normal exit and the handler return [all_employees]. *)
Definition scrape_multiple_companies (companies : list (gmap string string))
    : M (list Employee.t) :=
  try_finally
    (fun w =>
       let '(r, w1) := (setup_driver ;;; login) w in
       match r with
       | inl _ => (inr [], w1)
       | inr _ =>
           let '((all_employees, _), w2) := companies_loop companies [] w1 in
           (inr all_employees, w2)
       end)
    close.
End Scraper.
End Scraper.

(** ** [run_scraper.py]: the batch script *)
Module RunScraper.
Section RunScraper.
Variable E : env.
(** Module-level configuration, read from the process environment. *)
Variable MAX_RESULTS_PER_COMPANY : Z.
Variable COMPANIES_TO_TRACK : list (gmap string string).

(** [LinkedInScraper()]: the constructor launches the browser. *)
Definition setup_driver : M unit :=
  emit EvLaunch ;;;
  outcome (launch_outcome E) ;;;
  (fun w => (inr tt, set_driver w true)).

Definition login : M unit :=
  try_except
    (emit EvLogin ;;; outcome (login_outcome E))
    (fun e => raise e).

Definition read_card (company_name : string) (c : card) : M Employee.t :=
  name <- lift (title_text c) ;;
  position <- lift (primary_subtitle c) ;;
  profile_url <- lift (app_aware_link c) ;;
  ret (Employee.mk name company_name position profile_url None).

Fixpoint extract_cards (company_name : string) (employee_cards : list card)
    (employees : list Employee.t) : M (list Employee.t) :=
  match employee_cards with
  | [] => ret employees
  | c :: rest =>
      employees' <-
        try_except
          (e <- read_card company_name c ;; ret (employees ++ [e]))
          (fun ex =>
             match ex with
             | NoSuchElementException => ret employees
             | _ => raise ex
             end) ;;
      extract_cards company_name rest employees'
  end.

Definition max_scrolls : nat := 5.

(** [while scroll_count < max_scrolls]: every iteration the counter
    allows is run, the number of employees is not looked at. *)
Fixpoint scroll_loop (pg : page) (company_name : string) (remaining : nat)
    (scroll_count : nat) (employees : list Employee.t)
    : M (list Employee.t) :=
  match remaining with
  | 0 => ret employees
  | S remaining' =>
      emit EvScroll ;;;
      employee_cards <- lift (rendered pg scroll_count) ;;
      employees' <- extract_cards company_name employee_cards employees ;;
      scroll_loop pg company_name remaining' (S scroll_count) employees'
  end.

Definition scrape_company_body (company_name company_url : string)
    : M (list Employee.t) :=
  let pg := site E company_url in
  emit (EvGet company_url) ;;;
  outcome (nav pg) ;;;
  emit EvPeopleTab ;;;
  outcome (people_tab pg) ;;;
  employees <- scroll_loop pg company_name max_scrolls 0 [] ;;
  ret (slice_to employees MAX_RESULTS_PER_COMPANY).

Definition scrape_company (company_name company_url : string)
    : M (list Employee.t) :=
  try_except (scrape_company_body company_name company_url)
    (fun _ => ret []).

Definition close : M unit :=
  fun w =>
    if driver w then (emit EvQuit ;;; outcome (quit_outcome E)) w
    else (inr tt, w).

(** [run_scraper.py] makes its own [SessionLocal], but it neither declares
    nor imports the class [JobChange] (it imports [create_engine] and
    [sessionmaker] only).  Python looks the name up among the globals of
    the module each time the expression [db.query(JobChange)] is
    evaluated, before the call is made, and the lookup raises
    [NameError]. *)
Definition JobChange_name : M unit := raise (NameError "JobChange").

(** The [for change in changes] loop of [save_job_changes]. *)
Fixpoint save_loop (changes : list Change.t) (pending : list JobChange.t)
    : M (list JobChange.t) :=
  match changes with
  | [] => ret pending
  | change :: rest =>
      JobChange_name ;;;
      existing <- query_first E (Change.name change) (Change.company change)
                    (Change.profile_url change) ;;
      match existing with
      | None => save_loop rest (pending ++ [new_JobChange change])
      | Some _ => save_loop rest pending
      end
  end.

Definition save_job_changes (changes : list Change.t) : M unit :=
  try_finally
    (try_except
       (pending <- save_loop changes [] ;; commit E pending)
       (fun e => rollback ;;; raise e))
    db_close.

(** The [for employee in employees] loop of [process_changes]. *)
Fixpoint process_loop (employees : list Employee.t) (changes : list Change.t)
    : M (list Change.t) :=
  match employees with
  | [] => ret changes
  | employee :: rest =>
      JobChange_name ;;;
      existing <- query_first E (Employee.name employee)
                    (Employee.company employee)
                    (Employee.profile_url employee) ;;
      match existing with
      | Some ex =>
          if bool_decide (JobChange.new_position ex
                          <> Some (Employee.position employee))
          then
            t <- now E ;;
            process_loop rest
              (changes ++ [Change.mk (Employee.name employee)
                             (Employee.company employee)
                             (JobChange.new_position ex)
                             (Employee.position employee) t
                             (Employee.profile_url employee)])
          else process_loop rest changes
      | None =>
          t <- now E ;;
          process_loop rest
            (changes ++ [Change.mk (Employee.name employee)
                           (Employee.company employee)
                           None
                           (Employee.position employee) t
                           (Employee.profile_url employee)])
      end
  end.

Definition process_changes (employees : list Employee.t)
    : M (list Change.t) :=
  try_finally (process_loop employees []) db_close.

(** [for company in COMPANIES_TO_TRACK] of [main]. *)
Fixpoint main_loop (companies : list (gmap string string))
    (total_changes : nat) : M nat :=
  match companies with
  | [] => ret total_changes
  | company :: rest =>
      company_name <- getitem company "name"%string ;;
      company_url <- getitem company "url"%string ;;
      employees <- scrape_company company_name company_url ;;
      changes <- process_changes employees ;;
      match changes with
      | [] => main_loop rest total_changes
      | _ :: _ =>
          save_job_changes changes ;;;
          main_loop rest (total_changes + length changes)
      end
  end.

Definition main : M unit :=
  match COMPANIES_TO_TRACK with
  | [] => ret tt
  | _ :: _ =>
      setup_driver ;;;
      try_finally
        (try_except
           (login ;;;
            total_changes <- main_loop COMPANIES_TO_TRACK 0 ;;
            emit (EvSummary total_changes))
           (fun _ => ret tt))
        close
  end.
End RunScraper.
End RunScraper.

(** ** [.github/workflows/app.py]: the dashboard's scrape page

    Its [LinkedInScraper] has the text of that of [run_scraper.py]; its
    [process_changes] and [save_job_changes] are the ones above, with the
    class [JobChange] declared in the file. *)
Module WorkflowsApp.
Section WorkflowsApp.
Variable E : env.
Variable MAX_RESULTS_PER_COMPANY : Z.
Variable COMPANIES_TO_TRACK : list (gmap string string).

(** [for i, company in enumerate(COMPANIES_TO_TRACK)] *)
Fixpoint scrape_loop (companies : list (gmap string string)) : M unit :=
  match companies with
  | [] => ret tt
  | company :: rest =>
      company_name <- getitem company "name"%string ;;
      company_url <- getitem company "url"%string ;;
      employees <-
        RunScraper.scrape_company E MAX_RESULTS_PER_COMPANY
          company_name company_url ;;
      changes <- process_changes E employees ;;
      save_job_changes E changes ;;;
      scrape_loop rest
  end.

(** The [try] block that runs once the Start Scraping button is pressed. *)
Definition show_scrape_page_body : M unit :=
  RunScraper.setup_driver E ;;;
  RunScraper.login E ;;;
  scrape_loop COMPANIES_TO_TRACK ;;;
  RunScraper.close E.

Definition show_scrape_page : M unit :=
  try_except show_scrape_page_body (fun _ => ret tt).
End WorkflowsApp.
End WorkflowsApp.

(** ** Notions used in the statements *)

(** The row that the lookup of [process_changes] finds for an employee. *)
Definition prior (rs : list JobChange.t) (employee : Employee.t)
    : option JobChange.t :=
  find (identity_filter (Employee.name employee) (Employee.company employee)
          (Employee.profile_url employee)) rs.

(** The row that the lookup of [save_job_changes] finds for a change. *)
Definition existing_for (rs : list JobChange.t) (change : Change.t)
    : option JobChange.t :=
  find (identity_filter (Change.name change) (Change.company change)
          (Change.profile_url change)) rs.

(** The rows that [save_job_changes] hands to [commit]. *)
Definition to_insert (rs : list JobChange.t) (changes : list Change.t)
    : list JobChange.t :=
  new_JobChange <$> filter (fun c => existing_for rs c = None) changes.

(** No prior row, or a prior row with another role. *)
Definition new_or_changed (rs : list JobChange.t) (employee : Employee.t)
    : Prop :=
  match prior rs employee with
  | None => True
  | Some ex => JobChange.new_position ex <> Some (Employee.position employee)
  end.

#[global] Instance new_or_changed_dec rs employee :
  Decision (new_or_changed rs employee).
Proof. unfold new_or_changed. destruct (prior rs employee); apply _. Defined.

(** The event that belongs to an employee, up to its time stamp. *)
Definition event_of (rs : list JobChange.t) (employee : Employee.t)
    (change : Change.t) : Prop :=
  Change.name change = Employee.name employee
  /\ Change.company change = Employee.company employee
  /\ Change.profile_url change = Employee.profile_url employee
  /\ Change.new_position change = Employee.position employee
  /\ Change.old_position change
     = match prior rs employee with
       | Some ex => JobChange.new_position ex
       | None => None
       end.

Definition db_ok (E : env) : Prop := forall k, db_fault E k = None.

(** The identity of a record in the words of the claims: name,
    organization and profile identifier.  It is written on the columns
    of a row, without the filter of the code, and the statements about
    the change detector compare the code with it. *)
Definition same_identity (r : JobChange.t) (employee : Employee.t) : Prop :=
  JobChange.name r = Some (Employee.name employee)
  /\ JobChange.company r = Some (Employee.company employee)
  /\ JobChange.profile_url r = Employee.profile_url employee.

#[global] Instance same_identity_dec r employee :
  Decision (same_identity r employee).
Proof. unfold same_identity. apply _. Defined.

(** The stored rows of the identity of a record, in the order of the
    table, and the first of them. *)
Definition stored_for (rs : list JobChange.t) (employee : Employee.t)
    : list JobChange.t :=
  filter (fun r => same_identity r employee) rs.

Definition first_stored (rs : list JobChange.t) (employee : Employee.t)
    : option JobChange.t :=
  head (stored_for rs employee).

(** A latest stored row of an identity: a row of the identity that is
    dated, and no dated row of the identity is dated after it. *)
Definition latest_stored (rs : list JobChange.t) (employee : Employee.t)
    (r : JobChange.t) : Prop :=
  r ∈ stored_for rs employee
  /\ exists d,
       JobChange.change_date r = Some d
       /\ forall x dx,
            x ∈ stored_for rs employee ->
            JobChange.change_date x = Some dx -> (dx <= d)%Z.

(** No row is stored for the identity, or the first stored row of the
    identity holds another role than the observed one. *)
Definition unseen_or_role_differs (rs : list JobChange.t)
    (employee : Employee.t) : Prop :=
  match first_stored rs employee with
  | None => True
  | Some r => JobChange.new_position r <> Some (Employee.position employee)
  end.

#[global] Instance unseen_or_role_differs_dec rs employee :
  Decision (unseen_or_role_differs rs employee).
Proof.
  unfold unseen_or_role_differs. destruct (first_stored rs employee); apply _.
Defined.

(** The event that reports a record, up to its time stamp: the identity
    and the role of the record, and as old role that of the first stored
    row of the identity, if there is one. *)
Definition reports (rs : list JobChange.t) (employee : Employee.t)
    (change : Change.t) : Prop :=
  Change.name change = Employee.name employee
  /\ Change.company change = Employee.company employee
  /\ Change.profile_url change = Employee.profile_url employee
  /\ Change.new_position change = Employee.position employee
  /\ Change.old_position change
     = match first_stored rs employee with
       | Some r => JobChange.new_position r
       | None => None
       end.

(** The outcome of the three lookups of a card, in the order the code
    makes them: the fields, or the first exception. *)
Definition card_outcome (c : card) : exn + (string * string * option string) :=
  match title_text c with
  | inl e => inl e
  | inr n =>
      match primary_subtitle c with
      | inl e => inl e
      | inr p =>
          match app_aware_link c with
          | inl e => inl e
          | inr u => inr (n, p, u)
          end
      end
  end.

(** Cards that the extraction loop can take without leaving. *)
Definition readable (c : card) : Prop := well_formed c \/ missing_field c.

(** What the k-th scroll of a page shows, and what it contributes. *)
Definition step_cards (pg : page) (k : nat) : list card :=
  match rendered pg k with
  | inr cards => cards
  | inl _ => []
  end.

Definition step_fields (pg : page) (k : nat)
    : list (string * string * option string) :=
  omap card_fields (step_cards pg k).

(** A page on which the first [n] scrolls of a crawl meet no exception
    other than absent sub-elements of cards. *)
Definition calm (pg : page) (n : nat) : Prop :=
  nav pg = None /\ people_tab pg = None
  /\ forall k, k < n ->
       exists cards, rendered pg k = inr cards /\ Forall readable cards.

(** The commands of a crawl after the navigation. *)
Definition crawl_event (ev : event) : Prop := ev = EvPeopleTab \/ ev = EvScroll.

(** A configuration entry with both keys. *)
Definition has_name_and_url (company : gmap string string) : Prop :=
  is_Some (company !! "name"%string) /\ is_Some (company !! "url"%string).

Definition urls (companies : list (gmap string string)) : list string :=
  omap (fun company => company !! "url"%string) companies.

(** A step that neither quits nor touches the driver attribute. *)
Definition keeps_session {A} (m : M A) : Prop :=
  forall w,
    driver (snd (m w)) = driver w
    /\ count_event EvQuit (trace (snd (m w))) = count_event EvQuit (trace w).

(** ** Sample data *)

Definition no_page : page := Page None None (fun _ => inr []).

Definition quiet_env : env :=
  Env None None None (fun _ => no_page) (fun _ => None) Z.of_nat.

Definition fresh_world (rs : list JobChange.t) : world :=
  World rs 0 0 false [].

Definition alice (role : string) : Employee.t :=
  Employee.mk "Alice" "OrgX" role (Some "https://example.org/in/P1"%string) None.

Definition alice_row (old : option string) (role : string) (date : Z)
    : JobChange.t :=
  JobChange.mk (Some "Alice"%string) (Some "OrgX"%string) old (Some role)
    (Some date) (Some "https://example.org/in/P1"%string) true.

Definition alice_change (old : option string) (role : string) (date : Z)
    : Change.t :=
  Change.mk "Alice" "OrgX" old role date
    (Some "https://example.org/in/P1"%string).

Definition card_of (n role : string) (href : string) : card :=
  Card (inr n) (inr role) (inr (Some href)).

(** Rows of two other people, and the record of one of them. *)
Definition bob_row : JobChange.t :=
  JobChange.mk (Some "Bob"%string) (Some "OrgX"%string) None
    (Some "Analyst"%string) (Some 3%Z)
    (Some "https://example.org/in/P2"%string) true.

Definition alice_elsewhere_row : JobChange.t :=
  JobChange.mk (Some "Alice"%string) (Some "OrgY"%string) None
    (Some "Senior Engineer"%string) (Some 4%Z)
    (Some "https://example.org/in/P1"%string) true.

Definition carol : Employee.t :=
  Employee.mk "Carol" "OrgX" "Designer"
    (Some "https://example.org/in/P3"%string) None.

Definition bob_card : card :=
  card_of "Bob" "Analyst" "https://example.org/in/P2".

Definition carol_card : card :=
  card_of "Carol" "Designer" "https://example.org/in/P3".

(** A card whose subtitle element is not there. *)
Definition torn_card : card :=
  Card (inr "Dan"%string) (inl NoSuchElementException)
    (inr (Some "https://example.org/in/P4"%string)).

(** A page that shows the one card of Bob after every scroll. *)
Definition bob_page : page := Page None None (fun _ => inr [bob_card]).

Definition bob_env : env :=
  Env None None None (fun _ => bob_page) (fun _ => None) Z.of_nat.

Definition orgx_url : string := "https://example.org/company/orgx".

(** Three organizations; the page of the second one does not load. *)
Definition company_entry (n url : string) : gmap string string :=
  <["name"%string := n]> (<["url"%string := url]> ∅).

Definition three_companies : list (gmap string string) :=
  [company_entry "OrgA" "https://example.org/company/a";
   company_entry "OrgB" "https://example.org/company/b";
   company_entry "OrgC" "https://example.org/company/c"].

(** The same three, the one whose page does not load first. *)
Definition b_first_companies : list (gmap string string) :=
  [company_entry "OrgB" "https://example.org/company/b";
   company_entry "OrgA" "https://example.org/company/a";
   company_entry "OrgC" "https://example.org/company/c"].

Definition broken_page : page :=
  Page (Some TimeoutException) None (fun _ => inr []).

Definition three_sites (url : string) : page :=
  if bool_decide (url = "https://example.org/company/b"%string)
  then broken_page else bob_page.

Definition three_env : env :=
  Env None None None three_sites (fun _ => None) Z.of_nat.

(** A site on which the login is refused, and one whose browser does not
    shut down cleanly. *)
Definition refused_env : env :=
  Env None (Some LoginFailed) None (fun _ => bob_page) (fun _ => None) Z.of_nat.

Definition stuck_env : env :=
  Env None None (Some WebDriverException) (fun _ => bob_page) (fun _ => None)
    Z.of_nat.

(** What the release of the session adds to the count of [EvQuit]. *)
Definition released (E : env) : nat :=
  match launch_outcome E with
  | None => 1
  | Some _ => 0
  end.

(** The number of records that the first [j] scrolls of a page give. *)
Definition shown_after (pg : page) (j : nat) : nat :=
  length (concat (step_fields pg <$> seq 0 j)).


(** ** The tables behind the dashboard and the API

    The functions below open a session, run one query or one insert, and
    close.  They are modelled as functions of the table they work on: the
    table is the list of its rows in the order the store scans them, and
    the result is what the function returns when the store answers, or
    the error it raises. *)

Inductive api_error : Type :=
| IntegrityError   (* a unique or primary key constraint refuses the insert *)
| HTTP_404         (* HTTPException(status_code=404) *)
| HTTP_422         (* a Query(...) bound of the signature is violated *)
| HTTP_500.        (* an exception that the route does not handle *)

(** The rows of the [companies] table (class [Company]).  [name] carries
    a unique constraint; [created_at] and [updated_at] are left out. *)
Module Company.
Record t : Type := mk {
  id : Z;
  name : option string;
  linkedin_url : option string;
  is_active : bool
}.
Definition deactivated (c : t) : t :=
  mk (id c) (name c) (linkedin_url c) false.
End Company.

(** The non-null names of a table; the unique constraint says that this
    list has no duplicates. *)
Definition company_names (table : list Company.t) : list string :=
  omap Company.name table.

Definition unique_names (table : list Company.t) : Prop :=
  NoDup (company_names table).

(** [db.add(Company(name=..., linkedin_url=...)); db.commit()]: [is_active]
    takes its default [True]; [new_id] is the key that the store assigns.
    The insert is refused when the key or the name is taken. *)
Definition insert_company (new_id : Z) (name url : string)
    (table : list Company.t) : api_error + list Company.t :=
  if bool_decide (new_id ∈ (Company.id <$> table))
     || bool_decide (name ∈ company_names table)
  then inl IntegrityError
  else inr (table ++ [Company.mk new_id (Some name) (Some url) true]).

(** [company = query.first(); company.is_active = False; db.commit()] on
    the first row that passes the filter. *)
Fixpoint deactivate_first (p : Company.t -> bool) (table : list Company.t)
    : list Company.t :=
  match table with
  | [] => []
  | c :: rest =>
      if p c then Company.deactivated c :: rest
      else c :: deactivate_first p rest
  end.

(** The company functions of [.github/workflows/app.py]. *)
Module WorkflowsCompanies.
(** [[company[0] for company in
      db.query(Company.name).filter(Company.is_active == True).all()]] *)
Definition get_companies (table : list Company.t) : list (option string) :=
  Company.name <$> filter (fun c => Company.is_active c = true) table.

(** No handler: a refused insert is raised to the caller. *)
Definition add_company (new_id : Z) (name url : string)
    (table : list Company.t) : (api_error + unit) * list Company.t :=
  match insert_company new_id name url table with
  | inl e => (inl e, table)
  | inr table' => (inr tt, table')
  end.

(** [filter(Company.name == name).first()], then the soft delete when a
    row was found. *)
Definition remove_company (name : string) (table : list Company.t)
    : list Company.t :=
  deactivate_first (fun c => bool_decide (Company.name c = Some name)) table.

(** [JobChange.company.in_(companies)] and
    [JobChange.change_date.between(start_date, end_date)]; a NULL column
    passes neither. *)
Definition company_in (companies : list string) (r : JobChange.t) : bool :=
  match JobChange.company r with
  | Some c => bool_decide (c ∈ companies)
  | None => false
  end.

Definition dated_between (start_date end_date : Z) (r : JobChange.t) : bool :=
  match JobChange.change_date r with
  | Some d => (start_date <=? d)%Z && (d <=? end_date)%Z
  | None => false
  end.

Definition load_job_changes (start_date end_date : Z) (companies : list string)
    (table : list JobChange.t) : list JobChange.t :=
  filter (fun r => company_in companies r && dated_between start_date end_date r)
    table.
End WorkflowsCompanies.

(** ** [.github/workflows/backend/main.py]: the routes of the API

    The file declares the mapped classes [JobChange] and [Company] and,
    further down, Pydantic models of the same two names.  A route looks
    a class up by its name when it runs, after the whole file has been
    executed, so what it finds is decided by the class statements of the
    file in their order. *)
Module Backend.
Inductive py_class : Type :=
| Mapped (tablename : string)      (* a subclass of [Base], with its table *)
| Model (required : list string).  (* a Pydantic model, with the fields
                                      that have no default *)

Definition JobChangeBase_required : list string :=
  ["name"; "company"; "new_position"; "change_date"; "profile_url"]%string.

Definition CompanyBase_required : list string :=
  ["name"; "linkedin_url"]%string.

(** The class statements of the file, in the order of the file. *)
Definition class_statements : list (string * py_class) :=
  [("JobChange", Mapped "job_changes");
   ("Company", Mapped "companies");
   ("JobChangeBase", Model JobChangeBase_required);
   ("JobChangeCreate", Model JobChangeBase_required);
   ("JobChange",
    Model (JobChangeBase_required
           ++ ["id"; "is_new"; "created_at"; "updated_at"]));
   ("CompanyBase", Model CompanyBase_required);
   ("CompanyCreate", Model CompanyBase_required);
   ("Company",
    Model (CompanyBase_required
           ++ ["id"; "is_active"; "created_at"; "updated_at"]))]%string.

(** Executing a class statement binds the name, over any earlier binding
    of it. *)
Definition globals : gmap string py_class :=
  foldl (fun g b => <[fst b := snd b]> g) ∅ class_statements.

(** [db.query(cls)]: a query is built on a mapped class; any other class
    is refused with an exception, and so is a name that is not bound.
    No route has a handler for it. *)
Definition query {A} (cls : option py_class) (table : list A)
    : api_error + list A :=
  match cls with
  | Some (Mapped _) => inr table
  | Some (Model _) => inl HTTP_500
  | None => inl HTTP_500
  end.

(** The call of a class with the entries of a dictionary as keyword
    arguments: a Pydantic model refuses keyword arguments that lack one
    of its required fields. *)
Definition construct (cls : option py_class) (fields : list string)
    : api_error + unit :=
  match cls with
  | Some (Mapped _) => inr tt
  | Some (Model required) =>
      if forallb (fun f => bool_decide (f ∈ fields)) required then inr tt
      else inl HTTP_500
  | None => inl HTTP_500
  end.

(** [skip: int = Query(0, ge=0)], [limit: int = Query(100, ge=1, le=100)]:
    checked before the body of the route runs. *)
Definition bounds_ok (skip limit : Z) : bool :=
  (0 <=? skip)%Z && (1 <=? limit)%Z && (limit <=? 100)%Z.

(** [query.offset(skip).limit(limit).all()] *)
Definition page_of {A} (skip limit : Z) (query : list A) : list A :=
  take (Z.to_nat limit) (drop (Z.to_nat skip) query).

(** [if company:] holds for a string that is given and not empty. *)
Definition given (company : option string) : bool :=
  match company with
  | Some c => negb (String.eqb c "")
  | None => false
  end.

(** [JobChange.company == company], [JobChange.change_date >= start_date]
    and [JobChange.change_date <= end_date]; a NULL column passes none. *)
Definition company_is (c : string) (r : JobChange.t) : bool :=
  bool_decide (JobChange.company r = Some c).

Definition not_before (start_date : Z) (r : JobChange.t) : bool :=
  match JobChange.change_date r with
  | Some d => (start_date <=? d)%Z
  | None => false
  end.

Definition not_after (end_date : Z) (r : JobChange.t) : bool :=
  match JobChange.change_date r with
  | Some d => (d <=? end_date)%Z
  | None => false
  end.

(** The filters that [get_job_changes] and [get_stats] add to a query:
    each is added only when its parameter is given. *)
Definition filtered (company : option string) (start_date end_date : option Z)
    (query : list JobChange.t) : list JobChange.t :=
  let query :=
    match company with
    | Some c => if given company then filter (company_is c) query else query
    | None => query
    end in
  let query :=
    match start_date with
    | Some s => filter (not_before s) query
    | None => query
    end in
  match end_date with
  | Some e => filter (not_after e) query
  | None => query
  end.

Definition get_job_changes (skip limit : Z) (company : option string)
    (start_date end_date : option Z) (table : list JobChange.t)
    : api_error + list JobChange.t :=
  if bounds_ok skip limit then
    match query (globals !! "JobChange"%string) table with
    | inl e => inl e
    | inr query =>
        inr (page_of skip limit (filtered company start_date end_date query))
    end
  else inl HTTP_422.

(** The body of a POST to [/job-changes/]: [old_position] is optional. *)
Record JobChangeCreate : Type := {
  jc_name : string;
  jc_company : string;
  jc_old_position : option string;
  jc_new_position : string;
  jc_change_date : Z;
  jc_profile_url : string
}.

(** The keys of [job_change.dict()] and of [company.dict()]. *)
Definition JobChangeCreate_keys : list string :=
  ["name"; "company"; "old_position"; "new_position"; "change_date";
   "profile_url"]%string.

Definition CompanyCreate_keys : list string :=
  ["name"; "linkedin_url"]%string.

Definition row_of (job_change : JobChangeCreate) : JobChange.t :=
  JobChange.mk (Some (jc_name job_change)) (Some (jc_company job_change))
    (jc_old_position job_change) (Some (jc_new_position job_change))
    (Some (jc_change_date job_change)) (Some (jc_profile_url job_change))
    true.

(** [db_job_change] is [JobChange] called with the entries of
    [job_change.dict()], then come [db.add] and [db.commit]. *)
Definition create_job_change (job_change : JobChangeCreate)
    (table : list JobChange.t)
    : (api_error + JobChange.t) * list JobChange.t :=
  match construct (globals !! "JobChange"%string) JobChangeCreate_keys with
  | inl e => (inl e, table)
  | inr _ => (inr (row_of job_change), table ++ [row_of job_change])
  end.

Record stats : Type := {
  total_changes : nat;
  unique_people : nat;
  unique_companies : nat
}.

(** [query.count()] and
    [query.with_entities(column).distinct().count()]. *)
Definition get_stats (company : option string) (start_date end_date : option Z)
    (table : list JobChange.t) : api_error + stats :=
  match query (globals !! "JobChange"%string) table with
  | inl e => inl e
  | inr query =>
      let query := filtered company start_date end_date query in
      inr {| total_changes := length query;
             unique_people := length (remove_dups (JobChange.name <$> query));
             unique_companies :=
               length (remove_dups (JobChange.company <$> query)) |}
  end.

Definition get_companies (skip limit : Z) (active_only : bool)
    (table : list Company.t) : api_error + list Company.t :=
  if bounds_ok skip limit then
    match query (globals !! "Company"%string) table with
    | inl e => inl e
    | inr query =>
        inr (page_of skip limit
               (if active_only
                then filter (fun c => Company.is_active c = true) query
                else query))
    end
  else inl HTTP_422.

(** [db_company] is [Company] called with the entries of
    [company.dict()], then come [db.add] and [db.commit]; [new_id] is the
    key that the store would assign. *)
Definition create_company (new_id : Z) (name linkedin_url : string)
    (table : list Company.t) : (api_error + Company.t) * list Company.t :=
  match construct (globals !! "Company"%string) CompanyCreate_keys with
  | inl e => (inl e, table)
  | inr _ =>
      match insert_company new_id name linkedin_url table with
      | inl e => (inl e, table)
      | inr table' =>
          (inr (Company.mk new_id (Some name) (Some linkedin_url) true),
           table')
      end
  end.

Definition has_id (company_id : Z) (c : Company.t) : bool :=
  bool_decide (Company.id c = company_id).

Definition deactivate_company (company_id : Z) (table : list Company.t)
    : (api_error + unit) * list Company.t :=
  match query (globals !! "Company"%string) table with
  | inl e => (inl e, table)
  | inr query =>
      match find (has_id company_id) query with
      | None => (inl HTTP_404, table)
      | Some _ => (inr tt, deactivate_first (has_id company_id) table)
      end
  end.

Definition get_company_changes (company_id skip limit : Z)
    (start_date end_date : option Z) (companies : list Company.t)
    (table : list JobChange.t) : api_error + list JobChange.t :=
  if bounds_ok skip limit then
    match query (globals !! "Company"%string) companies with
    | inl e => inl e
    | inr found =>
        match find (has_id company_id) found with
        | None => inl HTTP_404
        | Some company =>
            match query (globals !! "JobChange"%string) table with
            | inl e => inl e
            | inr query =>
                inr (page_of skip limit
                       (filtered None start_date end_date
                          (filter (fun r => JobChange.company r
                                            = Company.name company) query)))
            end
        end
    end
  else inl HTTP_422.
End Backend.

(** The primary key says that no two rows have the same id. *)
Definition unique_ids (table : list Company.t) : Prop :=
  NoDup (Company.id <$> table).

(** Two companies, as the example of [scraper.py] names them. *)
Definition two_companies : list Company.t :=
  [Company.mk 1 (Some "TCS"%string)
     (Some "https://www.linkedin.com/company/tata-consultancy-services"%string)
     true;
   Company.mk 2 (Some "Infosys"%string)
     (Some "https://www.linkedin.com/company/infosys"%string) true].

(** ** [install_dependencies.py]: the installer

    The installer starts subprocesses, asks whether paths exist, makes
    directories and writes one file.  What the machine answers is read
    from a [host]; what the script does is recorded, in order, as a list
    of actions, and the answer to an action may depend on how many
    actions came before it. *)
Module Installer.
(** What [subprocess.run] meets: the program runs and exits with a
    status, its executable is not found, or the executable is there and
    the operating system does not start it (it is not executable, for
    one). *)
Inductive proc_result : Type :=
| Exited (returncode : Z)
| NoSuchFile               (* FileNotFoundError *)
| NotStarted.              (* PermissionError, or another OSError *)

(** [PermissionError] stands for every [OSError] with which a program
    fails to start, [FileNotFoundError] apart; [OSError] is that of a
    directory or file operation. *)
Inductive failure : Type :=
| CalledProcessError
| FileNotFoundError
| PermissionError
| OSError
| SystemExit (code : Z).

Inductive action : Type :=
| Run (cmd : list string)      (* subprocess.run(cmd, check=True) *)
| Mkdir (directory : string)   (* Path(directory).mkdir(parents=True, exist_ok=True) *)
| WriteText (path : string).   (* Path(path).write_text(...) *)

Record host : Type := Host {
  system : string;                          (* platform.system() *)
  version_info : Z * Z;                     (* sys.version_info[:2] *)
  executable : string;                      (* sys.executable *)
  path_exists : string -> bool;             (* Path(p).exists() *)
  proc : nat -> list string -> proc_result; (* the subprocess started as n-th action *)
  fs_ok : nat -> bool                       (* the mkdir or write made as n-th action succeeds *)
}.

Definition I (A : Type) : Type := list action -> (failure + A) * list action.

Definition iret {A} (a : A) : I A := fun acts => (inr a, acts).

Definition ibind {A B} (m : I A) (k : A -> I B) : I B :=
  fun acts =>
    let '(r, acts') := m acts in
    match r with
    | inl e => (inl e, acts')
    | inr a => k a acts'
    end.

Definition icatch {A} (m : I A) (h : failure -> I A) : I A :=
  fun acts =>
    let '(r, acts') := m acts in
    match r with
    | inl e => h e acts'
    | inr a => (inr a, acts')
    end.

Definition PYTHON_DEPENDENCIES : list string :=
  ["fastapi==0.104.1"; "uvicorn==0.24.0"; "sqlalchemy==2.0.23";
   "psycopg2-binary==2.9.9"; "python-dotenv==1.0.0"; "selenium==4.15.2";
   "pandas==2.1.3"; "streamlit==1.29.0"; "plotly==5.18.0";
   "requests==2.31.0"; "beautifulsoup4==4.12.2";
   "webdriver-manager==4.0.1"; "pytest==7.4.3"; "black==23.11.0";
   "flake8==6.1.0"; "mypy==1.7.1"; "python-jose==3.3.0"; "passlib==1.7.4";
   "python-multipart==0.0.6"; "email-validator==2.1.0.post1";
   "aiofiles==23.2.1"; "jinja2==3.1.2"; "markdown==3.5.1"; "pyyaml==6.0.1";
   "python-dateutil==2.8.2"; "pytz==2023.3.post1"; "tenacity==8.2.3";
   "tqdm==4.66.1"; "rich==13.7.0"; "click==8.1.7"; "itsdangerous==2.1.2";
   "Werkzeug==3.0.1"; "watchdog==3.0.0"; "protobuf==4.25.1";
   "typing-extensions==4.8.0"; "zipp==3.17.0"; "importlib-metadata==6.1.0";
   "packaging==23.2"; "certifi==2023.11.17"; "charset-normalizer==3.3.2";
   "idna==3.6"; "urllib3==2.1.0"; "colorama==0.4.6"; "h11==0.14.0";
   "starlette==0.27.0"; "anyio==4.2.0"; "sniffio==1.3.0";
   "httpcore==1.0.2"; "httpx==0.25.2"; "rfc3986==2.0.0";
   "multidict==6.0.4"; "async-timeout==4.0.3"; "frozenlist==1.4.0";
   "aiosignal==1.3.1"; "attrs==23.2.0"; "yarl==1.9.4"; "markupsafe==2.1.3";
   "Jinja2==3.1.2"; "altair==5.2.0"; "toolz==0.12.1"; "six==1.16.0";
   "numpy==1.26.2"; "pytz==2023.3.post1"; "tzdata==2023.3";
   "pandas-stubs==2.1.4.231228"; "types-python-dateutil==2.8.19.14";
   "types-requests==2.31.0.20240106"; "types-urllib3==1.26.25.14";
   "types-setuptools==68.2.0.0"; "types-jsonschema==4.20.0.0";
   "types-psutil==5.9.5.20240106"; "types-pytz==2023.3.0.20240106";
   "types-PyYAML==6.0.12.12"; "types-redis==4.6.0.20240106";
   "types-urllib3==1.26.25.14"; "types-requests==2.31.0.20240106";
   "types-setuptools==68.2.0.0"; "types-jsonschema==4.20.0.0";
   "types-psutil==5.9.5.20240106"; "types-pytz==2023.3.0.20240106";
   "types-PyYAML==6.0.12.12"; "types-redis==4.6.0.20240106"]%string.

Definition supported_systems : list string :=
  ["Windows"; "Darwin"; "Linux"]%string.

(** [CHROME_DRIVER_VERSIONS.get(system)]: the three systems have the same
    version. *)
Definition chrome_driver_version (sys : string) : option string :=
  if bool_decide (sys ∈ supported_systems) then Some "114.0.5735.90"%string
  else None.

Definition directories : list string :=
  ["backend"; "frontend"; "tests"; "data"; "logs"; ".streamlit";
   ".github/workflows"]%string.

Section Installer.
Variable h : host.

(** [subprocess.run(cmd, check=True)] *)
Definition run (cmd : list string) : I unit :=
  fun acts =>
    let acts' := acts ++ [Run cmd] in
    match proc h (length acts) cmd with
    | Exited code =>
        if (code =? 0)%Z then (inr tt, acts')
        else (inl CalledProcessError, acts')
    | NoSuchFile => (inl FileNotFoundError, acts')
    | NotStarted => (inl PermissionError, acts')
    end.

Definition mkdir (directory : string) : I unit :=
  fun acts =>
    let acts' := acts ++ [Mkdir directory] in
    if fs_ok h (length acts) then (inr tt, acts') else (inl OSError, acts').

Definition write_text (path : string) : I unit :=
  fun acts =>
    let acts' := acts ++ [WriteText path] in
    if fs_ok h (length acts) then (inr tt, acts') else (inl OSError, acts').

(** [current_version < required_version] on pairs of integers. *)
Definition tuple_lt (x y : Z * Z) : bool :=
  (fst x <? fst y)%Z || ((fst x =? fst y)%Z && (snd x <? snd y)%Z).

Definition check_python_version : bool :=
  if tuple_lt (version_info h) (3, 8)%Z then false else true.

(** [except subprocess.CalledProcessError: return False] *)
Definition except_called_process_error (m : I bool) : I bool :=
  icatch m (fun e =>
              match e with
              | CalledProcessError => iret false
              | _ => fun acts => (inl e, acts)
              end).

Definition create_virtual_environment : I bool :=
  except_called_process_error
    (ibind (if path_exists h "venv" then iret tt
            else run [executable h; "-m"; "venv"; "venv"]%string)
       (fun _ => iret true)).

Definition get_pip_command : list string :=
  if bool_decide (system h = "Windows"%string)
  then ["venv\Scripts\pip"%string]
  else ["venv/bin/pip"%string].

(** [for dep in PYTHON_DEPENDENCIES] *)
Fixpoint install_each (pip_cmd : list string) (deps : list string) : I unit :=
  match deps with
  | [] => iret tt
  | dep :: rest =>
      ibind (run (pip_cmd ++ ["install"%string; dep]))
        (fun _ => install_each pip_cmd rest)
  end.

Definition install_python_dependencies : I bool :=
  except_called_process_error
    (let pip_cmd := get_pip_command in
     ibind (run (pip_cmd ++ ["install"; "--upgrade"; "pip"]%string))
       (fun _ =>
          ibind (install_each pip_cmd PYTHON_DEPENDENCIES)
            (fun _ => iret true))).

(** Both [CalledProcessError] and [FileNotFoundError] have a handler. *)
Definition setup_database : I bool :=
  icatch
    (ibind (if bool_decide (system h = "Windows"%string)
            then run ["psql"; "--version"]%string
            else run ["which"; "psql"]%string)
       (fun _ =>
          ibind (run ["psql"; "-U"; "postgres"; "-f"; "init_db.sql"]%string)
            (fun _ => iret true)))
    (fun e =>
       match e with
       | CalledProcessError => iret false
       | FileNotFoundError => iret false
       | _ => fun acts => (inl e, acts)
       end).

Definition setup_chrome_driver : I bool :=
  except_called_process_error
    (match chrome_driver_version (system h) with
     | None => iret false
     | Some version =>
         ibind (run ["webdriver-manager"; "update"; "--driver"; "chrome";
                     "--version"; version]%string)
           (fun _ => iret true)
     end).

Fixpoint mkdir_each (dirs : list string) : I unit :=
  match dirs with
  | [] => iret tt
  | d :: rest => ibind (mkdir d) (fun _ => mkdir_each rest)
  end.

(** [except Exception: return False] *)
Definition create_project_structure : I bool :=
  icatch (ibind (mkdir_each directories) (fun _ => iret true))
    (fun _ => iret false).

Definition create_env_file : I bool :=
  icatch
    (ibind (if path_exists h ".env" then iret tt else write_text ".env")
       (fun _ => iret true))
    (fun _ => iret false).

(** [if not step(): sys.exit(1)] *)
Definition or_exit (step : I bool) : I unit :=
  ibind step (fun ok =>
                if ok then iret tt else fun acts => (inl (SystemExit 1), acts)).

Definition main : I unit :=
  ibind (or_exit (iret check_python_version)) (fun _ =>
  ibind (or_exit create_virtual_environment) (fun _ =>
  ibind (or_exit install_python_dependencies) (fun _ =>
  ibind (or_exit setup_database) (fun _ =>
  ibind (or_exit setup_chrome_driver) (fun _ =>
  ibind (or_exit create_project_structure) (fun _ =>
  or_exit create_env_file)))))).
End Installer.

(** The answer of the host to the action made as the n-th. *)
Definition succeeds (h : host) (n : nat) (a : action) : Prop :=
  match a with
  | Run cmd => proc h n cmd = Exited 0
  | Mkdir _ | WriteText _ => fs_ok h n = true
  end.

(** Every action of [new], made after [n] earlier ones, succeeds. *)
Definition all_succeed (h : host) (n : nat) (new : list action) : Prop :=
  forall i a, new !! i = Some a -> succeeds h (n + i) a.

(** How a failing action fails: a subprocess by its exit status, by its
    executable missing or by not being started, a directory or file
    operation by an error of the operating system. *)
Definition fails_with (h : host) (n : nat) (a : action) (e : failure) : Prop :=
  match a with
  | Run cmd =>
      (e = CalledProcessError
       /\ exists code, proc h n cmd = Exited code /\ code <> 0%Z)
      \/ (e = FileNotFoundError /\ proc h n cmd = NoSuchFile)
      \/ (e = PermissionError /\ proc h n cmd = NotStarted)
  | Mkdir _ | WriteText _ => e = OSError /\ fs_ok h n = false
  end.

(** The actions [new], made after [n] earlier ones, all succeed
    ([None]), or all but the last succeed and the last fails with [e]
    ([Some e]). *)
Definition went (h : host) (n : nat) (new : list action)
    (outcome : option failure) : Prop :=
  match outcome with
  | None => all_succeed h n new
  | Some e =>
      exists done a,
        new = done ++ [a] /\ all_succeed h n done
        /\ fails_with h (n + length done) a e
  end.

(** The result of a computation that raises what stopped it. *)
Definition raised {A} (a : A) (outcome : option failure) : failure + A :=
  match outcome with
  | None => inr a
  | Some e => inl e
  end.







(** The commands that [install_python_dependencies] means to run. *)
Definition pip_commands (h : host) : list action :=
  Run (get_pip_command h ++ ["install"; "--upgrade"; "pip"]%string)
  :: ((fun dep => Run (get_pip_command h ++ ["install"%string; dep]))
      <$> PYTHON_DEPENDENCIES).

(** A Linux machine on which everything works, and one without pip. *)
Definition good_host : host :=
  Host "Linux" (3, 11)%Z "/usr/bin/python3" (fun _ => false)
    (fun _ _ => Exited 0) (fun _ => true).

Definition host_without_pip : host :=
  Host "Linux" (3, 11)%Z "/usr/bin/python3" (fun _ => true)
    (fun _ _ => NoSuchFile) (fun _ => true).

(** A machine on which the virtual environment is made and its pip is
    not started. *)
Definition host_with_dead_pip : host :=
  Host "Linux" (3, 11)%Z "/usr/bin/python3" (fun _ => false)
    (fun n _ => match n with 0 => Exited 0 | _ => NotStarted end)
    (fun _ => true).
End Installer.

(** ** The monad: equations of the combinators *)

Ltac finish :=
  repeat split; try assumption; try reflexivity; try lia.

Lemma bind_ret_l {A B} (a : A) (k : A -> M B) w : bind (ret a) k w = k a w.
Proof. reflexivity. Qed.

Lemma bind_inr {A B} (m : M A) (k : A -> M B) w a w' :
  m w = (inr a, w') -> bind m k w = k a w'.
Proof. intros H. unfold bind. now rewrite H. Qed.

Lemma bind_inl {A B} (m : M A) (k : A -> M B) w e w' :
  m w = (inl e, w') -> bind m k w = (inl e, w').
Proof. intros H. unfold bind. now rewrite H. Qed.

Lemma try_finally_ret {A} (m : M A) w :
  try_finally m (ret tt) w = m w.
Proof. unfold try_finally, ret. now destruct (m w). Qed.

(** ** The store *)

Section StoreFacts.
Variable E : env.

Lemma query_first_ok n c p w :
  db_fault E (db_ops w) = None ->
  query_first E n c p w
  = (inr (find (identity_filter n c p) (rows w)), set_db_ops w (S (db_ops w))).
Proof. intros H. unfold query_first. now rewrite H. Qed.

Lemma query_first_rows n c p w :
  rows (snd (query_first E n c p w)) = rows w.
Proof. unfold query_first. now destruct (db_fault E (db_ops w)). Qed.

Lemma process_changes_unfold employees w :
  process_changes E employees w = process_loop E employees [] w.
Proof. apply try_finally_ret. Qed.

Lemma process_loop_ok employees :
  db_ok E ->
  forall acc w,
  exists new w',
    process_loop E employees acc w = (inr (acc ++ new), w')
    /\ rows w' = rows w
    /\ trace w' = trace w
    /\ driver w' = driver w
    /\ Forall2 (event_of (rows w))
         (filter (new_or_changed (rows w)) employees) new.
Proof.
  intros Hok. induction employees as [|employee rest IH]; intros acc w.
  - exists [], w. simpl. rewrite app_nil_r. repeat split; constructor.
  - simpl process_loop.
    rewrite (bind_inr _ _ _ _ _ (query_first_ok _ _ _ w (Hok _))).
    rewrite filter_cons.
    fold (prior (rows w) employee).
    assert (Hev : forall t,
      new_or_changed (rows w) employee ->
      event_of (rows w) employee
        (Change.mk (Employee.name employee) (Employee.company employee)
           (match prior (rows w) employee with
            | Some ex => JobChange.new_position ex
            | None => None
            end)
           (Employee.position employee) t (Employee.profile_url employee))).
    { intros t _. unfold event_of. simpl. repeat split. }
    destruct (decide (new_or_changed (rows w) employee)) as [Hn|Hn];
      pose proof Hn as Hn'; unfold new_or_changed in Hn';
      destruct (prior (rows w) employee) as [ex|].
    + rewrite bool_decide_eq_true_2 by exact Hn'.
      unfold bind at 1, now.
      match goal with |- context [process_loop E rest ?a ?v] =>
        destruct (IH a v) as (new & w' & Hrun & Hr & Ht & Hd & Hall) end.
      simpl in Hr, Ht, Hd, Hall.
      eexists (_ :: new), w'. rewrite Hrun, <- app_assoc. simpl.
      repeat split; try assumption.
      constructor; [apply Hev, Hn|exact Hall].
    + unfold bind at 1, now.
      match goal with |- context [process_loop E rest ?a ?v] =>
        destruct (IH a v) as (new & w' & Hrun & Hr & Ht & Hd & Hall) end.
      simpl in Hr, Ht, Hd, Hall.
      eexists (_ :: new), w'. rewrite Hrun, <- app_assoc. simpl.
      repeat split; try assumption.
      constructor; [apply Hev, Hn|exact Hall].
    + rewrite bool_decide_eq_false_2 by exact Hn'.
      destruct (IH acc (set_db_ops w (S (db_ops w))))
        as (new & w' & Hrun & Hr & Ht & Hd & Hall).
      simpl in Hr, Ht, Hd, Hall.
      exists new, w'. rewrite Hrun.
      repeat split; assumption.
    + now destruct Hn'.
Qed.
End StoreFacts.

Section SaveFacts.
Variable E : env.

Lemma save_loop_spec changes :
  forall pending w,
  exists r w',
    save_loop E changes pending w = (r, w')
    /\ rows w' = rows w /\ trace w' = trace w /\ driver w' = driver w
    /\ match r with
       | inr p =>
           p = pending ++ to_insert (rows w) changes
           /\ db_ops w' = db_ops w + length changes
           /\ (forall k, db_ops w <= k < db_ops w + length changes ->
                         db_fault E k = None)
       | inl e =>
           exists k, db_ops w <= k < db_ops w + length changes
                     /\ db_fault E k = Some e
       end.
Proof.
  induction changes as [|change rest IH]; intros pending w.
  - exists (inr pending), w. simpl. unfold to_insert. simpl.
    rewrite app_nil_r. repeat split; try lia; intros k Hk; lia.
  - simpl save_loop. unfold bind at 1, query_first.
    destruct (db_fault E (db_ops w)) as [e|] eqn:Hf.
    + eexists (inl e), _. split; [reflexivity|]. simpl.
      repeat split. exists (db_ops w). split; [lia|exact Hf].
    + fold (existing_for (rows w) change).
      unfold to_insert. rewrite filter_cons.
      destruct (decide (existing_for (rows w) change = None)) as [Hn|Hn].
      * rewrite Hn.
        match goal with |- context [save_loop E rest ?a ?v] =>
          destruct (IH a v) as (r & w' & Hrun & Hr & Ht & Hd & Hres) end.
        simpl in Hr, Ht, Hd, Hres.
        exists r, w'. rewrite Hrun. cbn [length].
        repeat split; try assumption.
        destruct r as [e|p].
        -- destruct Hres as (k & Hk & Hfk). exists k. split; [lia|exact Hfk].
        -- destruct Hres as (Hp & Hops & Hnf). split; [|split].
           ++ rewrite Hp, <- app_assoc. reflexivity.
           ++ lia.
           ++ intros k Hk. destruct (decide (k = db_ops w)) as [->|Hne];
                [exact Hf|apply Hnf; lia].
      * destruct (existing_for (rows w) change) as [ex|]; [|congruence].
        match goal with |- context [save_loop E rest ?a ?v] =>
          destruct (IH a v) as (r & w' & Hrun & Hr & Ht & Hd & Hres) end.
        simpl in Hr, Ht, Hd, Hres.
        exists r, w'. rewrite Hrun. cbn [length].
        repeat split; try assumption.
        destruct r as [e|p].
        -- destruct Hres as (k & Hk & Hfk). exists k. split; [lia|exact Hfk].
        -- destruct Hres as (Hp & Hops & Hnf). split; [|split].
           ++ exact Hp.
           ++ lia.
           ++ intros k Hk. destruct (decide (k = db_ops w)) as [->|Hne];
                [exact Hf|apply Hnf; lia].
Qed.

Lemma save_job_changes_spec changes w :
  exists r w',
    save_job_changes E changes w = (r, w')
    /\ trace w' = trace w /\ driver w' = driver w
    /\ ((r = inr tt
         /\ rows w' = rows w ++ to_insert (rows w) changes
         /\ forall k, db_ops w <= k <= db_ops w + length changes ->
                      db_fault E k = None)
        \/ (exists e k,
              r = inl e /\ rows w' = rows w
              /\ db_ops w <= k <= db_ops w + length changes
              /\ db_fault E k = Some e)).
Proof.
  unfold save_job_changes. rewrite try_finally_ret.
  unfold try_except, bind at 1.
  destruct (save_loop_spec changes [] w)
    as (r & w1 & Hrun & Hr & Ht & Hd & Hres).
  rewrite Hrun. destruct r as [e|p].
  - destruct Hres as (k & Hk & Hfk).
    eexists (inl e), w1. split; [reflexivity|]. repeat split; try assumption.
    right. exists e, k. repeat split; try assumption; lia.
  - destruct Hres as (Hp & Hops & Hnf). simpl in Hp. subst p.
    unfold commit.
    destruct (db_fault E (db_ops w1)) as [e|] eqn:Hf.
    + eexists (inl e), _. split; [reflexivity|]. simpl.
      repeat split; try assumption.
      right. exists e, (db_ops w1). repeat split; try assumption; lia.
    + eexists (inr tt), _. split; [reflexivity|]. simpl.
      repeat split; try assumption.
      left. repeat split.
      * now rewrite Hr.
      * intros k Hk.
        destruct (decide (k = db_ops w + length changes)) as [->|Hne];
          [now rewrite <- Hops|apply Hnf; lia].
Qed.

Lemma save_job_changes_ok changes w :
  db_ok E ->
  exists w',
    save_job_changes E changes w = (inr tt, w')
    /\ trace w' = trace w /\ driver w' = driver w
    /\ rows w' = rows w ++ to_insert (rows w) changes.
Proof.
  intros Hok.
  destruct (save_job_changes_spec changes w)
    as (r & w' & Hrun & Ht & Hd & [(-> & Hr & _)|(e & k & _ & _ & _ & Hf)]).
  - exists w'. repeat split; assumption.
  - rewrite Hok in Hf. discriminate.
Qed.
End SaveFacts.

Lemma Forall2_Forall_transfer {A B} (R : A -> B -> Prop) (P : A -> Prop)
    (Q : B -> Prop) l k :
  (forall x y, R x y -> P x -> Q y) ->
  Forall2 R l k -> Forall P l -> Forall Q k.
Proof.
  intros HRPQ H. induction H as [|x y l k Hxy _ IH]; intros HP.
  - constructor.
  - inversion HP; subst. constructor; [eapply HRPQ; eassumption|now apply IH].
Qed.

Lemma Forall_filter_holds {A} (P : A -> Prop) `{!forall x, Decision (P x)}
    (l : list A) :
  Forall P (filter P l).
Proof.
  apply Forall_forall. intros x Hx. now apply list_elem_of_filter in Hx.
Qed.

(** ** The change detector *)

(** In terms of the row that the lookup of the code returns:
    [process_changes] emits one event per scraped record that has no
    prior row or whose prior row holds another role, in the order of the
    records. *)
Lemma process_changes_new_or_changed E employees w :
  db_ok E ->
  exists changes w',
    process_changes E employees w = (inr changes, w')
    /\ rows w' = rows w
    /\ Forall2 (event_of (rows w))
         (filter (new_or_changed (rows w)) employees) changes
    /\ Forall (fun change =>
                 Change.old_position change
                 <> Some (Change.new_position change)) changes.
Proof.
  intros Hok. rewrite process_changes_unfold.
  destruct (process_loop_ok E employees Hok [] w)
    as (new & w' & Hrun & Hr & _ & _ & Hall).
  exists new, w'. repeat split; try assumption.
  eapply Forall2_Forall_transfer; [|exact Hall|apply Forall_filter_holds].
  intros employee change (_ & _ & _ & Hnew & Hold) Hn.
  unfold new_or_changed in Hn. rewrite Hold, Hnew.
  destruct (prior (rows w) employee); [exact Hn|discriminate].
Qed.

(** The filter of the lookup selects the rows of the identity, and the
    lookup returns the first of them in the order of the table. *)
Lemma identity_filter_same_identity employee r :
  identity_filter (Employee.name employee) (Employee.company employee)
    (Employee.profile_url employee) r = true
  <-> same_identity r employee.
Proof.
  unfold identity_filter, same_identity.
  rewrite !andb_true_iff, !bool_decide_eq_true. tauto.
Qed.

Lemma prior_first_stored rs employee :
  prior rs employee = first_stored rs employee.
Proof.
  unfold prior, first_stored, stored_for.
  induction rs as [|r rs IH]; [reflexivity|]. simpl find.
  rewrite filter_cons.
  destruct (decide (same_identity r employee)) as [Hs|Hs].
  - now rewrite (proj2 (identity_filter_same_identity employee r) Hs).
  - destruct (identity_filter _ _ _ r) eqn:Hf; [|exact IH].
    exfalso. now apply Hs, identity_filter_same_identity.
Qed.

Lemma filter_unseen_or_role_differs rs (employees : list Employee.t) :
  filter (unseen_or_role_differs rs) employees
  = filter (new_or_changed rs) employees.
Proof.
  induction employees as [|employee rest IH]; [reflexivity|].
  rewrite !filter_cons, IH.
  assert (Hiff : unseen_or_role_differs rs employee
                 <-> new_or_changed rs employee).
  { unfold unseen_or_role_differs, new_or_changed.
    now rewrite prior_first_stored. }
  destruct (decide (unseen_or_role_differs rs employee)) as [H1|H1];
    destruct (decide (new_or_changed rs employee)) as [H2|H2];
    try reflexivity; exfalso; tauto.
Qed.

(** C1, as stated, fails twice.  In the dashboard the comparison is with
    the first stored row of the identity, not with the latest: the table
    holds two rows for Alice, the latest of them with the role that is
    observed, and the record is reported all the same, as a change from
    the role of the first row.  And in [run_scraper.py] nothing is
    emitted for any record, new or changed: the detector raises the
    [NameError] of the class that the file does not declare. *)
Lemma latest_role_equal_still_reported :
  (let older := alice_row None "Engineer" 1 in
   let later := alice_row (Some "Engineer"%string) "Senior Engineer" 2 in
   latest_stored [older; later] (alice "Senior Engineer") later
   /\ JobChange.new_position later
      = Some (Employee.position (alice "Senior Engineer"))
   /\ fst (process_changes quiet_env [alice "Senior Engineer"]
             (fresh_world [older; later]))
      = inr [alice_change (Some "Engineer"%string) "Senior Engineer" 0])
  /\ fst (RunScraper.process_changes quiet_env [alice "Engineer"]
            (fresh_world []))
     = inl (NameError "JobChange").
Proof.
  split; [|reflexivity]. split; [|split; reflexivity].
  assert (Hs : stored_for [alice_row None "Engineer" 1;
                           alice_row (Some "Engineer"%string)
                             "Senior Engineer" 2]
                 (alice "Senior Engineer")
               = [alice_row None "Engineer" 1;
                  alice_row (Some "Engineer"%string) "Senior Engineer" 2])
    by reflexivity.
  split.
  - rewrite Hs. apply elem_of_cons. right. now apply list_elem_of_singleton.
  - exists 2%Z. split; [reflexivity|]. intros x dx Hx Hdx.
    rewrite Hs in Hx. apply elem_of_cons in Hx as [->|Hx].
    + injection Hdx as <-. lia.
    + apply list_elem_of_singleton in Hx as ->. injection Hdx as <-. lia.
Qed.

(** C1, amended.  With the class declared, [process_changes] emits one
    event per scraped record for whose identity (name, company, profile
    url) no row is stored or whose first stored row, in the order of the
    table, holds another role than the observed one: the events are
    those of these records, in the order of the records, each with
    [new_position] the observed role and [old_position] the role of that
    first row.  A record whose first stored row holds the observed role
    gives no event, and no event has [old_position] equal to
    [new_position]. *)
Theorem process_changes_first_stored_role E employees w :
  db_ok E ->
  exists changes w',
    process_changes E employees w = (inr changes, w')
    /\ rows w' = rows w
    /\ Forall2 (reports (rows w))
         (filter (unseen_or_role_differs (rows w)) employees) changes
    /\ Forall (fun change =>
                 Change.old_position change
                 <> Some (Change.new_position change)) changes.
Proof.
  intros Hok.
  destruct (process_changes_new_or_changed E employees w Hok)
    as (changes & w' & Hrun & Hr & Hall & Hne).
  exists changes, w'. split; [exact Hrun|]. split; [exact Hr|].
  split; [|exact Hne].
  rewrite filter_unseen_or_role_differs.
  eapply Forall2_impl; [exact Hall|].
  intros employee change. unfold event_of, reports.
  now rewrite prior_first_stored.
Qed.

Lemma process_changes_first_stored_role_witness :
  db_ok quiet_env
  /\ (exists changes w',
        process_changes quiet_env
          [alice "Engineer"; alice "Senior Engineer"; carol]
          (fresh_world [bob_row; alice_elsewhere_row;
                        alice_row None "Engineer" 1])
        = (inr changes, w')
        /\ rows w' = [bob_row; alice_elsewhere_row;
                      alice_row None "Engineer" 1]
        /\ Forall2 (reports [bob_row; alice_elsewhere_row;
                             alice_row None "Engineer" 1])
             (filter (unseen_or_role_differs
                        [bob_row; alice_elsewhere_row;
                         alice_row None "Engineer" 1])
                [alice "Engineer"; alice "Senior Engineer"; carol])
             changes
        /\ Forall (fun change =>
                     Change.old_position change
                     <> Some (Change.new_position change)) changes)
  /\ filter (unseen_or_role_differs
               [bob_row; alice_elsewhere_row; alice_row None "Engineer" 1])
       [alice "Engineer"; alice "Senior Engineer"; carol]
     = [alice "Senior Engineer"; carol]
  /\ first_stored [bob_row; alice_elsewhere_row; alice_row None "Engineer" 1]
       (alice "Senior Engineer")
     = Some (alice_row None "Engineer" 1).
Proof.
  split; [intros k; reflexivity|]. split; [|split; reflexivity].
  apply (process_changes_first_stored_role quiet_env
           [alice "Engineer"; alice "Senior Engineer"; carol]
           (fresh_world [bob_row; alice_elsewhere_row;
                         alice_row None "Engineer" 1])).
  intros k; reflexivity.
Defined.

(** ** Persistence *)

(** C10. [save_job_changes] is all or nothing: either it returns normally
    and the table has grown by every row of the batch that was to be
    inserted, put there by the one [commit], or it raises the fault that
    the store reported, and the table is as it was before the call.  Which
    of the two happens is decided by the faults of the store during the
    call: the batch is committed exactly when there is none. *)
Theorem save_job_changes_atomic E changes w :
  exists r w',
    save_job_changes E changes w = (r, w')
    /\ ((r = inr tt
         /\ rows w' = rows w ++ to_insert (rows w) changes
         /\ forall k, db_ops w <= k <= db_ops w + length changes ->
                      db_fault E k = None)
        \/ (exists e k,
              r = inl e /\ rows w' = rows w
              /\ db_ops w <= k <= db_ops w + length changes
              /\ db_fault E k = Some e)).
Proof.
  destruct (save_job_changes_spec E changes w) as (r & w' & Hrun & _ & _ & H).
  exists r, w'. split; assumption.
Qed.

(** A change whose identity already has a row is never inserted, whatever
    role it carries. *)
Lemma save_job_changes_known_identity E change w :
  db_ok E ->
  existing_for (rows w) change <> None ->
  rows (snd (save_job_changes E [change] w)) = rows w.
Proof.
  intros Hok Hex.
  destruct (save_job_changes_ok E [change] w Hok) as (w' & Hrun & _ & _ & Hr).
  rewrite Hrun. simpl. rewrite Hr. unfold to_insert.
  rewrite filter_cons, decide_False by exact Hex.
  simpl. apply app_nil_r.
Qed.

(** C2, on the failing inputs.  The store holds Alice as Engineer; the
    event that she became Senior Engineer is handed to [save_job_changes],
    which returns normally and leaves the table as it was.  And two events
    of one batch for the same unseen identity and role are both inserted:
    the lookup of the second does not see the pending row of the first. *)
Theorem save_job_changes_role_change_lost :
  save_job_changes quiet_env
    [alice_change (Some "Engineer"%string) "Senior Engineer" 7]
    (fresh_world [alice_row None "Engineer" 1])
  = (inr tt, World [alice_row None "Engineer" 1] 2 0 false [])
  /\ rows (snd (save_job_changes quiet_env
                  [alice_change None "Engineer" 1;
                   alice_change None "Engineer" 2]
                  (fresh_world [])))
     = [alice_row None "Engineer" 1; alice_row None "Engineer" 2].
Proof. split; reflexivity. Qed.

(** The scenario of three passes over Alice.  The first pass stores her
    as Engineer, the second finds nothing to report, the third reports
    that she became Senior Engineer; that event does not reach the table,
    so a fourth pass reports it again. *)
Example three_passes_over_alice :
  let pass role w :=
    let '(r, w1) := process_changes quiet_env [alice role] w in
    match r with
    | inr changes => (changes, snd (save_job_changes quiet_env changes w1))
    | inl _ => ([], w1)
    end in
  let '(c1, w1) := pass "Engineer"%string (fresh_world []) in
  let '(c2, w2) := pass "Engineer"%string w1 in
  let '(c3, w3) := pass "Senior Engineer"%string w2 in
  let '(c4, w4) := pass "Senior Engineer"%string w3 in
  c1 = [alice_change None "Engineer" 0]
  /\ c2 = []
  /\ c3 = [alice_change (Some "Engineer"%string) "Senior Engineer" 1]
  /\ c4 = [alice_change (Some "Engineer"%string) "Senior Engineer" 2]
  /\ rows w4 = [alice_row None "Engineer" 0].
Proof. vm_compute. repeat split. Qed.

(** C3, as stated, fails.  A change that carries an old role and whose
    identity has no row is stored with [is_new] true.  And when Alice,
    stored as Engineer, is seen as Senior Engineer, the event of the
    detector is handed to [save_job_changes] and the table afterwards
    holds no row with [is_new] false. *)
Lemma is_new_iff_old_absent_fails :
  ~ (forall r,
       r ∈ rows (snd (save_job_changes quiet_env
                        [alice_change (Some "Engineer"%string)
                           "Senior Engineer" 7]
                        (fresh_world []))) ->
       (JobChange.is_new r = true <-> JobChange.old_position r = None))
  /\ (exists changes w1 w2,
        process_changes quiet_env [alice "Senior Engineer"]
          (fresh_world [alice_row None "Engineer" 1]) = (inr changes, w1)
        /\ changes = [alice_change (Some "Engineer"%string) "Senior Engineer" 0]
        /\ save_job_changes quiet_env changes w1 = (inr tt, w2)
        /\ Forall (fun r => JobChange.is_new r = true) (rows w2)).
Proof.
  split.
  - intros H.
    specialize (H (alice_row (Some "Engineer"%string) "Senior Engineer" 7)).
    assert (Hin : alice_row (Some "Engineer"%string) "Senior Engineer" 7
                  ∈ [alice_row (Some "Engineer"%string) "Senior Engineer" 7])
      by apply list_elem_of_here.
    destruct (H Hin) as [Hold _].
    specialize (Hold eq_refl). discriminate Hold.
  - eexists _, _, _. split; [reflexivity|]. split; [reflexivity|].
    split; [reflexivity|]. repeat constructor.
Qed.

(** C3, amended.  Every row that [save_job_changes] adds to the table is
    built from a change of the batch and has [is_new] true, the default
    of the column, whatever its [old_position]. *)
Theorem save_job_changes_is_new_default E changes w :
  exists added,
    rows (snd (save_job_changes E changes w)) = rows w ++ added
    /\ Forall (fun r =>
                 JobChange.is_new r = true
                 /\ exists change,
                      change ∈ changes /\ r = new_JobChange change) added.
Proof.
  destruct (save_job_changes_spec E changes w)
    as (r & w' & Hrun & _ & _ & [(_ & Hr & _)|(e & k & _ & Hr & _)]);
    rewrite Hrun; simpl.
  - exists (to_insert (rows w) changes). split; [exact Hr|].
    unfold to_insert. apply Forall_forall. intros x Hx.
    apply list_elem_of_fmap in Hx as (change & -> & Hc).
    apply list_elem_of_filter in Hc as [_ Hc].
    split; [reflexivity|]. exists change. now split.
  - exists []. rewrite app_nil_r. split; [exact Hr|constructor].
Qed.

(** ** The baseline of the comparison *)

(** C9, as stated, fails: the table holds two rows for Alice, the older
    one first; the lookup takes the older one, and her current role,
    which the later row already holds, is reported as a change. *)
Lemma lookup_not_latest_change_date :
  let older := alice_row None "Engineer" 1 in
  let later := alice_row (Some "Engineer"%string) "Senior Engineer" 2 in
  prior [older; later] (alice "Senior Engineer") = Some older
  /\ JobChange.change_date older = Some 1%Z
  /\ JobChange.change_date later = Some 2%Z
  /\ identity_filter "Alice" "OrgX" (Some "https://example.org/in/P1"%string)
       later = true
  /\ fst (process_changes quiet_env [alice "Senior Engineer"]
            (fresh_world [older; later]))
     = inr [alice_change (Some "Engineer"%string) "Senior Engineer" 0].
Proof. repeat split. Qed.

(** C9, amended.  The baseline is the first row for the identity in the
    order in which the store scans the table; the [change_date] of the
    rows plays no part. *)
Theorem lookup_first_in_scan_order E employee before r after w :
  db_ok E ->
  rows w = before ++ r :: after ->
  Forall (fun x =>
            identity_filter (Employee.name employee)
              (Employee.company employee) (Employee.profile_url employee) x
            = false) before ->
  identity_filter (Employee.name employee) (Employee.company employee)
    (Employee.profile_url employee) r = true ->
  prior (rows w) employee = Some r
  /\ fst (process_changes E [employee] w)
     = inr (if decide (JobChange.new_position r
                       = Some (Employee.position employee))
            then []
            else [Change.mk (Employee.name employee)
                    (Employee.company employee)
                    (JobChange.new_position r)
                    (Employee.position employee)
                    (clock E (ticks w))
                    (Employee.profile_url employee)]).
Proof.
  intros Hok Hrows Hbefore Hr.
  assert (Hp : prior (rows w) employee = Some r).
  { unfold prior. rewrite Hrows. clear Hrows.
    induction before as [|x before IH]; simpl.
    - now rewrite Hr.
    - inversion Hbefore as [|? ? Hx Hrest]; subst. rewrite Hx. now apply IH. }
  split; [exact Hp|].
  rewrite process_changes_unfold. simpl process_loop.
  rewrite (bind_inr _ _ _ _ _ (query_first_ok _ _ _ _ w (Hok _))).
  fold (prior (rows w) employee). rewrite Hp.
  destruct (decide (JobChange.new_position r
                    = Some (Employee.position employee))) as [Heq|Hne].
  - rewrite bool_decide_eq_false_2 by (intros Hc; now apply Hc).
    reflexivity.
  - rewrite bool_decide_eq_true_2 by exact Hne. reflexivity.
Qed.

Lemma lookup_first_in_scan_order_witness :
  prior [alice_row None "Engineer" 9;
         alice_row (Some "Engineer"%string) "Senior Engineer" 2]
    (alice "Senior Engineer")
  = Some (alice_row None "Engineer" 9)
  /\ fst (process_changes quiet_env [alice "Senior Engineer"]
            (fresh_world [alice_row None "Engineer" 9;
                          alice_row (Some "Engineer"%string)
                            "Senior Engineer" 2]))
     = inr [alice_change (Some "Engineer"%string) "Senior Engineer" 0].
Proof.
  apply (lookup_first_in_scan_order quiet_env (alice "Senior Engineer")
           [] (alice_row None "Engineer" 9)
           [alice_row (Some "Engineer"%string) "Senior Engineer" 2]
           (fresh_world [alice_row None "Engineer" 9;
                         alice_row (Some "Engineer"%string)
                           "Senior Engineer" 2])).
  - intros k; reflexivity.
  - reflexivity.
  - constructor.
  - reflexivity.
Defined.

(** When the table holds one row for the identity, that row, which is
    then also the latest one, is the baseline. *)
Lemma prior_of_single_row rs employee r :
  r ∈ rs ->
  identity_filter (Employee.name employee) (Employee.company employee)
    (Employee.profile_url employee) r = true ->
  (forall r',
     r' ∈ rs ->
     identity_filter (Employee.name employee) (Employee.company employee)
       (Employee.profile_url employee) r' = true -> r' = r) ->
  prior rs employee = Some r.
Proof.
  intros Hin Hr Huniq. unfold prior.
  destruct (find _ rs) as [r0|] eqn:Hfind.
  - apply find_some in Hfind as [Hin0 Hr0].
    f_equal. apply Huniq; [now apply list_elem_of_In|exact Hr0].
  - apply list_elem_of_In in Hin.
    pose proof (find_none _ _ Hfind r Hin) as Hno. congruence.
Qed.

(** ** Cards *)

Lemma omap_cons_Some {A B} (f : A -> option B) x y l :
  f x = Some y -> omap f (x :: l) = y :: omap f l.
Proof. intros H. simpl. now rewrite H. Qed.

Lemma omap_cons_None {A B} (f : A -> option B) x l :
  f x = None -> omap f (x :: l) = omap f l.
Proof. intros H. simpl. now rewrite H. Qed.

Lemma well_formed_outcome c :
  well_formed c -> exists f, card_outcome c = inr f /\ card_fields c = Some f.
Proof.
  unfold well_formed, card_fields, card_outcome. intros [f Hf].
  destruct (title_text c), (primary_subtitle c), (app_aware_link c);
    try discriminate. eexists. split; reflexivity.
Qed.

Lemma missing_field_outcome c :
  missing_field c ->
  card_outcome c = inl NoSuchElementException /\ card_fields c = None.
Proof.
  unfold missing_field, found_or_absent, absent, card_outcome, card_fields.
  intros ((H1 & H2 & H3) & Hone).
  destruct (title_text c) as [e1|n].
  - destruct H1 as [[a Ha]|Ha]; [discriminate|]. now inversion Ha.
  - destruct (primary_subtitle c) as [e2|p].
    + destruct H2 as [[a Ha]|Ha]; [discriminate|]. now inversion Ha.
    + destruct (app_aware_link c) as [e3|u].
      * destruct H3 as [[a Ha]|Ha]; [discriminate|]. now inversion Ha.
      * destruct Hone as [H|[H|H]]; discriminate.
Qed.

Lemma omap_card_fields_well_formed cards :
  Forall well_formed cards ->
  length (omap card_fields cards) = length cards.
Proof.
  induction 1 as [|c cards [f Hf] _ IH]; [reflexivity|].
  rewrite (omap_cons_Some _ _ _ _ Hf). simpl. f_equal. exact IH.
Qed.

Section ScraperCards.
Variable E : env.
Variable cfg : Scraper.config.

Lemma scraper_card_step company c employees w :
  try_except
    (e <- Scraper.read_card E company c ;; ret (employees ++ [e]))
    (fun ex =>
       match ex with
       | NoSuchElementException => ret employees
       | _ => raise ex
       end) w
  = match card_outcome c with
    | inr (n, p, u) =>
        (inr (employees
              ++ [Employee.mk n company p u (Some (clock E (ticks w)))]),
         set_ticks w (S (ticks w)))
    | inl NoSuchElementException => (inr employees, w)
    | inl e => (inl e, w)
    end.
Proof.
  unfold try_except, bind, Scraper.read_card, card_outcome, bind, lift.
  destruct (title_text c) as [e|n]; [now destruct e|].
  destruct (primary_subtitle c) as [e|p]; [now destruct e|].
  destruct (app_aware_link c) as [e|u]; [now destruct e|].
  reflexivity.
Qed.

Lemma scraper_extract_cards_frame company cards :
  forall employees w,
  exists r w',
    Scraper.extract_cards E company cards employees w = (r, w')
    /\ rows w' = rows w /\ db_ops w' = db_ops w
    /\ driver w' = driver w /\ trace w' = trace w.
Proof.
  induction cards as [|c cards IH]; intros employees w.
  - eexists _, _. split; [reflexivity|]. repeat split.
  - simpl Scraper.extract_cards. unfold bind at 1.
    rewrite scraper_card_step.
    destruct (card_outcome c) as [e|[[n p] u]].
    + destruct e; try (eexists _, _; split; [reflexivity|]; repeat split).
      apply IH.
    + match goal with |- context [Scraper.extract_cards E _ _ ?a ?v] =>
        destruct (IH a v) as (r & w' & Hrun & H) end.
      exists r, w'. split; [exact Hrun|exact H].
Qed.

Lemma scraper_extract_cards_readable company cards :
  Forall readable cards ->
  forall employees w,
  exists new w',
    Scraper.extract_cards E company cards employees w
    = (inr (employees ++ new), w')
    /\ Employee.fields <$> new = omap card_fields cards
    /\ Forall (fun e => Employee.company e = company) new.
Proof.
  induction 1 as [|c cards Hc _ IH]; intros employees w.
  - exists [], w. simpl. rewrite app_nil_r. repeat split. constructor.
  - simpl Scraper.extract_cards. unfold bind at 1.
    rewrite scraper_card_step.
    destruct Hc as [Hc|Hc].
    + destruct (well_formed_outcome c Hc) as ([[n p] u] & Ho & Hf).
      rewrite Ho.
      match goal with |- context [Scraper.extract_cards E _ _ ?a ?v] =>
        destruct (IH a v) as (new & w' & Hrun & Hfs & Hco) end.
      eexists (_ :: new), w'. rewrite Hrun, <- app_assoc.
      split; [reflexivity|].
      rewrite fmap_cons, (omap_cons_Some _ _ _ _ Hf), Hfs.
      split; [reflexivity|]. constructor; [reflexivity|exact Hco].
    + destruct (missing_field_outcome c Hc) as (Ho & Hf). rewrite Ho.
      destruct (IH employees w) as (new & w' & Hrun & Hfs & Hco).
      exists new, w'. rewrite Hrun, (omap_cons_None _ _ _ Hf).
      repeat split; assumption.
Qed.
End ScraperCards.

Section RunScraperCards.
Variable E : env.

Lemma run_scraper_card_step company c employees w :
  try_except
    (e <- RunScraper.read_card company c ;; ret (employees ++ [e]))
    (fun ex =>
       match ex with
       | NoSuchElementException => ret employees
       | _ => raise ex
       end) w
  = match card_outcome c with
    | inr (n, p, u) =>
        (inr (employees ++ [Employee.mk n company p u None]), w)
    | inl NoSuchElementException => (inr employees, w)
    | inl e => (inl e, w)
    end.
Proof.
  unfold try_except, bind, RunScraper.read_card, card_outcome, bind, lift.
  destruct (title_text c) as [e|n]; [now destruct e|].
  destruct (primary_subtitle c) as [e|p]; [now destruct e|].
  destruct (app_aware_link c) as [e|u]; [now destruct e|].
  reflexivity.
Qed.

Lemma run_scraper_extract_cards_frame company cards :
  forall employees w,
  exists r,
    RunScraper.extract_cards company cards employees w = (r, w).
Proof.
  induction cards as [|c cards IH]; intros employees w.
  - eexists. reflexivity.
  - simpl RunScraper.extract_cards. unfold bind at 1.
    rewrite run_scraper_card_step.
    destruct (card_outcome c) as [e|[[n p] u]].
    + destruct e; try (eexists; reflexivity). apply IH.
    + apply IH.
Qed.

Lemma run_scraper_extract_cards_readable company cards :
  Forall readable cards ->
  forall employees w,
  exists new,
    RunScraper.extract_cards company cards employees w
    = (inr (employees ++ new), w)
    /\ Employee.fields <$> new = omap card_fields cards
    /\ Forall (fun e => Employee.company e = company) new.
Proof.
  induction 1 as [|c cards Hc _ IH]; intros employees w.
  - exists []. simpl. rewrite app_nil_r. repeat split. constructor.
  - simpl RunScraper.extract_cards. unfold bind at 1.
    rewrite run_scraper_card_step.
    destruct Hc as [Hc|Hc].
    + destruct (well_formed_outcome c Hc) as ([[n p] u] & Ho & Hf).
      rewrite Ho.
      match goal with |- context [RunScraper.extract_cards _ _ ?a ?v] =>
        destruct (IH a v) as (new & Hrun & Hfs & Hco) end.
      eexists (_ :: new). rewrite Hrun, <- app_assoc.
      split; [reflexivity|].
      rewrite fmap_cons, (omap_cons_Some _ _ _ _ Hf), Hfs.
      split; [reflexivity|]. constructor; [reflexivity|exact Hco].
    + destruct (missing_field_outcome c Hc) as (Ho & Hf). rewrite Ho.
      destruct (IH employees w) as (new & Hrun & Hfs & Hco).
      exists new. rewrite Hrun, (omap_cons_None _ _ _ Hf).
      repeat split; assumption.
Qed.
End RunScraperCards.

Lemma fields_of_well_formed cards :
  Forall well_formed cards ->
  forall company new,
    Employee.fields <$> new = omap card_fields cards ->
    Forall (fun e => Employee.company e = company) new ->
    Forall2 (fun c e =>
               card_fields c = Some (Employee.fields e)
               /\ Employee.company e = company) cards new.
Proof.
  induction 1 as [|c cards [f Hf] _ IH]; intros company new Hnew Hco.
  - destruct new; [constructor|discriminate].
  - rewrite (omap_cons_Some _ _ _ _ Hf) in Hnew.
    destruct new as [|e new]; [discriminate|].
    rewrite fmap_cons in Hnew. inversion Hnew; subst.
    inversion Hco; subst.
    constructor; [now split|]. now apply IH.
Qed.

Lemma one_missing_card before bad after :
  Forall well_formed before -> missing_field bad -> Forall well_formed after ->
  Forall readable (before ++ bad :: after)
  /\ omap card_fields (before ++ bad :: after)
     = omap card_fields (before ++ after)
  /\ length (omap card_fields (before ++ after))
     = length (before ++ bad :: after) - 1.
Proof.
  intros Hb Hbad Ha. split; [|split].
  - apply Forall_app. split.
    + eapply Forall_impl; [exact Hb|]. intros c Hc. now left.
    + constructor; [now right|].
      eapply Forall_impl; [exact Ha|]. intros c Hc. now left.
  - rewrite !omap_app.
    now rewrite (omap_cons_None _ _ _ (proj2 (missing_field_outcome _ Hbad))).
  - rewrite omap_card_fields_well_formed
      by (apply Forall_app; now split).
    rewrite !length_app. cbn [length]. lia.
Qed.

(** C7. When one card of a rendered set misses a required sub-element and
    the others are well formed, the extraction loop of both crawlers goes
    through the whole set without raising and appends one record per
    well-formed card, with the fields of that card, in the order of the
    cards: one record fewer than there are cards. *)
Theorem extraction_skips_the_card_missing_a_field
    E company before bad after employees w :
  Forall well_formed before -> missing_field bad -> Forall well_formed after ->
  (exists new w',
     Scraper.extract_cards E company (before ++ bad :: after) employees w
     = (inr (employees ++ new), w')
     /\ length new = length (before ++ bad :: after) - 1
     /\ Forall2 (fun c e =>
                   card_fields c = Some (Employee.fields e)
                   /\ Employee.company e = company) (before ++ after) new)
  /\ (exists new,
        RunScraper.extract_cards company (before ++ bad :: after) employees w
        = (inr (employees ++ new), w)
        /\ length new = length (before ++ bad :: after) - 1
        /\ Forall2 (fun c e =>
                      card_fields c = Some (Employee.fields e)
                      /\ Employee.company e = company) (before ++ after) new).
Proof.
  intros Hb Hbad Ha.
  destruct (one_missing_card before bad after Hb Hbad Ha) as (Hr & Hom & Hlen).
  assert (Hwf : Forall well_formed (before ++ after))
    by (apply Forall_app; now split).
  split.
  - destruct (scraper_extract_cards_readable E company _ Hr employees w)
      as (new & w' & Hrun & Hfs & Hco).
    exists new, w'. split; [exact Hrun|]. rewrite Hom in Hfs. split.
    + rewrite <- Hlen, <- Hfs. now rewrite length_fmap.
    + now apply fields_of_well_formed.
  - destruct (run_scraper_extract_cards_readable company _ Hr employees w)
      as (new & Hrun & Hfs & Hco).
    exists new. split; [exact Hrun|]. rewrite Hom in Hfs. split.
    + rewrite <- Hlen, <- Hfs. now rewrite length_fmap.
    + now apply fields_of_well_formed.
Qed.

Lemma extraction_skips_the_card_missing_a_field_witness :
  (Forall well_formed [bob_card] /\ missing_field torn_card
   /\ Forall well_formed [carol_card])
  /\ (exists new w',
        Scraper.extract_cards quiet_env "OrgX"
          ([bob_card] ++ torn_card :: [carol_card]) [] (fresh_world [])
        = (inr ([] ++ new), w')
        /\ length new = length ([bob_card] ++ torn_card :: [carol_card]) - 1
        /\ Forall2 (fun c e =>
                      card_fields c = Some (Employee.fields e)
                      /\ Employee.company e = "OrgX"%string)
             ([bob_card] ++ [carol_card]) new)
  /\ (exists new,
        RunScraper.extract_cards "OrgX"
          ([bob_card] ++ torn_card :: [carol_card]) [] (fresh_world [])
        = (inr ([] ++ new), fresh_world [])
        /\ length new = length ([bob_card] ++ torn_card :: [carol_card]) - 1
        /\ Forall2 (fun c e =>
                      card_fields c = Some (Employee.fields e)
                      /\ Employee.company e = "OrgX"%string)
             ([bob_card] ++ [carol_card]) new).
Proof.
  assert (Hb : Forall well_formed [bob_card])
    by (repeat constructor; eexists; reflexivity).
  assert (Hc : Forall well_formed [carol_card])
    by (repeat constructor; eexists; reflexivity).
  assert (Ht : missing_field torn_card).
  { split; [repeat split|].
    - left. eexists. reflexivity.
    - right. reflexivity.
    - left. eexists. reflexivity.
    - right. left. reflexivity. }
  split; [split; [exact Hb|split; [exact Ht|exact Hc]]|].
  exact (extraction_skips_the_card_missing_a_field quiet_env "OrgX"
           [bob_card] torn_card [carol_card] [] (fresh_world []) Hb Ht Hc).
Defined.

(** ** The scroll loop *)

Lemma bind_emit {B} ev (k : unit -> M B) w :
  bind (emit ev) k w = k tt (set_trace w (trace w ++ [ev])).
Proof. reflexivity. Qed.

Lemma bind_lift_inr {A B} (a : A) (k : A -> M B) w :
  bind (lift (inr a)) k w = k a w.
Proof. reflexivity. Qed.

Lemma bind_lift_inl {A B} e (k : A -> M B) w :
  bind (lift (inl e)) k w = (inl e, w).
Proof. reflexivity. Qed.

Lemma bind_outcome_None {B} (k : unit -> M B) w :
  bind (outcome None) k w = k tt w.
Proof. reflexivity. Qed.

Lemma bind_outcome_Some {B} e (k : unit -> M B) w :
  bind (outcome (Some e)) k w = (inl e, w).
Proof. reflexivity. Qed.

Lemma replicate_S_app {A} (x : A) n l :
  (l ++ [x]) ++ replicate n x = l ++ replicate (S n) x.
Proof. now rewrite <- app_assoc. Qed.

Lemma count_event_app ev t1 t2 :
  count_event ev (t1 ++ t2) = count_event ev t1 + count_event ev t2.
Proof. unfold count_event. now rewrite filter_app, length_app. Qed.

Lemma count_event_replicate ev n :
  count_event ev (replicate n ev) = n.
Proof.
  unfold count_event. induction n as [|n IH]; [reflexivity|].
  simpl replicate. rewrite filter_cons, decide_True by reflexivity.
  simpl. now rewrite IH.
Qed.

Lemma Forall_crawl_event_replicate n :
  Forall crawl_event (replicate n EvScroll).
Proof. apply Forall_replicate. now right. Qed.

Lemma gets_crawl_events t : Forall crawl_event t -> gets t = [].
Proof.
  unfold gets. induction 1 as [|ev t [->| ->] _ IH]; [reflexivity| |];
    simpl; exact IH.
Qed.

Lemma count_quit_crawl_events t :
  Forall crawl_event t -> count_event EvQuit t = 0.
Proof.
  unfold count_event. induction 1 as [|ev t Hev _ IH]; [reflexivity|].
  rewrite filter_cons, decide_False; [exact IH|].
  destruct Hev as [->| ->]; discriminate.
Qed.

Section ScraperLoop.
Variable E : env.
Variable cfg : Scraper.config.

Lemma scraper_scroll_loop_frame pg company remaining :
  forall k employees w,
  exists r w' n,
    Scraper.scroll_loop E cfg pg company remaining k employees w = (r, w')
    /\ rows w' = rows w /\ db_ops w' = db_ops w /\ driver w' = driver w
    /\ n <= remaining
    /\ trace w' = trace w ++ replicate n EvScroll.
Proof.
  induction remaining as [|remaining IH]; intros k employees w.
  - eexists _, _, 0. split; [reflexivity|]. simpl. rewrite app_nil_r.
    finish.
  - simpl Scraper.scroll_loop. rewrite bind_emit.
    destruct (rendered pg k) as [e|cards].
    + rewrite bind_lift_inl. eexists _, _, 1. split; [reflexivity|].
      simpl. finish.
    + rewrite bind_lift_inr. unfold bind at 1.
      destruct (scraper_extract_cards_frame E company cards employees
                  (set_trace w (trace w ++ [EvScroll])))
        as (r1 & w1 & Hrun & Hr & Ho & Hd & Ht).
      rewrite Hrun. simpl in Hr, Ho, Hd, Ht.
      destruct r1 as [e|employees'].
      * eexists _, _, 1. split; [reflexivity|]. rewrite Ht.
        finish.
      * destruct (Scraper.max_results cfg <=? Z.of_nat (length employees'))%Z.
        -- eexists _, _, 1. split; [reflexivity|]. rewrite Ht.
           finish.
        -- destruct (IH (S k) employees' w1)
             as (r & w' & n & Hrun' & Hr' & Ho' & Hd' & Hn & Ht').
           exists r, w', (S n). split; [exact Hrun'|].
           rewrite Hr', Ho', Hd', Ht', Ht, replicate_S_app.
           finish.
Qed.

Lemma scraper_scroll_loop_calm pg company remaining :
  forall k employees w,
  (forall j, k <= j < k + remaining ->
     exists cards, rendered pg j = inr cards /\ Forall readable cards) ->
  exists new rest w',
    Scraper.scroll_loop E cfg pg company remaining k employees w
    = (inr (employees ++ new), w')
    /\ concat (step_fields pg <$> seq k remaining)
       = (Employee.fields <$> new) ++ rest
    /\ (rest = []
        \/ (Scraper.max_results cfg <= Z.of_nat (length (employees ++ new)))%Z)
    /\ Forall (fun e => Employee.company e = company) new.
Proof.
  induction remaining as [|remaining IH]; intros k employees w Hcalm.
  - exists [], [], w. simpl. rewrite app_nil_r.
    repeat split; [now left|constructor].
  - simpl Scraper.scroll_loop. rewrite bind_emit.
    destruct (Hcalm k ltac:(lia)) as (cards & Hk & Hcards).
    rewrite Hk, bind_lift_inr. unfold bind at 1.
    destruct (scraper_extract_cards_readable E company cards Hcards employees
                (set_trace w (trace w ++ [EvScroll])))
      as (new1 & w1 & Hrun & Hfs & Hco).
    rewrite Hrun.
    assert (Hstep : step_fields pg k = Employee.fields <$> new1).
    { unfold step_fields, step_cards. now rewrite Hk, Hfs. }
    cbn [seq fmap list_fmap concat]. rewrite Hstep.
    destruct (Scraper.max_results cfg
              <=? Z.of_nat (length (employees ++ new1)))%Z eqn:Hcap.
    + exists new1, (concat (step_fields pg <$> seq (S k) remaining)), w1.
      repeat split; [|exact Hco]. right. now apply Z.leb_le.
    + destruct (IH (S k) (employees ++ new1) w1) as
        (new2 & rest & w' & Hrun' & Hcat & Hfull & Hco').
      { intros j Hj. apply Hcalm. lia. }
      exists (new1 ++ new2), rest, w'. rewrite Hrun', <- app_assoc.
      split; [reflexivity|]. split; [|split].
      * change (list_fmap _ _ (step_fields pg) (seq (S k) remaining))
          with (step_fields pg <$> seq (S k) remaining).
        now rewrite Hcat, fmap_app, <- app_assoc.
      * rewrite app_assoc. exact Hfull.
      * apply Forall_app. now split.
Qed.
End ScraperLoop.

Lemma run_scraper_scroll_loop_frame pg company remaining :
  forall k employees w,
  exists r w' n,
    RunScraper.scroll_loop pg company remaining k employees w = (r, w')
    /\ rows w' = rows w /\ db_ops w' = db_ops w /\ driver w' = driver w
    /\ n <= remaining
    /\ trace w' = trace w ++ replicate n EvScroll.
Proof.
  induction remaining as [|remaining IH]; intros k employees w.
  - eexists _, _, 0. split; [reflexivity|]. simpl. rewrite app_nil_r.
    finish.
  - simpl RunScraper.scroll_loop. rewrite bind_emit.
    destruct (rendered pg k) as [e|cards].
    + rewrite bind_lift_inl. eexists _, _, 1. split; [reflexivity|].
      simpl. finish.
    + rewrite bind_lift_inr. unfold bind at 1.
      destruct (run_scraper_extract_cards_frame company cards employees
                  (set_trace w (trace w ++ [EvScroll]))) as (r1 & Hrun).
      rewrite Hrun.
      destruct r1 as [e|employees'].
      * eexists _, _, 1. split; [reflexivity|]. simpl. finish.
      * destruct (IH (S k) employees' (set_trace w (trace w ++ [EvScroll])))
          as (r & w' & n & Hrun' & Hr' & Ho' & Hd' & Hn & Ht').
        exists r, w', (S n). split; [exact Hrun'|].
        rewrite Hr', Ho', Hd', Ht'. simpl trace. rewrite replicate_S_app.
        finish.
Qed.

(** On a calm page the loop of [run_scraper.py] runs every scroll that its
    counter allows, and gathers what each of them shows. *)
Lemma run_scraper_scroll_loop_calm pg company remaining :
  forall k employees w,
  (forall j, k <= j < k + remaining ->
     exists cards, rendered pg j = inr cards /\ Forall readable cards) ->
  exists new w',
    RunScraper.scroll_loop pg company remaining k employees w
    = (inr (employees ++ new), w')
    /\ concat (step_fields pg <$> seq k remaining) = Employee.fields <$> new
    /\ Forall (fun e => Employee.company e = company) new
    /\ trace w' = trace w ++ replicate remaining EvScroll.
Proof.
  induction remaining as [|remaining IH]; intros k employees w Hcalm.
  - exists [], w. simpl. rewrite !app_nil_r. finish. constructor.
  - simpl RunScraper.scroll_loop. rewrite bind_emit.
    destruct (Hcalm k ltac:(lia)) as (cards & Hk & Hcards).
    rewrite Hk, bind_lift_inr. unfold bind at 1.
    destruct (run_scraper_extract_cards_readable company cards Hcards employees
                (set_trace w (trace w ++ [EvScroll])))
      as (new1 & Hrun & Hfs & Hco).
    rewrite Hrun.
    assert (Hstep : step_fields pg k = Employee.fields <$> new1).
    { unfold step_fields, step_cards. now rewrite Hk, Hfs. }
    destruct (IH (S k) (employees ++ new1)
                (set_trace w (trace w ++ [EvScroll])))
      as (new2 & w' & Hrun' & Hcat & Hco' & Ht').
    { intros j Hj. apply Hcalm. lia. }
    exists (new1 ++ new2), w'. rewrite Hrun', <- app_assoc.
    split; [reflexivity|]. split; [|split].
    + cbn [seq fmap list_fmap concat].
      change (list_fmap _ _ (step_fields pg) (seq (S k) remaining))
        with (step_fields pg <$> seq (S k) remaining).
      now rewrite Hstep, Hcat, fmap_app.
    + apply Forall_app. now split.
    + rewrite Ht'. simpl trace. now rewrite replicate_S_app.
Qed.

(** ** Slices *)

Lemma slice_to_nonneg {A} (l : list A) n :
  (0 <= n)%Z -> slice_to l n = take (Z.to_nat n) l.
Proof. intros H. unfold slice_to. now rewrite (proj2 (Z.leb_le 0 n) H). Qed.

Lemma slice_to_length {A} (l : list A) n :
  (0 <= n)%Z -> (Z.of_nat (length (slice_to l n)) <= n)%Z.
Proof. intros H. rewrite slice_to_nonneg, length_take by exact H. lia. Qed.

Lemma take_prefix_enough {A} (front rest : list A) c :
  rest = [] \/ c <= length front ->
  take c (front ++ rest) = take c front.
Proof.
  intros [->|H]; [now rewrite app_nil_r|]. now apply take_app_le.
Qed.

(** ** One organization *)

Lemma count_scroll_after_tab n :
  count_event EvScroll (EvPeopleTab :: replicate n EvScroll) = n.
Proof.
  change (EvPeopleTab :: replicate n EvScroll)
    with ([EvPeopleTab] ++ replicate n EvScroll).
  rewrite count_event_app, count_event_replicate. reflexivity.
Qed.

Lemma crawl_events_after_tab n :
  Forall crawl_event (EvPeopleTab :: replicate n EvScroll).
Proof. constructor; [now left|apply Forall_crawl_event_replicate]. Qed.

Lemma trace_after_tab (t : list event) url n :
  ((t ++ [EvGet url]) ++ [EvPeopleTab]) ++ replicate n EvScroll
  = t ++ EvGet url :: EvPeopleTab :: replicate n EvScroll.
Proof. now rewrite <- !app_assoc. Qed.

Lemma scraper_scrape_company_frame E cfg name url w :
  exists l w' t,
    Scraper.scrape_company E cfg name url w = (inr l, w')
    /\ rows w' = rows w /\ db_ops w' = db_ops w /\ driver w' = driver w
    /\ trace w' = trace w ++ EvGet url :: t
    /\ Forall crawl_event t
    /\ count_event EvScroll t <= Z.to_nat (Scraper.max_scrolls cfg)
    /\ ((exists e, fst (Scraper.scrape_company_body E cfg name url w) = inl e)
        -> l = [])
    /\ ((0 <= Scraper.max_results cfg)%Z ->
        (Z.of_nat (length l) <= Scraper.max_results cfg)%Z).
Proof.
  unfold Scraper.scrape_company, try_except, Scraper.scrape_company_body.
  rewrite bind_emit.
  destruct (nav (site E url)) as [e|].
  { rewrite bind_outcome_Some. eexists [], _, []. split; [reflexivity|].
    simpl. unfold count_event.
    repeat split; try constructor; intros; simpl; lia. }
  rewrite bind_outcome_None, bind_emit.
  destruct (people_tab (site E url)) as [e|].
  { rewrite bind_outcome_Some. eexists [], _, [EvPeopleTab].
    split; [reflexivity|]. simpl. rewrite <- app_assoc.
    repeat split; try apply (crawl_events_after_tab 0).
    - change (count_event EvScroll [EvPeopleTab]) with 0. lia.
    - intros; simpl; lia. }
  rewrite bind_outcome_None. unfold bind at 1.
  match goal with |- context [Scraper.scroll_loop E cfg ?pg ?c ?r ?k ?l ?v] =>
    destruct (scraper_scroll_loop_frame E cfg pg c r k l v)
      as (r1 & w1 & n & Hrun & Hr & Ho & Hd & Hn & Ht) end.
  rewrite Hrun. simpl in Hr, Ho, Hd, Ht. rewrite trace_after_tab in Ht.
  destruct r1 as [e|employees].
  - eexists [], w1, _. split; [reflexivity|].
    split; [exact Hr|]. split; [exact Ho|]. split; [exact Hd|].
    split; [exact Ht|]. split; [apply crawl_events_after_tab|].
    rewrite count_scroll_after_tab. split; [exact Hn|].
    split; [reflexivity|]. intros; simpl; lia.
  - eexists _, w1, _. split; [reflexivity|].
    split; [exact Hr|]. split; [exact Ho|]. split; [exact Hd|].
    split; [exact Ht|]. split; [apply crawl_events_after_tab|].
    rewrite count_scroll_after_tab. split; [exact Hn|]. split.
    + intros [e He]. unfold bind in He. rewrite Hrun in He.
      discriminate He.
    + apply slice_to_length.
Qed.

Lemma run_scraper_scrape_company_frame E cap name url w :
  exists l w' t,
    RunScraper.scrape_company E cap name url w = (inr l, w')
    /\ rows w' = rows w /\ db_ops w' = db_ops w /\ driver w' = driver w
    /\ trace w' = trace w ++ EvGet url :: t
    /\ Forall crawl_event t
    /\ count_event EvScroll t <= RunScraper.max_scrolls
    /\ ((exists e, fst (RunScraper.scrape_company_body E cap name url w) = inl e)
        -> l = [])
    /\ ((0 <= cap)%Z -> (Z.of_nat (length l) <= cap)%Z).
Proof.
  unfold RunScraper.scrape_company, try_except,
    RunScraper.scrape_company_body.
  rewrite bind_emit.
  destruct (nav (site E url)) as [e|].
  { rewrite bind_outcome_Some. eexists [], _, []. split; [reflexivity|].
    simpl. unfold count_event.
    repeat split; try constructor; intros; simpl; lia. }
  rewrite bind_outcome_None, bind_emit.
  destruct (people_tab (site E url)) as [e|].
  { rewrite bind_outcome_Some. eexists [], _, [EvPeopleTab].
    split; [reflexivity|]. simpl. rewrite <- app_assoc.
    repeat split; try apply (crawl_events_after_tab 0).
    - change (count_event EvScroll [EvPeopleTab]) with 0. lia.
    - intros; simpl; lia. }
  rewrite bind_outcome_None. unfold bind at 1.
  match goal with |- context [RunScraper.scroll_loop ?pg ?c ?r ?k ?l ?v] =>
    destruct (run_scraper_scroll_loop_frame pg c r k l v)
      as (r1 & w1 & n & Hrun & Hr & Ho & Hd & Hn & Ht) end.
  rewrite Hrun. simpl in Hr, Ho, Hd, Ht. rewrite trace_after_tab in Ht.
  destruct r1 as [e|employees].
  - eexists [], w1, _. split; [reflexivity|].
    split; [exact Hr|]. split; [exact Ho|]. split; [exact Hd|].
    split; [exact Ht|]. split; [apply crawl_events_after_tab|].
    rewrite count_scroll_after_tab. split; [exact Hn|].
    split; [reflexivity|]. intros; simpl; lia.
  - eexists _, w1, _. split; [reflexivity|].
    split; [exact Hr|]. split; [exact Ho|]. split; [exact Hd|].
    split; [exact Ht|]. split; [apply crawl_events_after_tab|].
    rewrite count_scroll_after_tab. split; [exact Hn|]. split.
    + intros [e He]. unfold bind in He. rewrite Hrun in He.
      discriminate He.
    + apply slice_to_length.
Qed.

(** ** What a crawl returns *)

(** C4, as stated, fails: the page shows the card of Bob after every
    scroll, and both crawlers return his profile five times. *)
Lemma scrape_company_repeats_a_profile :
  (exists l,
     fst (Scraper.scrape_company bob_env (Scraper.Config 100 5) "OrgX"
            orgx_url (fresh_world [])) = inr l
     /\ length l = 5
     /\ ~ NoDup (Employee.profile_url <$> l))
  /\ (exists l,
        fst (RunScraper.scrape_company bob_env 100 "OrgX" orgx_url
               (fresh_world [])) = inr l
        /\ length l = 5
        /\ ~ NoDup (Employee.profile_url <$> l)).
Proof.
  split; eexists; (split; [vm_compute; reflexivity|]);
    (split; [reflexivity|]); intros H;
    apply NoDup_cons in H as [Hnotin _]; apply Hnotin; left.
Qed.

(** C4, amended.  On a page whose scrolls raise nothing but absent
    sub-elements, and with a cap that is not negative, both crawlers
    return the first [cap] of the records of all well-formed cards shown
    after the first scroll, then after the second, and so on up to the
    last scroll the counter allows: a card is recorded once for every
    scroll after which it is shown. *)
Theorem scrape_company_records_every_showing E cfg cap name url w :
  (0 <= Scraper.max_results cfg)%Z ->
  (0 <= cap)%Z ->
  calm (site E url) (Z.to_nat (Scraper.max_scrolls cfg)) ->
  calm (site E url) RunScraper.max_scrolls ->
  (exists l w',
     Scraper.scrape_company E cfg name url w = (inr l, w')
     /\ Employee.fields <$> l
        = take (Z.to_nat (Scraper.max_results cfg))
            (concat (step_fields (site E url)
                     <$> seq 0 (Z.to_nat (Scraper.max_scrolls cfg)))))
  /\ (exists l w',
        RunScraper.scrape_company E cap name url w = (inr l, w')
        /\ Employee.fields <$> l
           = take (Z.to_nat cap)
               (concat (step_fields (site E url)
                        <$> seq 0 RunScraper.max_scrolls))).
Proof.
  intros Hmax Hcap (Hnav1 & Htab1 & Hc1) (Hnav2 & Htab2 & Hc2). split.
  - unfold Scraper.scrape_company, try_except, Scraper.scrape_company_body.
    rewrite bind_emit, Hnav1, bind_outcome_None, bind_emit, Htab1,
      bind_outcome_None.
    unfold bind at 1.
    match goal with |- context [Scraper.scroll_loop E cfg ?pg ?c ?r ?k ?l ?v] =>
      destruct (scraper_scroll_loop_calm E cfg pg c r k l v)
        as (new & rest & w' & Hrun & Hcat & Hfull & _) end.
    { intros j Hj. apply Hc1. lia. }
    rewrite Hrun. eexists _, w'. split; [reflexivity|].
    rewrite slice_to_nonneg by exact Hmax.
    rewrite Hcat, fmap_take. simpl. symmetry. apply take_prefix_enough.
    destruct Hfull as [Hrest|Hlen]; [now left|right].
    rewrite length_fmap. simpl in Hlen. lia.
  - unfold RunScraper.scrape_company, try_except,
      RunScraper.scrape_company_body.
    rewrite bind_emit, Hnav2, bind_outcome_None, bind_emit, Htab2,
      bind_outcome_None.
    unfold bind at 1.
    match goal with |- context [RunScraper.scroll_loop ?pg ?c ?r ?k ?l ?v] =>
      destruct (run_scraper_scroll_loop_calm pg c r k l v)
        as (new & w' & Hrun & Hcat & _ & _) end.
    { intros j Hj. apply Hc2. lia. }
    rewrite Hrun. eexists _, w'. split; [reflexivity|].
    rewrite slice_to_nonneg by exact Hcap.
    now rewrite Hcat, fmap_take.
Qed.

Lemma scrape_company_records_every_showing_witness :
  (exists l w',
     Scraper.scrape_company bob_env (Scraper.Config 3 2) "OrgX" orgx_url
       (fresh_world []) = (inr l, w')
     /\ Employee.fields <$> l
        = take (Z.to_nat 3)
            (concat (step_fields bob_page <$> seq 0 (Z.to_nat 2))))
  /\ (exists l w',
        RunScraper.scrape_company bob_env 3 "OrgX" orgx_url (fresh_world [])
        = (inr l, w')
        /\ Employee.fields <$> l
           = take (Z.to_nat 3)
               (concat (step_fields bob_page <$> seq 0 RunScraper.max_scrolls))).
Proof.
  apply (scrape_company_records_every_showing bob_env (Scraper.Config 3 2) 3
           "OrgX" orgx_url (fresh_world [])).
  - simpl. lia.
  - lia.
  - repeat split. intros k _. exists [bob_card]. split; [reflexivity|].
    repeat constructor. eexists. reflexivity.
  - repeat split. intros k _. exists [bob_card]. split; [reflexivity|].
    repeat constructor. eexists. reflexivity.
Defined.

(** C5, on the failing input.  The cap is 1 and the page shows one card
    after every scroll.  The crawler of [run_scraper.py] has its one
    record after the first scroll and scrolls four more times; the
    crawler of [scraper.py] leaves its loop after the first scroll.  Both
    return the one record. *)
Theorem run_scraper_scrolls_on_at_the_cap :
  (exists e w',
     RunScraper.scrape_company bob_env 1 "OrgX" orgx_url (fresh_world [])
     = (inr [e], w')
     /\ count_event EvScroll (trace w') = 5)
  /\ (exists e w',
        Scraper.scrape_company bob_env (Scraper.Config 1 5) "OrgX" orgx_url
          (fresh_world []) = (inr [e], w')
        /\ count_event EvScroll (trace w') = 1).
Proof. split; eexists _, _; (split; [vm_compute|]); reflexivity. Qed.

(** X7.  Whatever the cap, on a calm page the crawler of [run_scraper.py]
    scrolls as often as its counter allows. *)
Lemma run_scraper_scrolls_max_scrolls_times E cap name url w :
  calm (site E url) RunScraper.max_scrolls ->
  count_event EvScroll
    (trace (snd (RunScraper.scrape_company E cap name url w)))
  = count_event EvScroll (trace w) + RunScraper.max_scrolls.
Proof.
  intros (Hnav & Htab & Hc).
  unfold RunScraper.scrape_company, try_except,
    RunScraper.scrape_company_body.
  rewrite bind_emit, Hnav, bind_outcome_None, bind_emit, Htab,
    bind_outcome_None.
  unfold bind at 1.
  match goal with |- context [RunScraper.scroll_loop ?pg ?c ?r ?k ?l ?v] =>
    destruct (run_scraper_scroll_loop_calm pg c r k l v)
      as (new & w' & Hrun & _ & _ & Ht) end.
  { intros j Hj. apply Hc. lia. }
  rewrite Hrun. simpl. rewrite Ht. simpl trace.
  rewrite !count_event_app, count_event_replicate.
  change (count_event EvScroll [EvGet url]) with 0.
  change (count_event EvScroll [EvPeopleTab]) with 0. lia.
Qed.

(** ** The batch *)

Lemma gets_app t1 t2 : gets (t1 ++ t2) = gets t1 ++ gets t2.
Proof. apply omap_app. Qed.

Lemma gets_crawl url t :
  Forall crawl_event t -> gets (EvGet url :: t) = [url].
Proof.
  intros H. change (EvGet url :: t) with ([EvGet url] ++ t).
  rewrite gets_app, (gets_crawl_events t H). reflexivity.
Qed.

Lemma count_quit_crawl url t :
  Forall crawl_event t -> count_event EvQuit (EvGet url :: t) = 0.
Proof.
  intros H. change (EvGet url :: t) with ([EvGet url] ++ t).
  rewrite count_event_app, (count_quit_crawl_events t H). reflexivity.
Qed.

Lemma getitem_Some (d : gmap string string) key v w :
  d !! key = Some v -> getitem d key w = (inr v, w).
Proof. intros H. unfold getitem. now rewrite H. Qed.

Lemma getitem_frame (d : gmap string string) key w :
  snd (getitem d key w) = w.
Proof. unfold getitem. now destruct (d !! key). Qed.

Lemma process_changes_ok E employees w :
  db_ok E ->
  exists changes w',
    process_changes E employees w = (inr changes, w')
    /\ rows w' = rows w /\ trace w' = trace w /\ driver w' = driver w.
Proof.
  intros Hok. rewrite process_changes_unfold.
  destruct (process_loop_ok E employees Hok [] w)
    as (new & w' & Hrun & Hr & Ht & Hd & _).
  exists new, w'. now repeat split.
Qed.

(** The copies of [process_changes] and [save_job_changes] in
    [run_scraper.py] return on an empty list and stop at the name
    [JobChange] on any other, before any round trip to the store. *)
Lemma run_scraper_process_changes_nil E w :
  RunScraper.process_changes E [] w = (inr [], w).
Proof. reflexivity. Qed.

Lemma run_scraper_process_changes_cons E employee rest w :
  RunScraper.process_changes E (employee :: rest) w
  = (inl (NameError "JobChange"), w).
Proof. reflexivity. Qed.

Lemma run_scraper_save_job_changes_cons E change rest w :
  RunScraper.save_job_changes E (change :: rest) w
  = (inl (NameError "JobChange"), w).
Proof. reflexivity. Qed.

Section Batch.
Variable E : env.
Variable cap : Z.

Lemma scrape_loop_app done todo :
  forall w,
    WorkflowsApp.scrape_loop E cap (done ++ todo) w
    = bind (WorkflowsApp.scrape_loop E cap done)
        (fun _ => WorkflowsApp.scrape_loop E cap todo) w.
Proof.
  induction done as [|company rest IH]; intros w; [reflexivity|].
  simpl app. simpl WorkflowsApp.scrape_loop. unfold bind in *.
  destruct (getitem company "name" w) as [[e|n] w1]; [reflexivity|].
  destruct (getitem company "url" w1) as [[e|u] w2]; [reflexivity|].
  destruct (RunScraper.scrape_company E cap n u w2) as [[e|employees] w3];
    [reflexivity|].
  destruct (process_changes E employees w3) as [[e|changes] w4];
    [reflexivity|].
  destruct (save_job_changes E changes w4) as [[e|[]] w5];
    [reflexivity|apply IH].
Qed.

Lemma scrape_loop_ok companies :
  db_ok E ->
  Forall has_name_and_url companies ->
  forall w,
  exists w',
    WorkflowsApp.scrape_loop E cap companies w = (inr tt, w')
    /\ driver w' = driver w
    /\ gets (trace w') = gets (trace w) ++ urls companies
    /\ count_event EvQuit (trace w') = count_event EvQuit (trace w)
    /\ rows w `prefix_of` rows w'.
Proof.
  intros Hok. induction 1 as [|company rest [[n Hn] [u Hu]] _ IH];
    intros w.
  - exists w. simpl. unfold urls. simpl. rewrite app_nil_r.
    now repeat split.
  - simpl WorkflowsApp.scrape_loop.
    rewrite (bind_inr _ _ _ _ _ (getitem_Some _ _ _ w Hn)).
    rewrite (bind_inr _ _ _ _ _ (getitem_Some _ _ _ w Hu)).
    destruct (run_scraper_scrape_company_frame E cap n u w)
      as (l & w1 & t & Hrun1 & Hr1 & _ & Hd1 & Ht1 & Hcrawl & _).
    rewrite (bind_inr _ _ _ _ _ Hrun1).
    destruct (process_changes_ok E l w1 Hok)
      as (changes & w2 & Hrun2 & Hr2 & Ht2 & Hd2).
    rewrite (bind_inr _ _ _ _ _ Hrun2).
    assert (Hgets : gets (trace w2) = gets (trace w) ++ [u]).
    { rewrite Ht2, Ht1, gets_app. now rewrite gets_crawl. }
    assert (Hquit : count_event EvQuit (trace w2)
                    = count_event EvQuit (trace w)).
    { rewrite Ht2, Ht1, count_event_app, count_quit_crawl by exact Hcrawl.
      lia. }
    assert (Hurls : urls (company :: rest) = u :: urls rest).
    { unfold urls. now rewrite (omap_cons_Some _ _ _ _ Hu). }
    rewrite Hurls.
    destruct (save_job_changes_ok E changes w2 Hok)
      as (w3 & Hrun3 & Ht3 & Hd3 & Hr3).
    rewrite (bind_inr _ _ _ _ _ Hrun3).
    destruct (IH w3) as (w' & Hrun & Hd & Hg & Hq & Hp).
    exists w'. split; [exact Hrun|].
    rewrite Hd, Hd3, Hd2, Hd1, Hg, Ht3, Hgets, Hq, Ht3, Hquit,
      <- app_assoc.
    repeat split. etransitivity; [|exact Hp].
    rewrite Hr3, Hr2, Hr1. now apply prefix_app_r.
Qed.

(** In [run_scraper.py] an organization that yields no record is passed
    over, and one that yields a record ends the loop. *)
Lemma main_loop_passes_over company rest n u total w w1 :
  company !! "name"%string = Some n ->
  company !! "url"%string = Some u ->
  RunScraper.scrape_company E cap n u w = (inr [], w1) ->
  RunScraper.main_loop E cap (company :: rest) total w
  = RunScraper.main_loop E cap rest total w1.
Proof.
  intros Hn Hu Hrun. simpl RunScraper.main_loop.
  rewrite (bind_inr _ _ _ _ _ (getitem_Some _ _ _ w Hn)).
  rewrite (bind_inr _ _ _ _ _ (getitem_Some _ _ _ w Hu)).
  rewrite (bind_inr _ _ _ _ _ Hrun).
  now rewrite (bind_inr _ _ _ _ _ (run_scraper_process_changes_nil E w1)).
Qed.

Lemma main_loop_ends_at_a_record company rest n u total w employee l w1 :
  company !! "name"%string = Some n ->
  company !! "url"%string = Some u ->
  RunScraper.scrape_company E cap n u w = (inr (employee :: l), w1) ->
  RunScraper.main_loop E cap (company :: rest) total w
  = (inl (NameError "JobChange"), w1).
Proof.
  intros Hn Hu Hrun. simpl RunScraper.main_loop.
  rewrite (bind_inr _ _ _ _ _ (getitem_Some _ _ _ w Hn)).
  rewrite (bind_inr _ _ _ _ _ (getitem_Some _ _ _ w Hu)).
  rewrite (bind_inr _ _ _ _ _ Hrun).
  now rewrite (bind_inl _ _ _ _ _
                 (run_scraper_process_changes_cons E employee l w1)).
Qed.

Lemma main_loop_stores_nothing companies :
  forall total w,
  exists r w',
    RunScraper.main_loop E cap companies total w = (r, w')
    /\ rows w' = rows w /\ db_ops w' = db_ops w
    /\ (forall total', r = inr total' -> total' = total).
Proof.
  induction companies as [|company rest IH]; intros total w.
  { exists (inr total), w. repeat split. now intros total' [= <-]. }
  simpl RunScraper.main_loop. unfold bind at 1.
  pose proof (getitem_frame company "name" w) as Hf1.
  destruct (getitem company "name" w) as [[e|n] v1]; simpl in Hf1; subst v1.
  { eexists _, _. split; [reflexivity|]. repeat split. discriminate. }
  unfold bind at 1.
  pose proof (getitem_frame company "url" w) as Hf2.
  destruct (getitem company "url" w) as [[e|u] v2]; simpl in Hf2; subst v2.
  { eexists _, _. split; [reflexivity|]. repeat split. discriminate. }
  destruct (run_scraper_scrape_company_frame E cap n u w)
    as (l & w1 & t & Hrun1 & Hr1 & Ho1 & _).
  rewrite (bind_inr _ _ _ _ _ Hrun1).
  destruct l as [|employee l].
  - rewrite (bind_inr _ _ _ _ _ (run_scraper_process_changes_nil E w1)).
    destruct (IH total w1) as (r & w' & Hrun & Hr & Ho & Ht).
    exists r, w'. split; [exact Hrun|].
    split; [congruence|]. split; [congruence|exact Ht].
  - rewrite (bind_inl _ _ _ _ _
               (run_scraper_process_changes_cons E employee l w1)).
    eexists _, _. split; [reflexivity|]. repeat split; try assumption.
    discriminate.
Qed.
End Batch.

(** X28.  The crawl of one organization never raises, in either crawler:
    it returns a list, and the empty list whenever its [try] block has
    raised, be it at the navigation, at the People tab or while scrolling.
    In the batch loop of the dashboard, with a store that reports no
    fault and configuration entries that have their two keys, every
    organization is navigated to, in the order of the configuration,
    whatever the pages do; and the rows that were in the table after the
    organizations handled so far are still there, in front, when the
    batch is over. *)
Theorem crawl_failure_does_not_stop_the_dashboard_batch E cap done todo w :
  db_ok E ->
  Forall has_name_and_url (done ++ todo) ->
  (forall cfg name url v,
     exists l v',
       Scraper.scrape_company E cfg name url v = (inr l, v')
       /\ ((exists e, fst (Scraper.scrape_company_body E cfg name url v)
                      = inl e) -> l = []))
  /\ (forall name url v,
        exists l v',
          RunScraper.scrape_company E cap name url v = (inr l, v')
          /\ ((exists e, fst (RunScraper.scrape_company_body E cap name url v)
                         = inl e) -> l = []))
  /\ exists w1 w2,
       WorkflowsApp.scrape_loop E cap done w = (inr tt, w1)
       /\ WorkflowsApp.scrape_loop E cap todo w1 = (inr tt, w2)
       /\ WorkflowsApp.scrape_loop E cap (done ++ todo) w = (inr tt, w2)
       /\ gets (trace w2) = gets (trace w) ++ urls (done ++ todo)
       /\ rows w1 `prefix_of` rows w2.
Proof.
  intros Hok Hall. split; [|split].
  - intros cfg name url v.
    destruct (scraper_scrape_company_frame E cfg name url v)
      as (l & v' & t & Hrun & _ & _ & _ & _ & _ & _ & Hfail & _).
    exists l, v'. now split.
  - intros name url v.
    destruct (run_scraper_scrape_company_frame E cap name url v)
      as (l & v' & t & Hrun & _ & _ & _ & _ & _ & _ & Hfail & _).
    exists l, v'. now split.
  - apply Forall_app in Hall as [Hdone Htodo].
    destruct (scrape_loop_ok E cap done Hok Hdone w)
      as (w1 & Hrun1 & _ & Hg1 & _ & _).
    destruct (scrape_loop_ok E cap todo Hok Htodo w1)
      as (w2 & Hrun2 & _ & Hg2 & _ & Hp2).
    exists w1, w2.
    split; [exact Hrun1|]. split; [exact Hrun2|]. split.
    + rewrite scrape_loop_app. now rewrite (bind_inr _ _ _ _ _ Hrun1).
    + split; [|exact Hp2].
      rewrite Hg2, Hg1, <- app_assoc. unfold urls. now rewrite omap_app.
Qed.

Lemma crawl_failure_does_not_stop_the_dashboard_batch_witness :
  db_ok three_env
  /\ Forall has_name_and_url three_companies
  /\ exists w2,
       WorkflowsApp.scrape_loop three_env 100 three_companies (fresh_world [])
       = (inr tt, w2)
       /\ gets (trace w2) = urls three_companies.
Proof.
  assert (Hok : db_ok three_env) by (intros k; reflexivity).
  assert (Hall : Forall has_name_and_url three_companies)
    by (repeat constructor; eexists; reflexivity).
  split; [exact Hok|]. split; [exact Hall|].
  destruct (crawl_failure_does_not_stop_the_dashboard_batch three_env 100
              [company_entry "OrgA" "https://example.org/company/a";
               company_entry "OrgB" "https://example.org/company/b"]
              [company_entry "OrgC" "https://example.org/company/c"]
              (fresh_world []) Hok Hall)
    as (_ & _ & w1 & w2 & _ & _ & Hrun & Hg & _).
  exists w2. split; [exact Hrun|exact Hg].
Defined.

(** C6, on the failing input.  Three organizations are configured; the
    page of the first, OrgB, does not load, the pages of OrgA and OrgC
    show a card.  In [main] of [run_scraper.py] the failed crawl of OrgB
    is passed over and OrgA is crawled; its records then make
    [process_changes] raise the [NameError], which the handler of [main]
    takes for the end of the batch: OrgC, an organization after the one
    that failed, is never navigated to, no row is stored and no summary
    is printed.  The loop of the dashboard, which has the same text and
    the class, navigates to all three and stores the rows of OrgA and
    OrgC. *)
Theorem run_scraper_batch_ends_at_the_first_record :
  (let r := RunScraper.main three_env 100 b_first_companies (fresh_world []) in
   fst r = inr tt
   /\ trace (snd r)
      = [EvLaunch; EvLogin; EvGet "https://example.org/company/b";
         EvGet "https://example.org/company/a"; EvPeopleTab;
         EvScroll; EvScroll; EvScroll; EvScroll; EvScroll; EvQuit]%string
   /\ rows (snd r) = [])
  /\ (let r := WorkflowsApp.show_scrape_page three_env 100 b_first_companies
                 (fresh_world []) in
      gets (trace (snd r))
      = ["https://example.org/company/b"; "https://example.org/company/a";
         "https://example.org/company/c"]%string
      /\ JobChange.company <$> rows (snd r)
         = replicate 5 (Some "OrgA"%string)
           ++ replicate 5 (Some "OrgC"%string)).
Proof. vm_compute. repeat split. Qed.

(** The batch of the dashboard over three organizations of which the
    second does not load: all three are navigated to, and the rows of the
    first and of the third are in the table. *)
Example batch_with_a_page_that_does_not_load :
  let w' := snd (WorkflowsApp.show_scrape_page three_env 100 three_companies
                   (fresh_world [])) in
  gets (trace w')
  = ["https://example.org/company/a"; "https://example.org/company/b";
     "https://example.org/company/c"]%string
  /\ JobChange.company <$> rows w'
     = replicate 5 (Some "OrgA"%string) ++ replicate 5 (Some "OrgC"%string)
  /\ count_event EvQuit (trace w') = 1.
Proof. vm_compute. repeat split. Qed.

(** ** The session *)

Lemma process_loop_frame E employees :
  forall acc w,
    let w' := snd (process_loop E employees acc w) in
    rows w' = rows w /\ trace w' = trace w /\ driver w' = driver w.
Proof.
  induction employees as [|employee rest IH]; intros acc w; [now simpl|].
  simpl process_loop. unfold bind at 1, query_first.
  destruct (db_fault E (db_ops w)); [now simpl|].
  destruct (find _ (rows w)) as [ex|].
  - destruct (bool_decide _).
    + unfold bind at 1, now.
      match goal with |- context [process_loop E rest ?a ?v] =>
        destruct (IH a v) as (Hr & Ht & Hd) end.
      now repeat split.
    + match goal with |- context [process_loop E rest ?a ?v] =>
        destruct (IH a v) as (Hr & Ht & Hd) end.
      now repeat split.
  - unfold bind at 1, now.
    match goal with |- context [process_loop E rest ?a ?v] =>
      destruct (IH a v) as (Hr & Ht & Hd) end.
    now repeat split.
Qed.

Lemma process_changes_frame E employees w :
  let w' := snd (process_changes E employees w) in
  rows w' = rows w /\ trace w' = trace w /\ driver w' = driver w.
Proof. rewrite process_changes_unfold. apply process_loop_frame. Qed.

Lemma save_job_changes_frame E changes w :
  let w' := snd (save_job_changes E changes w) in
  trace w' = trace w /\ driver w' = driver w.
Proof.
  destruct (save_job_changes_spec E changes w) as (r & w' & Hrun & Ht & Hd & _).
  rewrite Hrun. now split.
Qed.

Lemma keeps_session_bind {A B} (m : M A) (k : A -> M B) :
  keeps_session m -> (forall a, keeps_session (k a)) ->
  keeps_session (bind m k).
Proof.
  intros Hm Hk w. unfold bind. specialize (Hm w).
  destruct (m w) as [[e|a] w1]; simpl in Hm; [exact Hm|].
  destruct (Hk a w1) as [Hd Hq]. destruct Hm as [Hd1 Hq1].
  split; congruence.
Qed.

Lemma keeps_session_ret {A} (a : A) : keeps_session (ret a).
Proof. intros w. now split. Qed.

Lemma keeps_session_try_except {A} (m : M A) (h : exn -> M A) :
  keeps_session m -> (forall e, keeps_session (h e)) ->
  keeps_session (try_except m h).
Proof.
  intros Hm Hh w. unfold try_except. specialize (Hm w).
  destruct (m w) as [[e|a] w1]; simpl in Hm; [|exact Hm].
  destruct (Hh e w1) as [Hd Hq]. destruct Hm as [Hd1 Hq1].
  split; congruence.
Qed.

Lemma keeps_session_getitem d key : keeps_session (getitem d key).
Proof. intros w. rewrite getitem_frame. now split. Qed.

Lemma keeps_session_emit ev : ev <> EvQuit -> keeps_session (emit ev).
Proof.
  intros Hev w. simpl. split; [reflexivity|].
  rewrite count_event_app. unfold count_event at 2.
  rewrite filter_cons, decide_False by exact Hev. simpl. lia.
Qed.

Lemma keeps_session_outcome o : keeps_session (outcome o).
Proof. intros w. destruct o; now split. Qed.

Lemma keeps_session_scraper_scrape_company E cfg name url :
  keeps_session (Scraper.scrape_company E cfg name url).
Proof.
  intros w.
  destruct (scraper_scrape_company_frame E cfg name url w)
    as (l & w' & t & Hrun & _ & _ & Hd & Ht & Hcrawl & _).
  rewrite Hrun. simpl. split; [exact Hd|].
  rewrite Ht, count_event_app, (count_quit_crawl url t Hcrawl). lia.
Qed.

Lemma keeps_session_run_scraper_scrape_company E cap name url :
  keeps_session (RunScraper.scrape_company E cap name url).
Proof.
  intros w.
  destruct (run_scraper_scrape_company_frame E cap name url w)
    as (l & w' & t & Hrun & _ & _ & Hd & Ht & Hcrawl & _).
  rewrite Hrun. simpl. split; [exact Hd|].
  rewrite Ht, count_event_app, (count_quit_crawl url t Hcrawl). lia.
Qed.

Lemma keeps_session_process_changes E employees :
  keeps_session (process_changes E employees).
Proof.
  intros w. destruct (process_changes_frame E employees w) as (_ & Ht & Hd).
  split; [exact Hd|now rewrite Ht].
Qed.

Lemma keeps_session_save_job_changes E changes :
  keeps_session (save_job_changes E changes).
Proof.
  intros w. destruct (save_job_changes_frame E changes w) as (Ht & Hd).
  split; [exact Hd|now rewrite Ht].
Qed.

Lemma keeps_session_login E : keeps_session (RunScraper.login E).
Proof.
  apply keeps_session_try_except.
  - apply keeps_session_bind; [now apply keeps_session_emit|].
    intros _. apply keeps_session_outcome.
  - intros e w. now split.
Qed.

Lemma keeps_session_run_scraper_process_changes E employees :
  keeps_session (RunScraper.process_changes E employees).
Proof. intros w. destruct employees; now split. Qed.

Lemma keeps_session_run_scraper_save_job_changes E change changes :
  keeps_session (RunScraper.save_job_changes E (change :: changes)).
Proof. intros w. now split. Qed.

Lemma keeps_session_main_loop E cap companies :
  forall total, keeps_session (RunScraper.main_loop E cap companies total).
Proof.
  induction companies as [|company rest IH]; intros total;
    [apply keeps_session_ret|].
  simpl RunScraper.main_loop.
  apply keeps_session_bind; [apply keeps_session_getitem|]. intros n.
  apply keeps_session_bind; [apply keeps_session_getitem|]. intros u.
  apply keeps_session_bind;
    [apply keeps_session_run_scraper_scrape_company|]. intros employees.
  apply keeps_session_bind;
    [apply keeps_session_run_scraper_process_changes|].
  intros [|change changes]; [apply IH|].
  apply keeps_session_bind;
    [apply keeps_session_run_scraper_save_job_changes|].
  intros _. apply IH.
Qed.

Lemma keeps_session_scrape_loop E cap companies :
  keeps_session (WorkflowsApp.scrape_loop E cap companies).
Proof.
  induction companies as [|company rest IH]; [apply keeps_session_ret|].
  simpl WorkflowsApp.scrape_loop.
  apply keeps_session_bind; [apply keeps_session_getitem|]. intros n.
  apply keeps_session_bind; [apply keeps_session_getitem|]. intros u.
  apply keeps_session_bind;
    [apply keeps_session_run_scraper_scrape_company|]. intros employees.
  apply keeps_session_bind; [apply keeps_session_process_changes|].
  intros changes.
  apply keeps_session_bind; [apply keeps_session_save_job_changes|].
  intros _. apply IH.
Qed.

Lemma companies_loop_frame E cfg companies :
  forall all_employees w,
    let w' := snd (Scraper.companies_loop E cfg companies all_employees w) in
    driver w' = driver w
    /\ count_event EvQuit (trace w') = count_event EvQuit (trace w).
Proof.
  induction companies as [|company rest IH]; intros all_employees w;
    [now split|].
  simpl Scraper.companies_loop.
  assert (Hk : keeps_session
                 (company_name <- getitem company "name"%string ;;
                  company_url <- getitem company "url"%string ;;
                  Scraper.scrape_company E cfg company_name company_url)).
  { apply keeps_session_bind; [apply keeps_session_getitem|]. intros n.
    apply keeps_session_bind; [apply keeps_session_getitem|]. intros u.
    apply keeps_session_scraper_scrape_company. }
  specialize (Hk w).
  match type of Hk with context [snd (?m w)] =>
    destruct (m w) as [[e|employees] w1] end; simpl in Hk; [exact Hk|].
  destruct (IH (all_employees ++ employees) w1) as [Hd Hq].
  destruct Hk as [Hd1 Hq1]. split; congruence.
Qed.

(** The three ways the launch and the login can go. *)
Lemma setup_then_login E w :
  driver w = false ->
  exists r w1,
    (Scraper.setup_driver E ;;; Scraper.login E) w = (r, w1)
    /\ count_event EvQuit (trace w1) = count_event EvQuit (trace w)
    /\ driver w1 = match launch_outcome E with None => true | Some _ => false end.
Proof.
  intros Hd. unfold Scraper.setup_driver, Scraper.login, try_except, bind,
    emit, outcome.
  destruct (launch_outcome E) as [e|]; simpl.
  - eexists _, _. split; [reflexivity|]. simpl.
    rewrite count_event_app. split; [|exact Hd].
    change (count_event EvQuit [EvLaunch]) with 0. lia.
  - destruct (login_outcome E) as [e|]; simpl;
      (eexists _, _; split; [reflexivity|]); simpl;
      rewrite !count_event_app;
      change (count_event EvQuit [EvLaunch]) with 0;
      change (count_event EvQuit [EvLogin]) with 0;
      (split; [lia|reflexivity]).
Qed.

Lemma scraper_close_spec E w :
  Scraper.close E w
  = if driver w
    then (match quit_outcome E with
          | Some e => inl e
          | None => inr tt
          end, set_trace w (trace w ++ [EvQuit]))
    else (inr tt, w).
Proof.
  unfold Scraper.close. destruct (driver w); [|reflexivity].
  rewrite bind_emit. now destruct (quit_outcome E).
Qed.

Lemma run_scraper_close_spec E w :
  RunScraper.close E w
  = if driver w
    then (match quit_outcome E with
          | Some e => inl e
          | None => inr tt
          end, set_trace w (trace w ++ [EvQuit]))
    else (inr tt, w).
Proof.
  unfold RunScraper.close. destruct (driver w); [|reflexivity].
  rewrite bind_emit. now destruct (quit_outcome E).
Qed.

Lemma count_quit_snoc t :
  count_event EvQuit (t ++ [EvQuit]) = count_event EvQuit t + 1.
Proof. now rewrite count_event_app. Qed.

Lemma scrape_multiple_companies_release E cfg companies w :
  driver w = false ->
  exists r w',
    Scraper.scrape_multiple_companies E cfg companies w = (r, w')
    /\ count_event EvQuit (trace w')
       = count_event EvQuit (trace w) + released E
    /\ (forall e,
          r = inl e <-> launch_outcome E = None /\ quit_outcome E = Some e).
Proof.
  intros Hd. unfold Scraper.scrape_multiple_companies, try_finally.
  destruct (setup_then_login E w Hd) as (r0 & w1 & Hrun & Hq1 & Hd1).
  rewrite Hrun.
  assert (Hbody : exists l w2,
            (match r0 with
             | inl _ => (inr [], w1)
             | inr _ =>
                 let '(all_employees, _, w2) :=
                   Scraper.companies_loop E cfg companies [] w1 in
                 (inr all_employees, w2)
             end : (exn + list Employee.t) * world) = (inr l, w2)
            /\ driver w2 = driver w1
            /\ count_event EvQuit (trace w2) = count_event EvQuit (trace w1)).
  { destruct r0 as [e|[]].
    - exists [], w1. now repeat split.
    - pose proof (companies_loop_frame E cfg companies [] w1) as Hf.
      destruct (Scraper.companies_loop E cfg companies [] w1)
        as [[all_employees oe] w2].
      exists all_employees, w2. simpl in Hf. now split. }
  destruct Hbody as (l & w2 & -> & Hd2 & Hq2).
  rewrite scraper_close_spec, Hd2, Hd1. unfold released.
  destruct (launch_outcome E) as [e0|].
  - eexists _, _. split; [reflexivity|]. split; [lia|].
    intros e. split; [discriminate|]. intros [Hc _]. discriminate Hc.
  - destruct (quit_outcome E) as [eq|];
      (eexists _, _; split; [reflexivity|]); simpl;
      rewrite count_quit_snoc; (split; [lia|]); intros e; split.
    + intros [= <-]. now split.
    + intros [_ [= <-]]. reflexivity.
    + discriminate.
    + intros [_ Hc]. discriminate Hc.
Qed.

Lemma run_scraper_setup_driver_spec E w :
  RunScraper.setup_driver E w
  = match launch_outcome E with
    | Some e => (inl e, set_trace w (trace w ++ [EvLaunch]))
    | None => (inr tt, set_driver (set_trace w (trace w ++ [EvLaunch])) true)
    end.
Proof.
  unfold RunScraper.setup_driver. rewrite bind_emit.
  now destruct (launch_outcome E).
Qed.

Lemma main_release E cap companies w :
  exists r w',
    RunScraper.main E cap companies w = (r, w')
    /\ count_event EvQuit (trace w')
       = count_event EvQuit (trace w)
         + match companies with [] => 0 | _ :: _ => released E end.
Proof.
  unfold RunScraper.main, released.
  destruct companies as [|company rest].
  { eexists _, _. split; [reflexivity|]. simpl. lia. }
  unfold bind at 1. rewrite run_scraper_setup_driver_spec.
  destruct (launch_outcome E) as [e|].
  { eexists _, _. split; [reflexivity|].
    simpl. rewrite count_event_app.
    change (count_event EvQuit [EvLaunch]) with 0. lia. }
  unfold try_finally.
  match goal with |- context [try_except ?m ?h ?v] =>
    assert (Hk : keeps_session (try_except m h)) end.
  { apply keeps_session_try_except; [|intros e; apply keeps_session_ret].
    apply keeps_session_bind; [apply keeps_session_login|]. intros _.
    apply keeps_session_bind; [apply keeps_session_main_loop|]. intros t.
    now apply keeps_session_emit. }
  match goal with |- context [try_except ?m ?h ?v] =>
    specialize (Hk v); destruct (try_except m h v) as [r1 w1] end.
  simpl in Hk. destruct Hk as [Hd Hq].
  rewrite run_scraper_close_spec, Hd.
  destruct (quit_outcome E) as [eq|];
    (eexists _, _; split; [reflexivity|]); simpl;
    rewrite count_quit_snoc, Hq, count_event_app;
    change (count_event EvQuit [EvLaunch]) with 0; lia.
Qed.

Lemma show_scrape_page_body_release E cap companies w w' :
  WorkflowsApp.show_scrape_page_body E cap companies w = (inr tt, w') ->
  count_event EvQuit (trace w') = count_event EvQuit (trace w) + 1.
Proof.
  unfold WorkflowsApp.show_scrape_page_body.
  unfold bind at 1. rewrite run_scraper_setup_driver_spec.
  destruct (launch_outcome E) as [e|]; [discriminate|].
  unfold bind at 1.
  match goal with |- context [RunScraper.login E ?v] =>
    pose proof (keeps_session_login E v) as Hl;
    destruct (RunScraper.login E v) as [[e|[]] w1] end; [discriminate|].
  unfold bind at 1.
  pose proof (keeps_session_scrape_loop E cap companies w1) as Hs.
  destruct (WorkflowsApp.scrape_loop E cap companies w1) as [[e|[]] w2];
    [discriminate|].
  simpl in Hl, Hs. destruct Hl as [Hd1 Hq1], Hs as [Hd2 Hq2].
  rewrite run_scraper_close_spec, Hd2, Hd1.
  destruct (quit_outcome E); [discriminate|]. intros [= <-]. simpl.
  rewrite count_quit_snoc, Hq2, Hq1, count_event_app.
  change (count_event EvQuit [EvLaunch]) with 0. lia.
Qed.

(** C8, as stated, fails twice: when the login is refused on the scrape
    page of the dashboard, the browser that was launched is never quit;
    and when the browser does not shut down cleanly, the exception of
    [quit] leaves [close] and, through the [finally], the whole of
    [scrape_multiple_companies]. *)
Lemma session_not_always_released_quietly :
  (exists w',
     WorkflowsApp.show_scrape_page refused_env 100 three_companies
       (fresh_world []) = (inr tt, w')
     /\ trace w' = [EvLaunch; EvLogin]
     /\ count_event EvQuit (trace w') = 0)
  /\ fst (Scraper.close stuck_env (World [] 0 0 true []))
     = inl WebDriverException
  /\ fst (Scraper.scrape_multiple_companies stuck_env (Scraper.Config 100 5)
            three_companies (fresh_world []))
     = inl WebDriverException.
Proof.
  split; [eexists; split; [vm_compute; reflexivity|]; now split|].
  split; vm_compute; reflexivity.
Qed.

(** C8, amended.  Where the batch runs under a [finally], that is in
    [scrape_multiple_companies] and in [main] of [run_scraper.py], the
    browser that was launched is quit exactly once on every exit path,
    whether the batch completes, the login fails or an exception comes up
    in the middle (and no browser is quit when none was launched).  The
    scrape page of the dashboard quits exactly once when its [try] block
    completes.  [close] quits the driver with no handler around it: what
    [quit] raises, [close] raises, and [scrape_multiple_companies] raises
    it in turn. *)
Theorem session_released_once_under_finally E cfg cap companies w :
  driver w = false ->
  (exists r w',
     Scraper.scrape_multiple_companies E cfg companies w = (r, w')
     /\ count_event EvQuit (trace w')
        = count_event EvQuit (trace w) + released E
     /\ (forall e,
           r = inl e <-> launch_outcome E = None /\ quit_outcome E = Some e))
  /\ (exists r w',
        RunScraper.main E cap companies w = (r, w')
        /\ count_event EvQuit (trace w')
           = count_event EvQuit (trace w)
             + match companies with [] => 0 | _ :: _ => released E end)
  /\ (forall w',
        WorkflowsApp.show_scrape_page_body E cap companies w = (inr tt, w') ->
        count_event EvQuit (trace w') = count_event EvQuit (trace w) + 1)
  /\ (forall v,
        driver v = true ->
        Scraper.close E v
        = (match quit_outcome E with
           | Some e => inl e
           | None => inr tt
           end, set_trace v (trace v ++ [EvQuit]))).
Proof.
  intros Hd. split; [now apply scrape_multiple_companies_release|].
  split; [apply main_release|].
  split; [apply show_scrape_page_body_release|].
  intros v Hv. now rewrite scraper_close_spec, Hv.
Qed.

Lemma session_released_once_under_finally_witness :
  driver (fresh_world []) = false
  /\ exists r w',
       Scraper.scrape_multiple_companies refused_env (Scraper.Config 100 5)
         three_companies (fresh_world []) = (r, w')
       /\ count_event EvQuit (trace w')
          = count_event EvQuit (trace (fresh_world [])) + released refused_env.
Proof.
  split; [reflexivity|].
  destruct (session_released_once_under_finally refused_env
              (Scraper.Config 100 5) 100 three_companies (fresh_world [])
              eq_refl) as ((r & w' & Hrun & Hq & _) & _).
  exists r, w'. split; [exact Hrun|exact Hq].
Defined.

(** A negative cap is a slice from the end: all records but the last. *)
Example slice_to_negative :
  slice_to [bob_card; carol_card; torn_card] (-1) = [bob_card; carol_card].
Proof. reflexivity. Qed.

(** * Further properties of the pipeline *)

Lemma find_app_Some {A} (f : A -> bool) l1 l2 x :
  find f l1 = Some x -> find f (l1 ++ l2) = Some x.
Proof.
  induction l1 as [|y l1 IH]; [discriminate|]. simpl.
  destruct (f y); [trivial|exact IH].
Qed.

Lemma find_app_None {A} (f : A -> bool) l1 l2 :
  find f l1 = None -> find f (l1 ++ l2) = find f l2.
Proof.
  induction l1 as [|y l1 IH]; [reflexivity|]. simpl.
  destruct (f y); [discriminate|exact IH].
Qed.

Lemma identity_filter_new_JobChange change :
  identity_filter (Change.name change) (Change.company change)
    (Change.profile_url change) (new_JobChange change) = true.
Proof.
  unfold identity_filter, new_JobChange. simpl.
  now rewrite !bool_decide_eq_true_2.
Qed.

Lemma length_to_insert rs changes :
  length (to_insert rs changes) <= length changes.
Proof. unfold to_insert. rewrite length_fmap. apply length_filter. Qed.

Lemma existing_after_insert rs changes change :
  change ∈ changes ->
  existing_for (rs ++ to_insert rs changes) change <> None.
Proof.
  intros Hin. unfold existing_for.
  destruct (find (identity_filter (Change.name change) (Change.company change)
                    (Change.profile_url change)) rs) as [ex|] eqn:Hrs.
  - now rewrite (find_app_Some _ _ _ _ Hrs).
  - intros Hnone.
    assert (Hrow : In (new_JobChange change) (rs ++ to_insert rs changes)).
    { apply in_or_app. right. apply list_elem_of_In. unfold to_insert.
      apply list_elem_of_fmap. exists change. split; [reflexivity|].
      apply list_elem_of_filter. split; [exact Hrs|exact Hin]. }
    pose proof (find_none _ _ Hnone _ Hrow) as Hno.
    now rewrite identity_filter_new_JobChange in Hno.
Qed.

Lemma process_loop_spec E employees :
  forall acc w,
  exists r w',
    process_loop E employees acc w = (r, w')
    /\ match r with
       | inr _ =>
           db_ops w' = db_ops w + length employees
           /\ (forall k, db_ops w <= k < db_ops w + length employees ->
                         db_fault E k = None)
       | inl e =>
           exists k, db_ops w <= k < db_ops w + length employees
                     /\ db_fault E k = Some e /\ db_ops w' = S k
       end.
Proof.
  induction employees as [|employee rest IH]; intros acc w.
  - eexists (inr acc), w. split; [reflexivity|]. simpl.
    split; [lia|]. intros k Hk. lia.
  - simpl process_loop. unfold bind at 1, query_first. cbn [length].
    destruct (db_fault E (db_ops w)) as [e|] eqn:Hf.
    + eexists (inl e), _. split; [reflexivity|]. exists (db_ops w).
      simpl. split; [lia|]. now split.
    + assert (Hstep : forall acc' v,
                db_ops v = S (db_ops w) ->
                exists r w',
                  process_loop E rest acc' v = (r, w')
                  /\ match r with
                     | inr _ =>
                         db_ops w' = db_ops w + S (length rest)
                         /\ (forall k,
                               db_ops w <= k < db_ops w + S (length rest) ->
                               db_fault E k = None)
                     | inl e =>
                         exists k,
                           db_ops w <= k < db_ops w + S (length rest)
                           /\ db_fault E k = Some e /\ db_ops w' = S k
                     end).
      { intros acc' v Hv.
        destruct (IH acc' v) as (r & w' & Hrun & Hres).
        exists r, w'. split; [exact Hrun|]. rewrite Hv in Hres.
        destruct r as [e|changes].
        - destruct Hres as (k & Hk & Hfk & Ho). exists k.
          split; [lia|]. now split.
        - destruct Hres as (Ho & Hnf). split; [lia|].
          intros k Hk. destruct (decide (k = db_ops w)) as [->|Hne];
            [exact Hf|apply Hnf; lia]. }
      destruct (find _ (rows w)) as [ex|].
      * destruct (bool_decide _).
        -- unfold bind at 1, now. apply Hstep. reflexivity.
        -- apply Hstep. reflexivity.
      * unfold bind at 1, now. apply Hstep. reflexivity.
Qed.

(** X1.  [process_changes] only reads: it leaves the table, the browser
    trace and the driver as they are.  It makes one lookup per record;
    when a lookup faults, that fault is raised at once, after exactly the
    lookups up to it, and no event is returned. *)
Theorem process_changes_only_reads E employees w :
  exists r w',
    process_changes E employees w = (r, w')
    /\ rows w' = rows w /\ trace w' = trace w /\ driver w' = driver w
    /\ match r with
       | inr _ =>
           db_ops w' = db_ops w + length employees
           /\ (forall k, db_ops w <= k < db_ops w + length employees ->
                         db_fault E k = None)
       | inl e =>
           exists k, db_ops w <= k < db_ops w + length employees
                     /\ db_fault E k = Some e /\ db_ops w' = S k
       end.
Proof.
  pose proof (process_changes_frame E employees w) as (Hr & Ht & Hd).
  rewrite process_changes_unfold in *.
  destruct (process_loop_spec E employees [] w) as (r & w' & Hrun & Hres).
  rewrite Hrun in Hr, Ht, Hd. exists r, w'. now repeat split.
Qed.

(** X2.  Once a batch is saved, every change of it finds a row for its
    identity, and saving the same batch again adds nothing. *)
Theorem save_job_changes_again_adds_nothing E changes w :
  db_ok E ->
  exists w1 w2,
    save_job_changes E changes w = (inr tt, w1)
    /\ Forall (fun change => existing_for (rows w1) change <> None) changes
    /\ save_job_changes E changes w1 = (inr tt, w2)
    /\ rows w2 = rows w1.
Proof.
  intros Hok.
  destruct (save_job_changes_ok E changes w Hok) as (w1 & Hrun1 & _ & _ & Hr1).
  destruct (save_job_changes_ok E changes w1 Hok) as (w2 & Hrun2 & _ & _ & Hr2).
  assert (Hall : Forall (fun change => existing_for (rows w1) change <> None)
                   changes).
  { apply Forall_forall. intros change Hin. rewrite Hr1.
    now apply existing_after_insert. }
  exists w1, w2. split; [exact Hrun1|]. split; [exact Hall|].
  split; [exact Hrun2|]. rewrite Hr2.
  assert (Hnone : to_insert (rows w1) changes = []).
  { unfold to_insert. clear -Hall.
    induction Hall as [|change changes Hc _ IH]; [reflexivity|].
    rewrite filter_cons, decide_False by exact Hc. exact IH. }
  rewrite Hnone. apply app_nil_r.
Qed.

Lemma save_job_changes_again_adds_nothing_witness :
  db_ok quiet_env
  /\ exists w1 w2,
       save_job_changes quiet_env
         [alice_change None "Engineer" 1; alice_change None "Engineer" 2]
         (fresh_world []) = (inr tt, w1)
       /\ Forall (fun change => existing_for (rows w1) change <> None)
            [alice_change None "Engineer" 1; alice_change None "Engineer" 2]
       /\ save_job_changes quiet_env
            [alice_change None "Engineer" 1; alice_change None "Engineer" 2]
            w1 = (inr tt, w2)
       /\ rows w2 = rows w1.
Proof.
  split; [intros k; reflexivity|].
  apply (save_job_changes_again_adds_nothing quiet_env
           [alice_change None "Engineer" 1; alice_change None "Engineer" 2]
           (fresh_world [])).
  intros k; reflexivity.
Defined.

Lemma process_changes_single E employee w :
  db_ok E ->
  exists w',
    process_changes E [employee] w
    = (inr (match prior (rows w) employee with
            | Some ex =>
                if decide (JobChange.new_position ex
                           = Some (Employee.position employee))
                then []
                else [Change.mk (Employee.name employee)
                        (Employee.company employee)
                        (JobChange.new_position ex)
                        (Employee.position employee)
                        (clock E (ticks w))
                        (Employee.profile_url employee)]
            | None =>
                [Change.mk (Employee.name employee)
                   (Employee.company employee) None
                   (Employee.position employee)
                   (clock E (ticks w))
                   (Employee.profile_url employee)]
            end), w')
    /\ rows w' = rows w.
Proof.
  intros Hok. rewrite process_changes_unfold. simpl process_loop.
  rewrite (bind_inr _ _ _ _ _ (query_first_ok _ _ _ _ w (Hok _))).
  fold (prior (rows w) employee).
  destruct (prior (rows w) employee) as [ex|].
  - destruct (decide (JobChange.new_position ex
                      = Some (Employee.position employee))) as [Heq|Hne].
    + rewrite bool_decide_eq_false_2 by (intros Hc; now apply Hc).
      eexists. split; reflexivity.
    + rewrite bool_decide_eq_true_2 by exact Hne.
      eexists. split; reflexivity.
  - eexists. split; reflexivity.
Qed.

(** X3.  A first sighting is reported once: when a record has no prior
    row, one pass of detection and saving appends its row to the table,
    and the next pass over the same record reports nothing. *)
Theorem first_sighting_is_reported_once E employee w :
  db_ok E ->
  prior (rows w) employee = None ->
  exists change w1 w2 w3,
    process_changes E [employee] w = (inr [change], w1)
    /\ Change.old_position change = None
    /\ save_job_changes E [change] w1 = (inr tt, w2)
    /\ rows w2 = rows w ++ [new_JobChange change]
    /\ process_changes E [employee] w2 = (inr [], w3).
Proof.
  intros Hok Hp.
  destruct (process_changes_single E employee w Hok) as (w1 & Hrun1 & Hr1).
  rewrite Hp in Hrun1.
  match type of Hrun1 with _ = (inr ?cs, _) =>
    destruct (save_job_changes_ok E cs w1 Hok) as (w2 & Hrun2 & _ & _ & Hr2)
  end.
  destruct (process_changes_single E employee w2 Hok) as (w3 & Hrun3 & _).
  eexists _, w1, w2, w3. split; [exact Hrun1|]. split; [reflexivity|].
  split; [exact Hrun2|].
  assert (Hrows : rows w2 = rows w ++ [new_JobChange
            (Change.mk (Employee.name employee) (Employee.company employee)
               None (Employee.position employee) (clock E (ticks w))
               (Employee.profile_url employee))]).
  { rewrite Hr2, Hr1. unfold to_insert.
    rewrite filter_cons, decide_True by exact Hp. reflexivity. }
  split; [exact Hrows|].
  rewrite Hrun3. do 2 f_equal. unfold prior in *. rewrite Hrows.
  rewrite (find_app_None _ _ _ Hp). simpl find.
  unfold identity_filter, new_JobChange. simpl.
  rewrite !bool_decide_eq_true_2 by reflexivity. simpl.
  now rewrite decide_True.
Qed.

Lemma first_sighting_is_reported_once_witness :
  db_ok quiet_env
  /\ prior [] (alice "Engineer") = None
  /\ exists change w1 w2 w3,
       process_changes quiet_env [alice "Engineer"] (fresh_world [])
       = (inr [change], w1)
       /\ Change.old_position change = None
       /\ save_job_changes quiet_env [change] w1 = (inr tt, w2)
       /\ rows w2 = [] ++ [new_JobChange change]
       /\ process_changes quiet_env [alice "Engineer"] w2 = (inr [], w3).
Proof.
  split; [intros k; reflexivity|]. split; [reflexivity|].
  apply (first_sighting_is_reported_once quiet_env (alice "Engineer")
           (fresh_world [])).
  - intros k; reflexivity.
  - reflexivity.
Defined.

(** X4.  A change of role is reported on every pass: when the prior row
    of a record holds another role, the pass of detection and saving
    leaves the table as it was, so the next pass reports the same change
    again, with the same old and new role. *)
Theorem role_change_is_reported_again E employee ex w :
  db_ok E ->
  prior (rows w) employee = Some ex ->
  JobChange.new_position ex <> Some (Employee.position employee) ->
  exists c1 w1 w2 c2 w3,
    process_changes E [employee] w = (inr [c1], w1)
    /\ save_job_changes E [c1] w1 = (inr tt, w2)
    /\ rows w2 = rows w
    /\ process_changes E [employee] w2 = (inr [c2], w3)
    /\ Change.old_position c1 = JobChange.new_position ex
    /\ Change.old_position c2 = JobChange.new_position ex
    /\ Change.new_position c1 = Employee.position employee
    /\ Change.new_position c2 = Employee.position employee.
Proof.
  intros Hok Hp Hne.
  destruct (process_changes_single E employee w Hok) as (w1 & Hrun1 & Hr1).
  rewrite Hp, decide_False in Hrun1 by exact Hne.
  match type of Hrun1 with _ = (inr ?cs, _) =>
    destruct (save_job_changes_ok E cs w1 Hok) as (w2 & Hrun2 & _ & _ & Hr2)
  end.
  destruct (process_changes_single E employee w2 Hok) as (w3 & Hrun3 & _).
  assert (Hrows : rows w2 = rows w).
  { rewrite Hr2, Hr1. unfold to_insert.
    rewrite filter_cons, decide_False; [apply app_nil_r|].
    unfold existing_for. simpl. fold (prior (rows w) employee).
    now rewrite Hp. }
  rewrite Hrows, Hp, decide_False in Hrun3 by exact Hne.
  eexists _, w1, w2, _, w3. split; [exact Hrun1|]. split; [exact Hrun2|].
  split; [exact Hrows|]. split; [exact Hrun3|]. now repeat split.
Qed.

Lemma role_change_is_reported_again_witness :
  db_ok quiet_env
  /\ exists c1 w1 w2 c2 w3,
       process_changes quiet_env [alice "Senior Engineer"]
         (fresh_world [alice_row None "Engineer" 1]) = (inr [c1], w1)
       /\ save_job_changes quiet_env [c1] w1 = (inr tt, w2)
       /\ rows w2 = [alice_row None "Engineer" 1]
       /\ process_changes quiet_env [alice "Senior Engineer"] w2
          = (inr [c2], w3)
       /\ Change.old_position c1 = Some "Engineer"%string
       /\ Change.old_position c2 = Some "Engineer"%string
       /\ Change.new_position c1 = "Senior Engineer"%string
       /\ Change.new_position c2 = "Senior Engineer"%string.
Proof.
  split; [intros k; reflexivity|].
  apply (role_change_is_reported_again quiet_env (alice "Senior Engineer")
           (alice_row None "Engineer" 1)
           (fresh_world [alice_row None "Engineer" 1])).
  - intros k; reflexivity.
  - reflexivity.
  - discriminate.
Defined.

Lemma count_scroll_of_crawl url t :
  count_event EvScroll (EvGet url :: t) = count_event EvScroll t.
Proof.
  change (EvGet url :: t) with ([EvGet url] ++ t).
  now rewrite count_event_app.
Qed.

(** X5.  With a cap that is not negative, a crawl of either crawler
    returns at most that many records, scrolls at most as often as its
    counter allows, navigates to the company url exactly once, and leaves
    the table and the driver as they are, whatever the page does. *)
Theorem scrape_company_within_bounds E cfg cap name url w :
  (0 <= Scraper.max_results cfg)%Z ->
  (0 <= cap)%Z ->
  (exists l w',
     Scraper.scrape_company E cfg name url w = (inr l, w')
     /\ (Z.of_nat (length l) <= Scraper.max_results cfg)%Z
     /\ count_event EvScroll (trace w')
        <= count_event EvScroll (trace w) + Z.to_nat (Scraper.max_scrolls cfg)
     /\ gets (trace w') = gets (trace w) ++ [url]
     /\ rows w' = rows w /\ driver w' = driver w)
  /\ (exists l w',
        RunScraper.scrape_company E cap name url w = (inr l, w')
        /\ (Z.of_nat (length l) <= cap)%Z
        /\ count_event EvScroll (trace w')
           <= count_event EvScroll (trace w) + RunScraper.max_scrolls
        /\ gets (trace w') = gets (trace w) ++ [url]
        /\ rows w' = rows w /\ driver w' = driver w).
Proof.
  intros Hmax Hcap. split.
  - destruct (scraper_scrape_company_frame E cfg name url w)
      as (l & w' & t & Hrun & Hr & _ & Hd & Ht & Hcrawl & Hn & _ & Hlen).
    exists l, w'. split; [exact Hrun|]. split; [now apply Hlen|].
    rewrite Ht, count_event_app, count_scroll_of_crawl, gets_app,
      (gets_crawl url t Hcrawl).
    repeat split; try assumption. lia.
  - destruct (run_scraper_scrape_company_frame E cap name url w)
      as (l & w' & t & Hrun & Hr & _ & Hd & Ht & Hcrawl & Hn & _ & Hlen).
    exists l, w'. split; [exact Hrun|]. split; [now apply Hlen|].
    rewrite Ht, count_event_app, count_scroll_of_crawl, gets_app,
      (gets_crawl url t Hcrawl).
    repeat split; try assumption. lia.
Qed.

Lemma scrape_company_within_bounds_witness :
  ((0 <= 2)%Z /\ (0 <= 2)%Z)
  /\ (exists l w',
        Scraper.scrape_company bob_env (Scraper.Config 2 5) "OrgX" orgx_url
          (fresh_world []) = (inr l, w')
        /\ (Z.of_nat (length l) <= 2)%Z)
  /\ (exists l w',
        RunScraper.scrape_company bob_env 2 "OrgX" orgx_url (fresh_world [])
        = (inr l, w')
        /\ (Z.of_nat (length l) <= 2)%Z).
Proof.
  split; [split; lia|].
  destruct (scrape_company_within_bounds bob_env (Scraper.Config 2 5) 2
              "OrgX" orgx_url (fresh_world []) ltac:(simpl; lia) ltac:(lia))
    as ((l1 & w1 & Hrun1 & Hlen1 & _) & (l2 & w2 & Hrun2 & Hlen2 & _)).
  split; [exists l1, w1|exists l2, w2]; now split.
Defined.

Lemma shown_after_S pg k :
  shown_after pg (S k) = shown_after pg k + length (step_fields pg k).
Proof.
  unfold shown_after. rewrite seq_S, fmap_app, concat_app, length_app.
  simpl. now rewrite app_nil_r.
Qed.

Lemma scraper_scroll_loop_stops E cfg pg company remaining :
  forall k employees w,
  (forall j, k <= j < k + remaining ->
     exists cards, rendered pg j = inr cards /\ Forall readable cards) ->
  length employees = shown_after pg k ->
  exists l w' n,
    Scraper.scroll_loop E cfg pg company remaining k employees w = (inr l, w')
    /\ trace w' = trace w ++ replicate n EvScroll
    /\ n <= remaining
    /\ (0 < remaining -> 0 < n)
    /\ (n < remaining ->
        (Scraper.max_results cfg <= Z.of_nat (shown_after pg (k + n)))%Z)
    /\ (forall j, k < j < k + n ->
          (Z.of_nat (shown_after pg j) < Scraper.max_results cfg)%Z).
Proof.
  induction remaining as [|remaining IH]; intros k employees w Hcalm Hlen.
  - exists employees, w, 0. simpl. rewrite app_nil_r.
    repeat split; try lia; intros j Hj; lia.
  - simpl Scraper.scroll_loop. rewrite bind_emit.
    destruct (Hcalm k ltac:(lia)) as (cards & Hk & Hcards).
    rewrite Hk, bind_lift_inr. unfold bind at 1.
    destruct (scraper_extract_cards_readable E company cards Hcards employees
                (set_trace w (trace w ++ [EvScroll])))
      as (new1 & w1 & Hrun & Hfs & _).
    destruct (scraper_extract_cards_frame E company cards employees
                (set_trace w (trace w ++ [EvScroll])))
      as (r1 & w1' & Hrun' & _ & _ & _ & Ht1).
    rewrite Hrun in Hrun'. injection Hrun' as <- <-. rewrite Hrun.
    assert (Hlen1 : length (employees ++ new1) = shown_after pg (S k)).
    { rewrite shown_after_S, length_app, Hlen. f_equal.
      unfold step_fields, step_cards. rewrite Hk, <- Hfs.
      now rewrite length_fmap. }
    destruct (Scraper.max_results cfg
              <=? Z.of_nat (length (employees ++ new1)))%Z eqn:Hcap.
    + exists (employees ++ new1), w1, 1. split; [reflexivity|].
      rewrite Ht1. simpl trace. split; [reflexivity|].
      split; [lia|]. split; [lia|]. split.
      * intros _. replace (k + 1) with (S k) by lia. rewrite <- Hlen1.
        now apply Z.leb_le.
      * intros j Hj. lia.
    + destruct (IH (S k) (employees ++ new1) w1)
        as (l & w' & n & Hloop & Ht & Hn & Hpos & Hstop & Hbelow).
      { intros j Hj. apply Hcalm. lia. }
      { exact Hlen1. }
      exists l, w', (S n). split; [exact Hloop|].
      rewrite Ht, Ht1. simpl trace. rewrite replicate_S_app.
      split; [reflexivity|]. split; [lia|]. split; [lia|]. split.
      * intros Hlt. replace (k + S n) with (S k + n) by lia.
        apply Hstop. lia.
      * intros j Hj. destruct (decide (j = S k)) as [->|Hne].
        -- rewrite <- Hlen1. now apply Z.leb_gt.
        -- apply Hbelow. lia.
Qed.

(** X6.  On a page that raises nothing but absent sub-elements, the
    crawler of [scraper.py] scrolls until the records gathered reach
    [max_results] or its counter runs out, whichever comes first: it
    stops before the counter runs out only with the cap reached, the cap
    was not reached after any earlier scroll, and it scrolls at least
    once when the counter allows any scroll at all. *)
Theorem scraper_stops_scrolling_at_the_cap E cfg name url w :
  calm (site E url) (Z.to_nat (Scraper.max_scrolls cfg)) ->
  exists n,
    count_event EvScroll
      (trace (snd (Scraper.scrape_company E cfg name url w)))
    = count_event EvScroll (trace w) + n
    /\ n <= Z.to_nat (Scraper.max_scrolls cfg)
    /\ (0 < Z.to_nat (Scraper.max_scrolls cfg) -> 0 < n)
    /\ (n < Z.to_nat (Scraper.max_scrolls cfg) ->
        (Scraper.max_results cfg
         <= Z.of_nat (shown_after (site E url) n))%Z)
    /\ (forall j, 0 < j < n ->
          (Z.of_nat (shown_after (site E url) j)
           < Scraper.max_results cfg)%Z).
Proof.
  intros (Hnav & Htab & Hc).
  unfold Scraper.scrape_company, try_except, Scraper.scrape_company_body.
  rewrite bind_emit, Hnav, bind_outcome_None, bind_emit, Htab,
    bind_outcome_None.
  unfold bind at 1.
  match goal with |- context [Scraper.scroll_loop E cfg ?pg ?c ?r ?k ?l ?v] =>
    destruct (scraper_scroll_loop_stops E cfg pg c r k l v)
      as (l' & w' & n & Hrun & Ht & Hn & Hpos & Hstop & Hbelow) end.
  { intros j Hj. apply Hc. lia. }
  { reflexivity. }
  rewrite Hrun. exists n. simpl. rewrite Ht. simpl trace.
  rewrite !count_event_app, count_event_replicate.
  change (count_event EvScroll [EvGet url]) with 0.
  change (count_event EvScroll [EvPeopleTab]) with 0.
  split; [lia|]. split; [exact Hn|]. split; [exact Hpos|].
  split; [exact Hstop|]. intros j Hj. apply Hbelow. lia.
Qed.

Lemma scraper_stops_scrolling_at_the_cap_witness :
  calm bob_page (Z.to_nat 5)
  /\ exists n,
       count_event EvScroll
         (trace (snd (Scraper.scrape_company bob_env (Scraper.Config 2 5)
                        "OrgX" orgx_url (fresh_world []))))
       = count_event EvScroll (trace (fresh_world [])) + n
       /\ n <= Z.to_nat 5.
Proof.
  assert (Hcalm : calm bob_page (Z.to_nat 5)).
  { repeat split. intros k _. exists [bob_card]. split; [reflexivity|].
    repeat constructor. eexists. reflexivity. }
  split; [exact Hcalm|].
  destruct (scraper_stops_scrolling_at_the_cap bob_env (Scraper.Config 2 5)
              "OrgX" orgx_url (fresh_world []) Hcalm)
    as (n & Hcount & Hn & _).
  exists n. split; [exact Hcount|exact Hn].
Defined.

Lemma run_scraper_scrolls_max_scrolls_times_witness :
  calm bob_page RunScraper.max_scrolls
  /\ count_event EvScroll
       (trace (snd (RunScraper.scrape_company bob_env 1 "OrgX" orgx_url
                      (fresh_world []))))
     = count_event EvScroll (trace (fresh_world [])) + RunScraper.max_scrolls.
Proof.
  assert (Hcalm : calm bob_page RunScraper.max_scrolls).
  { repeat split. intros k _. exists [bob_card]. split; [reflexivity|].
    repeat constructor. eexists. reflexivity. }
  split; [exact Hcalm|].
  exact (run_scraper_scrolls_max_scrolls_times bob_env 1 "OrgX" orgx_url
           (fresh_world []) Hcalm).
Defined.

Lemma try_except_catch_all {A} (m : M A) (a : A) w :
  exists b w', try_except m (fun _ => ret a) w = (inr b, w').
Proof.
  unfold try_except. destruct (m w) as [[e|b] w']; eexists _, _; reflexivity.
Qed.

(** X8.  The batch script lets an exception out in two places only: when
    the browser cannot be launched, which happens before its [try], and
    when [quit] raises in the [finally].  Whatever goes wrong in between,
    at the login, on a page or in the store, ends the run without an
    exception. *)
Theorem main_raises_only_at_launch_or_quit E cap companies w e :
  fst (RunScraper.main E cap companies w) = inl e ->
  launch_outcome E = Some e \/ quit_outcome E = Some e.
Proof.
  unfold RunScraper.main. destruct companies as [|company rest];
    [discriminate|].
  unfold bind at 1. rewrite run_scraper_setup_driver_spec.
  destruct (launch_outcome E) as [e0|].
  { simpl. intros [= <-]. now left. }
  unfold try_finally.
  match goal with |- context [try_except ?m ?h ?v] =>
    destruct (try_except_catch_all m tt v) as (b & w1 & Hrun) end.
  rewrite Hrun, run_scraper_close_spec.
  destruct (driver w1); [|discriminate].
  destruct (quit_outcome E) as [eq|]; [|discriminate].
  simpl. intros [= <-]. now right.
Qed.

Lemma main_raises_only_at_launch_or_quit_witness :
  fst (RunScraper.main stuck_env 100 three_companies (fresh_world []))
  = inl WebDriverException
  /\ (launch_outcome stuck_env = Some WebDriverException
      \/ quit_outcome stuck_env = Some WebDriverException).
Proof.
  assert (H : fst (RunScraper.main stuck_env 100 three_companies
                     (fresh_world [])) = inl WebDriverException)
    by (vm_compute; reflexivity).
  split; [exact H|].
  exact (main_raises_only_at_launch_or_quit stuck_env 100 three_companies
           (fresh_world []) WebDriverException H).
Defined.

(** X9.  The batch script of [run_scraper.py] never reaches the store.
    Its loop passes over an organization whose crawl returns no record,
    and ends, with the [NameError] of the class that the file does not
    declare, at the first organization whose crawl returns one, whatever
    organizations follow.  So, whatever the pages show, the loop makes no
    round trip to the store, leaves the table as it is and, when it
    returns, returns the total it started with; and [main] as a whole
    makes no round trip to the store and leaves the table as it is. *)
Theorem run_scraper_batch_stores_nothing E cap companies total w :
  (exists r w',
     RunScraper.main_loop E cap companies total w = (r, w')
     /\ rows w' = rows w /\ db_ops w' = db_ops w
     /\ (forall total', r = inr total' -> total' = total))
  /\ (forall company rest n u w1,
        company !! "name"%string = Some n ->
        company !! "url"%string = Some u ->
        RunScraper.scrape_company E cap n u w = (inr [], w1) ->
        RunScraper.main_loop E cap (company :: rest) total w
        = RunScraper.main_loop E cap rest total w1)
  /\ (forall company rest n u employee l w1,
        company !! "name"%string = Some n ->
        company !! "url"%string = Some u ->
        RunScraper.scrape_company E cap n u w = (inr (employee :: l), w1) ->
        RunScraper.main_loop E cap (company :: rest) total w
        = (inl (NameError "JobChange"), w1))
  /\ rows (snd (RunScraper.main E cap companies w)) = rows w
  /\ db_ops (snd (RunScraper.main E cap companies w)) = db_ops w.
Proof.
  split; [apply main_loop_stores_nothing|].
  split; [intros; now apply main_loop_passes_over with n u|].
  split; [intros; now apply main_loop_ends_at_a_record with n u employee l|].
  destruct (RunScraper.main E cap companies w) as [r0 w0] eqn:Hmain.
  simpl. revert Hmain.
  unfold RunScraper.main. destruct companies as [|company rest];
    [intros [= <- <-]; now split|].
  unfold bind at 1. rewrite run_scraper_setup_driver_spec.
  destruct (launch_outcome E) as [e0|]; [intros [= <- <-]; now split|].
  unfold try_finally, try_except. unfold bind at 1.
  unfold RunScraper.login, try_except. rewrite bind_emit.
  destruct (login_outcome E) as [e1|]; simpl outcome.
  - unfold raise, ret. cbv beta iota zeta.
    rewrite run_scraper_close_spec. simpl driver.
    destruct (quit_outcome E); intros [= <- <-]; now split.
  - unfold ret. cbv beta iota zeta. unfold bind at 1.
    match goal with |- context [RunScraper.main_loop E cap ?c ?t ?v] =>
      destruct (main_loop_stores_nothing E cap c t v)
        as (r & w' & Hrun & Hr & Ho & _) end.
    rewrite Hrun. destruct r as [e|total']; unfold emit;
      cbv beta iota zeta;
      rewrite run_scraper_close_spec; simpl driver;
      destruct (driver w'); destruct (quit_outcome E);
      intros [= <- <-]; simpl; now rewrite Hr, Ho.
Qed.

Lemma run_scraper_batch_stores_nothing_witness :
  RunScraper.main_loop bob_env 100 three_companies 0 (fresh_world [])
  = (inl (NameError "JobChange"),
     snd (RunScraper.scrape_company bob_env 100 "OrgA"
            "https://example.org/company/a" (fresh_world []))).
Proof.
  destruct (run_scraper_batch_stores_nothing bob_env 100 three_companies 0
              (fresh_world [])) as (_ & _ & Hends & _).
  eapply Hends; [reflexivity|reflexivity|vm_compute; reflexivity].
Defined.





(** * The companies table *)

Lemma deactivate_first_fmap {B} (f : Company.t -> B) p table :
  (forall c, f (Company.deactivated c) = f c) ->
  f <$> deactivate_first p table = f <$> table.
Proof.
  intros Hf. induction table as [|c rest IH]; [reflexivity|].
  simpl deactivate_first. destruct (p c); rewrite !fmap_cons.
  - now rewrite Hf.
  - now rewrite IH.
Qed.

Lemma deactivate_first_names p table :
  Company.name <$> deactivate_first p table = Company.name <$> table.
Proof. now apply deactivate_first_fmap. Qed.

Lemma deactivate_first_ids p table :
  Company.id <$> deactivate_first p table = Company.id <$> table.
Proof. now apply deactivate_first_fmap. Qed.

Lemma deactivate_first_urls p table :
  Company.linkedin_url <$> deactivate_first p table
  = Company.linkedin_url <$> table.
Proof. now apply deactivate_first_fmap. Qed.

Lemma company_names_fmap table :
  company_names table = omap id (Company.name <$> table).
Proof.
  unfold company_names. induction table as [|c rest IH]; [reflexivity|].
  rewrite fmap_cons. destruct (Company.name c) as [n|] eqn:Hn.
  - rewrite (omap_cons_Some _ _ _ _ Hn).
    rewrite (omap_cons_Some id (Some n) n _ eq_refl). now rewrite IH.
  - rewrite (omap_cons_None _ _ _ Hn).
    rewrite (omap_cons_None id None _ eq_refl). exact IH.
Qed.

Lemma deactivate_first_company_names p table :
  company_names (deactivate_first p table) = company_names table.
Proof. now rewrite !company_names_fmap, deactivate_first_names. Qed.

Lemma deactivate_first_none p table :
  find p table = None -> deactivate_first p table = table.
Proof.
  induction table as [|c rest IH]; [reflexivity|]. simpl.
  destruct (p c); [discriminate|]. intros H. now rewrite IH.
Qed.

Lemma deactivate_first_twice p table :
  (forall c, p (Company.deactivated c) = p c) ->
  deactivate_first p (deactivate_first p table) = deactivate_first p table.
Proof.
  intros Hp. induction table as [|c rest IH]; [reflexivity|]. simpl.
  destruct (p c) eqn:Hc; simpl.
  - now rewrite Hp, Hc.
  - now rewrite Hc, IH.
Qed.

Lemma deactivate_first_never_activates p table :
  Forall2 (fun c c' => Company.is_active c' = true -> Company.is_active c = true)
    table (deactivate_first p table).
Proof.
  induction table as [|c rest IH]; [constructor|]. simpl.
  destruct (p c).
  - constructor; [discriminate|]. apply Forall2_same_length_lookup_2;
      [reflexivity|]. intros i x y Hx Hy. congruence.
  - constructor; [trivial|exact IH].
Qed.

Lemma find_name_none name table :
  name ∉ company_names table ->
  find (fun c => bool_decide (Company.name c = Some name)) table = None.
Proof.
  intros Hnot. destruct (find _ table) as [c|] eqn:Hfind; [|reflexivity].
  apply find_some in Hfind as [Hin Hc]. apply bool_decide_eq_true in Hc.
  exfalso. apply Hnot. apply list_elem_of_omap. exists c.
  split; [now apply list_elem_of_In|exact Hc].
Qed.

(** X11.  [remove_company] is a soft delete: it keeps every row with its
    key, its name and its url, and activates none; a name that is not in
    the table changes nothing, and removing a second time changes nothing
    more. *)
Theorem remove_company_keeps_every_row name table :
  let table' := WorkflowsCompanies.remove_company name table in
  Company.id <$> table' = Company.id <$> table
  /\ Company.name <$> table' = Company.name <$> table
  /\ Company.linkedin_url <$> table' = Company.linkedin_url <$> table
  /\ Forall2 (fun c c' =>
                Company.is_active c' = true -> Company.is_active c = true)
       table table'
  /\ (name ∉ company_names table -> table' = table)
  /\ WorkflowsCompanies.remove_company name table' = table'.
Proof.
  unfold WorkflowsCompanies.remove_company. simpl.
  split; [apply deactivate_first_ids|].
  split; [apply deactivate_first_names|].
  split; [apply deactivate_first_urls|].
  split; [apply deactivate_first_never_activates|].
  split.
  - intros Hnot. apply deactivate_first_none. now apply find_name_none.
  - apply deactivate_first_twice. reflexivity.
Qed.

Lemma get_companies_without name table :
  name ∉ company_names table ->
  filter (fun n => n <> Some name) (WorkflowsCompanies.get_companies table)
  = WorkflowsCompanies.get_companies table.
Proof.
  intros Hnot. unfold WorkflowsCompanies.get_companies.
  induction table as [|c rest IH]; [reflexivity|].
  assert (Hc : Company.name c <> Some name).
  { intros Hc. apply Hnot. unfold company_names.
    rewrite (omap_cons_Some _ _ _ _ Hc). left. }
  assert (Hrest : name ∉ company_names rest).
  { intros Hin. apply Hnot. unfold company_names in *. simpl.
    destruct (Company.name c); [now right|exact Hin]. }
  rewrite filter_cons. destruct (decide (Company.is_active c = true)).
  - rewrite fmap_cons, filter_cons, decide_True by exact Hc.
    now rewrite IH.
  - now apply IH.
Qed.

(** X12.  With names that are unique, as the constraint of the table has
    them, [remove_company] takes exactly the given name off the list that
    [get_companies] returns, and leaves the rest of the list, order
    included, as it was. *)
Theorem remove_company_unlists_the_name name table :
  unique_names table ->
  WorkflowsCompanies.get_companies
    (WorkflowsCompanies.remove_company name table)
  = filter (fun n => n <> Some name) (WorkflowsCompanies.get_companies table).
Proof.
  unfold unique_names, WorkflowsCompanies.remove_company.
  induction table as [|c rest IH]; intros Huniq; [reflexivity|].
  simpl deactivate_first.
  destruct (decide (Company.name c = Some name)) as [Hc|Hc].
  - rewrite bool_decide_eq_true_2 by exact Hc.
    assert (Hrest : name ∉ company_names rest).
    { unfold company_names in Huniq.
      rewrite (omap_cons_Some _ _ _ _ Hc) in Huniq.
      now apply NoDup_cons in Huniq as [Hnot _]. }
    unfold WorkflowsCompanies.get_companies at 1 2.
    rewrite !filter_cons. simpl Company.is_active.
    rewrite decide_False by discriminate.
    destruct (decide (Company.is_active c = true)).
    + rewrite fmap_cons, filter_cons, decide_False
        by (intros Hne; now apply Hne).
      symmetry. now apply get_companies_without.
    + symmetry. now apply get_companies_without.
  - rewrite bool_decide_eq_false_2 by exact Hc.
    assert (Hrest : NoDup (company_names rest)).
    { unfold company_names in *. simpl in Huniq.
      destruct (Company.name c); [now apply NoDup_cons in Huniq|exact Huniq]. }
    unfold WorkflowsCompanies.get_companies in *.
    rewrite !filter_cons.
    destruct (decide (Company.is_active c = true)).
    + rewrite !fmap_cons, filter_cons, decide_True by exact Hc.
      now rewrite IH.
    + now apply IH.
Qed.

Lemma remove_company_unlists_the_name_witness :
  unique_names two_companies
  /\ WorkflowsCompanies.get_companies
       (WorkflowsCompanies.remove_company "TCS" two_companies)
     = filter (fun n => n <> Some "TCS"%string)
         (WorkflowsCompanies.get_companies two_companies).
Proof.
  assert (H : unique_names two_companies).
  { unfold unique_names. vm_compute company_names.
    apply NoDup_cons. split; [|apply NoDup_singleton].
    intros Hin. apply list_elem_of_singleton in Hin. discriminate Hin. }
  split; [exact H|].
  exact (remove_company_unlists_the_name "TCS" two_companies H).
Defined.

Lemma insert_company_fresh new_id name url table :
  new_id ∉ (Company.id <$> table) ->
  name ∉ company_names table ->
  insert_company new_id name url table
  = inr (table ++ [Company.mk new_id (Some name) (Some url) true]).
Proof.
  intros Hid Hname. unfold insert_company.
  now rewrite !bool_decide_eq_false_2.
Qed.

Lemma insert_company_taken new_id name url table :
  name ∈ company_names table ->
  insert_company new_id name url table = inl IntegrityError.
Proof.
  intros Hname. unfold insert_company.
  rewrite (bool_decide_eq_true_2 (name ∈ company_names table)) by exact Hname.
  now rewrite orb_true_r.
Qed.

Lemma insert_company_keeps_unique new_id name url table table' :
  insert_company new_id name url table = inr table' ->
  (unique_names table -> unique_names table')
  /\ (unique_ids table -> unique_ids table').
Proof.
  unfold insert_company.
  destruct (decide (new_id ∈ (Company.id <$> table))) as [Hid|Hid];
    [now rewrite (bool_decide_eq_true_2 _ Hid)|].
  destruct (decide (name ∈ company_names table)) as [Hn|Hn];
    [rewrite (bool_decide_eq_true_2 _ Hn); now rewrite orb_true_r|].
  rewrite !bool_decide_eq_false_2 by assumption. simpl. intros [= <-].
  unfold unique_names, unique_ids, company_names.
  rewrite omap_app, fmap_app. simpl. split; intros Hu.
  - apply NoDup_app. split; [exact Hu|]. split; [|apply NoDup_singleton].
    intros x Hx Hin. apply list_elem_of_singleton in Hin. now subst.
  - apply NoDup_app. split; [exact Hu|]. split; [|apply NoDup_singleton].
    intros x Hx Hin. apply list_elem_of_singleton in Hin. now subst.
Qed.

(** X13.  With a key and a name that are not in the table, [add_company]
    returns normally, appends an active row, and the name comes last in
    the list of [get_companies]. *)
Theorem add_company_lists_the_name new_id name url table :
  new_id ∉ (Company.id <$> table) ->
  name ∉ company_names table ->
  WorkflowsCompanies.add_company new_id name url table
  = (inr tt, table ++ [Company.mk new_id (Some name) (Some url) true])
  /\ WorkflowsCompanies.get_companies
       (snd (WorkflowsCompanies.add_company new_id name url table))
     = WorkflowsCompanies.get_companies table ++ [Some name].
Proof.
  intros Hid Hname. unfold WorkflowsCompanies.add_company.
  rewrite insert_company_fresh by assumption. split; [reflexivity|].
  simpl. unfold WorkflowsCompanies.get_companies.
  rewrite filter_app, fmap_app. f_equal.
Qed.

Lemma add_company_lists_the_name_witness :
  (3%Z ∉ (Company.id <$> two_companies))
  /\ ("Wipro"%string ∉ company_names two_companies)
  /\ WorkflowsCompanies.get_companies
       (snd (WorkflowsCompanies.add_company 3 "Wipro"
               "https://www.linkedin.com/company/wipro" two_companies))
     = WorkflowsCompanies.get_companies two_companies ++ [Some "Wipro"%string].
Proof.
  assert (Hid : 3%Z ∉ (Company.id <$> two_companies)).
  { intros Hin. vm_compute in Hin.
    repeat (apply elem_of_cons in Hin as [Hin|Hin]; [discriminate Hin|]).
    now apply elem_of_nil in Hin. }
  assert (Hn : "Wipro"%string ∉ company_names two_companies).
  { intros Hin. vm_compute in Hin.
    repeat (apply elem_of_cons in Hin as [Hin|Hin]; [discriminate Hin|]).
    now apply elem_of_nil in Hin. }
  split; [exact Hid|]. split; [exact Hn|].
  exact (proj2 (add_company_lists_the_name 3 "Wipro"
                  "https://www.linkedin.com/company/wipro" two_companies
                  Hid Hn)).
Defined.

(** X14.  The soft delete does not free the name: once a company is in
    the table, removed or not, [add_company] with its name raises the
    integrity error of the unique constraint and leaves the table as it
    is, so a removed company cannot be brought back by adding it again. *)
Theorem add_company_after_remove_is_refused new_id name url table :
  name ∈ company_names table ->
  WorkflowsCompanies.add_company new_id name url table
  = (inl IntegrityError, table)
  /\ WorkflowsCompanies.add_company new_id name url
       (WorkflowsCompanies.remove_company name table)
     = (inl IntegrityError, WorkflowsCompanies.remove_company name table).
Proof.
  intros Hname.
  unfold WorkflowsCompanies.add_company, WorkflowsCompanies.remove_company.
  rewrite !insert_company_taken; [now split| |exact Hname].
  now rewrite deactivate_first_company_names.
Qed.

Lemma add_company_after_remove_is_refused_witness :
  ("TCS"%string ∈ company_names two_companies)
  /\ WorkflowsCompanies.add_company 3 "TCS" "https://example.org/tcs"
       (WorkflowsCompanies.remove_company "TCS" two_companies)
     = (inl IntegrityError,
        WorkflowsCompanies.remove_company "TCS" two_companies).
Proof.
  assert (Hn : "TCS"%string ∈ company_names two_companies)
    by (vm_compute; left).
  split; [exact Hn|].
  exact (proj2 (add_company_after_remove_is_refused 3 "TCS"
                  "https://example.org/tcs" two_companies Hn)).
Defined.

Lemma deactivate_first_keeps_unique p table :
  (unique_names table -> unique_names (deactivate_first p table))
  /\ (unique_ids table -> unique_ids (deactivate_first p table)).
Proof.
  unfold unique_names, unique_ids.
  now rewrite deactivate_first_company_names, deactivate_first_ids.
Qed.

(** X15.  The two constraints of the companies table, names unique and
    keys unique, are kept by the functions of the dashboard that write to
    it, [add_company] and [remove_company], whether they succeed or
    not. *)
Theorem company_writers_keep_the_constraints new_id name url table :
  unique_names table ->
  unique_ids table ->
  let after (table' : list Company.t) :=
    unique_names table' /\ unique_ids table' in
  after (snd (WorkflowsCompanies.add_company new_id name url table))
  /\ after (WorkflowsCompanies.remove_company name table).
Proof.
  intros Hn Hi. simpl.
  assert (Hins : forall table',
            insert_company new_id name url table = inr table' ->
            unique_names table' /\ unique_ids table').
  { intros table' Hrun.
    destruct (insert_company_keeps_unique _ _ _ _ _ Hrun) as [H1 H2].
    split; [now apply H1|now apply H2]. }
  split.
  - unfold WorkflowsCompanies.add_company.
    destruct (insert_company new_id name url table) as [e|table'] eqn:Hrun;
      simpl; [now split|now apply Hins].
  - unfold WorkflowsCompanies.remove_company.
    split; now apply deactivate_first_keeps_unique.
Qed.

Lemma two_companies_unique :
  unique_names two_companies /\ unique_ids two_companies.
Proof.
  split.
  - unfold unique_names. vm_compute company_names.
    apply NoDup_cons. split; [|apply NoDup_singleton].
    intros Hin. apply list_elem_of_singleton in Hin. discriminate Hin.
  - unfold unique_ids. vm_compute fmap.
    apply NoDup_cons. split; [|apply NoDup_singleton].
    intros Hin. apply list_elem_of_singleton in Hin. discriminate Hin.
Defined.

Lemma company_writers_keep_the_constraints_witness :
  (unique_names two_companies /\ unique_ids two_companies)
  /\ unique_names
       (snd (WorkflowsCompanies.add_company 3 "Wipro"
               "https://www.linkedin.com/company/wipro" two_companies))
  /\ unique_ids (WorkflowsCompanies.remove_company "Infosys" two_companies).
Proof.
  split; [exact two_companies_unique|].
  destruct (company_writers_keep_the_constraints 3 "Wipro"
              "https://www.linkedin.com/company/wipro" two_companies
              (proj1 two_companies_unique) (proj2 two_companies_unique))
    as ((Ha & _) & _).
  destruct (company_writers_keep_the_constraints 3 "Infosys"
              "https://www.linkedin.com/company/infosys" two_companies
              (proj1 two_companies_unique) (proj2 two_companies_unique))
    as (_ & (_ & Hr)).
  split; [exact Ha|exact Hr].
Defined.

(** * The rows behind the dashboard *)

(** X22.  The dashboard loads rows of the table in the order of the
    table, and a row is loaded exactly when its company is one of the
    selected ones and its date lies between the two dates, both included:
    a row whose company or date is NULL is never loaded, and with no
    company selected no row is. *)
Theorem load_job_changes_selects start_date end_date companies table :
  WorkflowsCompanies.load_job_changes start_date end_date companies table
    `sublist_of` table
  /\ (forall r,
        r ∈ WorkflowsCompanies.load_job_changes start_date end_date companies
              table
        <-> r ∈ table
            /\ exists c d,
                 JobChange.company r = Some c /\ c ∈ companies
                 /\ JobChange.change_date r = Some d
                 /\ (start_date <= d <= end_date)%Z)
  /\ WorkflowsCompanies.load_job_changes start_date end_date [] table = [].
Proof.
  unfold WorkflowsCompanies.load_job_changes.
  assert (Hiff : forall sel r,
            WorkflowsCompanies.company_in sel r
            && WorkflowsCompanies.dated_between start_date end_date r
            <-> exists c d,
                  JobChange.company r = Some c /\ c ∈ sel
                  /\ JobChange.change_date r = Some d
                  /\ (start_date <= d <= end_date)%Z).
  { intros sel r. rewrite andb_True.
    unfold WorkflowsCompanies.company_in, WorkflowsCompanies.dated_between.
    destruct (JobChange.company r) as [c|];
      destruct (JobChange.change_date r) as [d|]; split.
    - intros [Hc Hd]. apply bool_decide_unpack in Hc.
      apply andb_True in Hd as [H1 H2].
      apply Is_true_true, Z.leb_le in H1. apply Is_true_true, Z.leb_le in H2.
      exists c, d. repeat split; try assumption.
    - intros (c' & d' & [= <-] & Hin & [= <-] & H1 & H2). split.
      + now apply bool_decide_pack.
      + apply andb_True. split; apply Is_true_true, Z.leb_le; assumption.
    - intros [_ []].
    - intros (c' & d' & _ & _ & Hd & _). discriminate Hd.
    - intros [[] _].
    - intros (c' & d' & Hc & _). discriminate Hc.
    - intros [[] _].
    - intros (c' & d' & Hc & _). discriminate Hc. }
  split; [apply sublist_filter|]. split.
  - intros r. rewrite list_elem_of_filter, Hiff. tauto.
  - induction table as [|r table IH]; [reflexivity|].
    rewrite filter_cons, IH. destruct (decide _) as [Hp|Hp]; [|reflexivity].
    apply Hiff in Hp as (c & d & _ & Hin & _).
    now apply elem_of_nil in Hin.
Qed.

Lemma load_job_changes_selects_witness :
  alice_row None "Engineer" 5
  ∈ WorkflowsCompanies.load_job_changes 0 9 ["OrgX"%string]
      [bob_row; alice_elsewhere_row; alice_row None "Engineer" 5].
Proof.
  destruct (load_job_changes_selects 0 9 ["OrgX"%string]
              [bob_row; alice_elsewhere_row; alice_row None "Engineer" 5])
    as (_ & Hiff & _).
  apply Hiff. split.
  - apply elem_of_cons. right. apply elem_of_cons. right.
    now apply list_elem_of_singleton.
  - exists "OrgX"%string, 5%Z. split; [reflexivity|].
    split; [now apply list_elem_of_singleton|].
    split; [reflexivity|lia].
Defined.

(** * The routes of the API *)

(** X16.  No route of the API reaches the store.  The Pydantic models
    [JobChange] and [Company] are declared after the mapped classes of
    the same names and take the names over, so that [db.query] is handed
    a class that is not mapped and the constructor one that requires an
    [id]: for every table and every request, a route that reads or
    writes a table answers 500 once its parameters are accepted, and 422
    when [skip] or [limit] is out of bounds.  No row is returned, the
    routes that write leave the table as it is, and [deactivate_company]
    never answers 404. *)
Theorem api_routes_never_reach_the_store
    skip limit active_only company start_date end_date company_id new_id
    name url job_change (jobs : list JobChange.t)
    (companies : list Company.t) :
  let refused := if Backend.bounds_ok skip limit then HTTP_500 else HTTP_422 in
  Backend.globals !! "JobChange"%string
  = Some (Backend.Model
            ["name"; "company"; "new_position"; "change_date"; "profile_url";
             "id"; "is_new"; "created_at"; "updated_at"]%string)
  /\ Backend.globals !! "Company"%string
     = Some (Backend.Model
               ["name"; "linkedin_url"; "id"; "is_active"; "created_at";
                "updated_at"]%string)
  /\ Backend.get_job_changes skip limit company start_date end_date jobs
     = inl refused
  /\ Backend.get_companies skip limit active_only companies = inl refused
  /\ Backend.get_company_changes company_id skip limit start_date end_date
       companies jobs = inl refused
  /\ Backend.get_stats company start_date end_date jobs = inl HTTP_500
  /\ Backend.create_job_change job_change jobs = (inl HTTP_500, jobs)
  /\ Backend.create_company new_id name url companies
     = (inl HTTP_500, companies)
  /\ Backend.deactivate_company company_id companies
     = (inl HTTP_500, companies).
Proof.
  assert (Hj : Backend.globals !! "JobChange"%string
               = Some (Backend.Model
                         ["name"; "company"; "new_position"; "change_date";
                          "profile_url"; "id"; "is_new"; "created_at";
                          "updated_at"]%string)) by reflexivity.
  assert (Hc : Backend.globals !! "Company"%string
               = Some (Backend.Model
                         ["name"; "linkedin_url"; "id"; "is_active";
                          "created_at"; "updated_at"]%string)) by reflexivity.
  cbv zeta. split; [exact Hj|]. split; [exact Hc|].
  unfold Backend.get_job_changes, Backend.get_companies,
    Backend.get_company_changes, Backend.get_stats,
    Backend.create_job_change, Backend.create_company,
    Backend.deactivate_company.
  rewrite Hj, Hc. destruct (Backend.bounds_ok skip limit); repeat split.
Qed.

(** * The installer *)

Section InstallerFacts.
Import Installer.
Variable h : host.

Lemma all_succeed_nil n : all_succeed h n [].
Proof. intros i a Hi. discriminate Hi. Qed.

Lemma all_succeed_app n new1 new2 :
  all_succeed h n new1 ->
  all_succeed h (n + length new1) new2 ->
  all_succeed h n (new1 ++ new2).
Proof.
  intros H1 H2 i a Hi. apply lookup_app_Some in Hi as [Hi|[Hge Hi]].
  - now apply H1.
  - replace (n + i) with (n + length new1 + (i - length new1)) by lia.
    now apply H2.
Qed.

Lemma all_succeed_app_inv n new1 new2 :
  all_succeed h n (new1 ++ new2) ->
  all_succeed h n new1 /\ all_succeed h (n + length new1) new2.
Proof.
  intros H. split; intros i a Hi.
  - apply H. now apply lookup_app_l_Some.
  - replace (n + length new1 + i) with (n + (length new1 + i)) by lia.
    apply H. now rewrite lookup_app_r, Nat.add_comm, Nat.add_sub by lia.
Qed.

Lemma went_app n new1 new2 outcome :
  all_succeed h n new1 ->
  went h (n + length new1) new2 outcome ->
  went h n (new1 ++ new2) outcome.
Proof.
  intros H1 H2. destruct outcome as [e|]; simpl in *.
  - destruct H2 as (done & a & -> & Hdone & Hfail).
    exists (new1 ++ done), a. rewrite app_assoc. split; [reflexivity|].
    split; [now apply all_succeed_app|].
    now rewrite length_app, Nat.add_assoc.
  - now apply all_succeed_app.
Qed.

Lemma run_went cmd acts :
  exists outcome,
    run h cmd acts = (raised tt outcome, acts ++ [Run cmd])
    /\ went h (length acts) [Run cmd] outcome
    /\ (outcome = None \/ outcome = Some CalledProcessError
        \/ outcome = Some FileNotFoundError
        \/ outcome = Some PermissionError).
Proof.
  unfold run. destruct (proc h (length acts) cmd) as [code| |] eqn:Hp.
  - destruct (code =? 0)%Z eqn:Hc.
    + exists None. split; [reflexivity|]. split; [|now left].
      intros i a Hi. destruct i; [|discriminate Hi].
      injection Hi as <-. simpl. rewrite Nat.add_0_r, Hp.
      f_equal. now apply Z.eqb_eq.
    + exists (Some CalledProcessError). split; [reflexivity|].
      split; [|right; now left].
      exists [], (Run cmd). split; [reflexivity|].
      split; [apply all_succeed_nil|]. simpl. rewrite Nat.add_0_r. left.
      split; [reflexivity|]. exists code. split; [exact Hp|].
      now apply Z.eqb_neq.
  - exists (Some FileNotFoundError). split; [reflexivity|].
    split; [|right; right; now left].
    exists [], (Run cmd). split; [reflexivity|].
    split; [apply all_succeed_nil|]. simpl. rewrite Nat.add_0_r. right. left.
    now split.
  - exists (Some PermissionError). split; [reflexivity|].
    split; [|right; right; now right].
    exists [], (Run cmd). split; [reflexivity|].
    split; [apply all_succeed_nil|]. simpl. rewrite Nat.add_0_r. right. right.
    now split.
Qed.

End InstallerFacts.

Section InstallerSteps.
Import Installer.
Variable h : host.

Lemma install_each_went pip_cmd deps :
  forall acts,
  let cmds := (fun dep => Run (pip_cmd ++ ["install"%string; dep])) <$> deps in
  exists k outcome,
    install_each h pip_cmd deps acts = (raised tt outcome, acts ++ take k cmds)
    /\ went h (length acts) (take k cmds) outcome
    /\ (outcome = None -> k = length deps)
    /\ (outcome = None \/ outcome = Some CalledProcessError
        \/ outcome = Some FileNotFoundError
        \/ outcome = Some PermissionError).
Proof.
  induction deps as [|dep rest IH]; intros acts; simpl.
  - exists 0, None. simpl. rewrite app_nil_r. split; [reflexivity|].
    split; [apply all_succeed_nil|]. split; [reflexivity|now left].
  - unfold ibind at 1.
    destruct (run_went h (pip_cmd ++ ["install"%string; dep]) acts)
      as (o1 & Hrun & Hwent & Hkind).
    rewrite Hrun. destruct o1 as [e|]; simpl raised.
    + exists 1, (Some e). simpl.
      split; [reflexivity|]. split; [exact Hwent|].
      split; [discriminate|].
      destruct Hkind as [Hk|Hk]; [discriminate|now right].
    + destruct (IH (acts ++ [Run (pip_cmd ++ ["install"%string; dep])]))
        as (k & o & Hrest & Hw & Hfull & Hkind').
      exists (S k), o. rewrite Hrest, <- app_assoc. simpl.
      split; [reflexivity|]. split.
      * apply (went_app h (length acts) [_] _ o); [exact Hwent|].
        rewrite length_app in Hw. exact Hw.
      * split; [|exact Hkind']. intros Ho. now rewrite (Hfull Ho).
Qed.

(** X23.  [install_python_dependencies] runs its commands in the order of
    the list, the upgrade of pip first, and stops at the first that does
    not exit with status 0: what it has run is a prefix of the commands.
    It returns [True] exactly when all of them ran and succeeded,
    [False] when one exited with another status, and it raises the
    [FileNotFoundError] when the pip of the virtual environment is not
    there, or the error with which pip could not be started. *)
Theorem install_python_dependencies_runs_a_prefix acts :
  exists r k outcome,
    install_python_dependencies h acts = (r, acts ++ take k (pip_commands h))
    /\ went h (length acts) (take k (pip_commands h)) outcome
    /\ match outcome with
       | None => r = inr true /\ k = length (pip_commands h)
       | Some CalledProcessError => r = inr false
       | Some e => r = inl e /\ (e = FileNotFoundError \/ e = PermissionError)
       end.
Proof.
  unfold install_python_dependencies, except_called_process_error, icatch,
    pip_commands.
  unfold ibind at 1.
  destruct (run_went h (get_pip_command h
                        ++ ["install"; "--upgrade"; "pip"]%string) acts)
    as (o1 & Hrun & Hwent & Hkind).
  rewrite Hrun. destruct o1 as [e|]; simpl raised.
  - destruct Hkind as [Hk|[Hk|[Hk|Hk]]]; [discriminate| | |];
      injection Hk as ->.
    + exists (inr false), 1, (Some CalledProcessError). simpl.
      split; [reflexivity|]. split; [exact Hwent|reflexivity].
    + exists (inl FileNotFoundError), 1, (Some FileNotFoundError). simpl.
      split; [reflexivity|]. split; [exact Hwent|]. split; [reflexivity|].
      now left.
    + exists (inl PermissionError), 1, (Some PermissionError). simpl.
      split; [reflexivity|]. split; [exact Hwent|]. split; [reflexivity|].
      now right.
  - unfold ibind at 1.
    destruct (install_each_went (get_pip_command h) PYTHON_DEPENDENCIES
                (acts ++ [Run (get_pip_command h
                               ++ ["install"; "--upgrade"; "pip"]%string)]))
      as (k & o & Hrest & Hw & Hfull & Hkind').
    rewrite Hrest, <- app_assoc.
    assert (Hall : went h (length acts)
                     (take (S k)
                        (Run (get_pip_command h
                              ++ ["install"; "--upgrade"; "pip"]%string)
                         :: ((fun dep =>
                                Run (get_pip_command h
                                     ++ ["install"%string; dep]))
                             <$> PYTHON_DEPENDENCIES))) o).
    { apply (went_app h (length acts) [_] _ o); [exact Hwent|].
      rewrite length_app in Hw. exact Hw. }
    destruct o as [e|]; simpl raised.
    + destruct Hkind' as [Hk|[Hk|[Hk|Hk]]]; [discriminate| | |];
        injection Hk as ->.
      * exists (inr false), (S k), (Some CalledProcessError).
        split; [reflexivity|]. split; [exact Hall|reflexivity].
      * exists (inl FileNotFoundError), (S k), (Some FileNotFoundError).
        split; [reflexivity|]. split; [exact Hall|].
        split; [reflexivity|now left].
      * exists (inl PermissionError), (S k), (Some PermissionError).
        split; [reflexivity|]. split; [exact Hall|].
        split; [reflexivity|now right].
    + exists (inr true), (S k), None.
      split; [reflexivity|]. split; [exact Hall|]. split; [reflexivity|].
      rewrite (Hfull eq_refl), length_cons, length_fmap. reflexivity.
Qed.
End InstallerSteps.

Section InstallerMain.
Import Installer.
Variable h : host.


















End InstallerMain.


(** A machine whose pip is there and is not executable: the installer
    dies of the [PermissionError] at its second action. *)
Example installer_with_a_pip_that_does_not_start :
  Installer.main Installer.host_with_dead_pip []
  = (inl Installer.PermissionError,
     [Installer.Run ["/usr/bin/python3"; "-m"; "venv"; "venv"]%string;
      Installer.Run ["venv/bin/pip"; "install"; "--upgrade"; "pip"]%string]).
Proof. vm_compute. reflexivity. Qed.

(** X25.  A missing executable is handled unevenly.  When no executable
    is found, [setup_database], which has a handler for it, returns
    [False]; [install_python_dependencies] raises the [FileNotFoundError],
    and so do [create_virtual_environment] when there is no [venv] yet and
    [setup_chrome_driver] on a supported system, whose handlers are for
    the [CalledProcessError] only. *)
Theorem missing_executable_is_handled_unevenly h acts :
  (forall cmd, Installer.proc h (length acts) cmd = Installer.NoSuchFile) ->
  fst (Installer.setup_database h acts) = inr false
  /\ fst (Installer.install_python_dependencies h acts)
     = inl Installer.FileNotFoundError
  /\ (Installer.path_exists h "venv" = false ->
      fst (Installer.create_virtual_environment h acts)
      = inl Installer.FileNotFoundError)
  /\ (Installer.system h ∈ Installer.supported_systems ->
      fst (Installer.setup_chrome_driver h acts)
      = inl Installer.FileNotFoundError).
Proof.
  intros Hmiss. split; [|split; [|split]].
  - unfold Installer.setup_database, Installer.icatch, Installer.ibind.
    destruct (bool_decide _); unfold Installer.run; now rewrite Hmiss.
  - unfold Installer.install_python_dependencies,
      Installer.except_called_process_error, Installer.icatch.
    cbv zeta. unfold Installer.ibind at 1. unfold Installer.run at 1.
    now rewrite Hmiss.
  - intros Hvenv. unfold Installer.create_virtual_environment,
      Installer.except_called_process_error, Installer.icatch,
      Installer.ibind.
    rewrite Hvenv. unfold Installer.run. now rewrite Hmiss.
  - intros Hsys. unfold Installer.setup_chrome_driver,
      Installer.except_called_process_error, Installer.icatch,
      Installer.chrome_driver_version.
    rewrite bool_decide_eq_true_2 by exact Hsys.
    unfold Installer.ibind, Installer.run. now rewrite Hmiss.
Qed.

Lemma missing_executable_is_handled_unevenly_witness :
  (forall cmd,
     Installer.proc Installer.host_without_pip (length (@nil Installer.action))
       cmd = Installer.NoSuchFile)
  /\ fst (Installer.setup_database Installer.host_without_pip []) = inr false
  /\ fst (Installer.install_python_dependencies Installer.host_without_pip [])
     = inl Installer.FileNotFoundError.
Proof.
  assert (H : forall cmd,
            Installer.proc Installer.host_without_pip
              (length (@nil Installer.action)) cmd = Installer.NoSuchFile)
    by (intros cmd; reflexivity).
  split; [exact H|].
  destruct (missing_executable_is_handled_unevenly
              Installer.host_without_pip [] H) as (Hdb & Hpip & _).
  split; [exact Hdb|exact Hpip].
Defined.

(** On a machine where everything works the installer returns after
    1 + 1 + 82 + 2 + 1 subprocesses, 7 directories and the one file. *)
Example installer_on_a_good_host :
  exists new,
    Installer.main Installer.good_host [] = (inr tt, new)
    /\ length new = 95
    /\ last new = Some (Installer.WriteText ".env").
Proof. eexists. split; [vm_compute; reflexivity|]. split; reflexivity. Qed.

Lemma remove_company_keeps_every_row_witness :
  ("Wipro"%string ∉ company_names two_companies)
  /\ WorkflowsCompanies.remove_company "Wipro" two_companies = two_companies.
Proof.
  assert (Hnot : "Wipro"%string ∉ company_names two_companies).
  { vm_compute company_names. intros Hin.
    apply elem_of_cons in Hin as [Hin|Hin]; [discriminate Hin|].
    apply list_elem_of_singleton in Hin. discriminate Hin. }
  split; [exact Hnot|].
  destruct (remove_company_keeps_every_row "Wipro" two_companies)
    as (_ & _ & _ & _ & Hsame & _).
  exact (Hsame Hnot).
Defined.
